(** * Service logbook: category registry, stack micro-format codec,
      form-value extraction and the add / edit / recategorize handlers.

    Shallow embedding of
      - [src/components/service-logbook/stack-data.utils.ts]
      - [src/components/service-logbook/category-registry.ts]
      - [src/components/service-logbook/types.ts]
      - the form handlers (handleAddNote, handleEditNote,
        handleRecategorizeNote),
      - the helpers of the service-logbook component (getStackCount,
        getLatestStackSerialNumbers, getFormHelpers and the filter of the
        note list).

    Conventions of the embedding.
      - A JavaScript string is a [string]: a sequence of 8-bit characters
        (the Latin-1 range of JavaScript code units).
      - A JavaScript object used as a dictionary (a submitted form value, a
        nested group, a note patch) is a [gmap string JsVal]; reading a
        missing key gives [JUndefined].
      - A thrown [TypeError] is the [Throw] outcome of the error monad
        [Outcome].
      - A [Map] from strings to strings is a [gmap string string] and a
        [Set] of strings a [gset string]; neither is iterated by the code
        embedded here, so the insertion order is not kept. *)

From Stdlib Require Import ZArith Strings.String Strings.Ascii List Bool Lia.
From Stdlib Require Import Sorting.Sorted.
From stdpp Require Import base option gmap strings list pretty.

Set Warnings "-register-all".
Open Scope string_scope.

(* ================================================================== *)
(** ** JavaScript strings                                              *)
(* ================================================================== *)

Module JsString.

(** Truthiness of a string: every string but the empty one. *)
Definition truthy (s : string) : bool :=
  match s with EmptyString => false | String _ _ => true end.

(** [has_char c s]: does character [c] occur in [s]? *)
Fixpoint has_char (c : ascii) (s : string) : bool :=
  match s with
  | EmptyString => false
  | String a s' => if Ascii.eqb a c then true else has_char c s'
  end.

(** Number of occurrences of [c] in [s]. *)
Fixpoint count_char (c : ascii) (s : string) : nat :=
  match s with
  | EmptyString => 0
  | String a s' => (if Ascii.eqb a c then 1 else 0) + count_char c s'
  end.

(** White space in the sense of [String.prototype.trim], restricted to
    the 8-bit range: TAB, LF, VT, FF, CR, SPACE and NBSP. *)
Definition is_ws (c : ascii) : bool :=
  let n := nat_of_ascii c in
  orb (andb (Nat.leb 9 n) (Nat.leb n 13)) (orb (Nat.eqb n 32) (Nat.eqb n 160)).

Fixpoint trim_start (s : string) : string :=
  match s with
  | EmptyString => EmptyString
  | String c s' => if is_ws c then trim_start s' else s
  end.

Fixpoint trim_end (s : string) : string :=
  match s with
  | EmptyString => EmptyString
  | String c s' =>
      match trim_end s' with
      | EmptyString => if is_ws c then EmptyString else String c EmptyString
      | t => String c t
      end
  end.

(** [s.trim()] *)
Definition trim (s : string) : string := trim_end (trim_start s).

(** [s.split(sep)] for a one-character separator: always at least one
    piece, the pieces never contain the separator. *)
Fixpoint split (sep : ascii) (s : string) : list string :=
  match s with
  | EmptyString => [EmptyString]
  | String c s' =>
      if Ascii.eqb c sep then EmptyString :: split sep s'
      else match split sep s' with
           | piece :: pieces => String c piece :: pieces
           | [] => [String c EmptyString]
           end
  end.

(** [pieces.join(sep)] *)
Definition join (sep : string) (pieces : list string) : string :=
  String.concat sep pieces.

End JsString.

(* ================================================================== *)
(** ** The regular expressions of the codec                            *)
(* ================================================================== *)

(** The four tuple patterns are sequences of literal text and capture
    groups over a negated one-character class, quantified by + or by the
    Kleene star.  [js_match] is [String.prototype.match] for such a
    (non-global, unanchored) pattern: the leftmost match, each group greedy
    with backtracking; the result lists the captured groups [match[1]],
    [match[2]], ... *)

Module Regex.

Inductive Quant : Type := Star | Plus.

Inductive Item : Type :=
| Lit (text : string)                 (* literal text *)
| Cap (excluded : ascii) (q : Quant). (* a group over the class [^c] *)

Definition Pattern : Type := list Item.

Definition in_class (excluded c : ascii) : bool := negb (Ascii.eqb c excluded).

Fixpoint strip_prefix (p s : string) : option string :=
  match p, s with
  | EmptyString, _ => Some s
  | String a p', String b s' =>
      if Ascii.eqb a b then strip_prefix p' s' else None
  | String _ _, EmptyString => None
  end.

Section Greedy.
Variable excluded : ascii.
Variable k : string -> option (list string).

(** The starred group followed by the continuation [k]: first try to
    take one more character, and give it back when the rest of the
    pattern then fails. *)
Fixpoint greedy_star (s : string) : option (string * list string) :=
  let stop := option_map (fun caps => (EmptyString, caps)) (k s) in
  match s with
  | EmptyString => stop
  | String c s' =>
      if in_class excluded c then
        match greedy_star s' with
        | Some (g, caps) => Some (String c g, caps)
        | None => stop
        end
      else stop
  end.

Definition greedy_plus (s : string) : option (string * list string) :=
  match s with
  | EmptyString => None
  | String c s' =>
      if in_class excluded c then
        match greedy_star s' with
        | Some (g, caps) => Some (String c g, caps)
        | None => None
        end
      else None
  end.
End Greedy.

(** Match the whole pattern at the start of [s]. *)
Fixpoint match_here (p : Pattern) : string -> option (list string) :=
  match p with
  | [] => fun _ => Some []
  | Lit text :: p' =>
      fun s => match strip_prefix text s with
               | Some rest => match_here p' rest
               | None => None
               end
  | Cap c Star :: p' =>
      fun s => option_map (fun gc => fst gc :: snd gc)
                          (greedy_star c (match_here p') s)
  | Cap c Plus :: p' =>
      fun s => option_map (fun gc => fst gc :: snd gc)
                          (greedy_plus c (match_here p') s)
  end.

(** Leftmost match anywhere in [s]. *)
Fixpoint js_match (p : Pattern) (s : string) : option (list string) :=
  match match_here p s with
  | Some caps => Some caps
  | None =>
      match s with
      | EmptyString => None
      | String _ s' => js_match p s'
      end
  end.

(** Occurrences of [c] that the literals of a pattern demand. *)
Fixpoint literal_count (c : ascii) (p : Pattern) : nat :=
  match p with
  | [] => 0
  | Lit text :: p' => JsString.count_char c text + literal_count c p'
  | Cap _ _ :: p' => literal_count c p'
  end.

End Regex.

Import Regex.

Definition QUOTE : ascii := "'"%char.
Definition SEMICOLON : ascii := ";"%char.

(** Five groups: + star star star +, between the literals
    paren-quote, quote-comma-quote (four times) and quote-paren. *)
Definition REPLACEMENT_RE : Pattern :=
  [Lit "('"; Cap QUOTE Plus; Lit "','"; Cap QUOTE Star; Lit "','";
   Cap QUOTE Star; Lit "','"; Cap QUOTE Star; Lit "','"; Cap QUOTE Plus;
   Lit "')"].

(** Four groups: + star star +. *)
Definition TUPLE4_RE : Pattern :=
  [Lit "('"; Cap QUOTE Plus; Lit "','"; Cap QUOTE Star; Lit "','";
   Cap QUOTE Star; Lit "','"; Cap QUOTE Plus; Lit "')"].

(** Three groups: + star star (the old format). *)
Definition TUPLE3_RE : Pattern :=
  [Lit "('"; Cap QUOTE Plus; Lit "','"; Cap QUOTE Star; Lit "','";
   Cap QUOTE Star; Lit "')"].

(** Two groups: + star. *)
Definition TUPLE2_RE : Pattern :=
  [Lit "('"; Cap QUOTE Plus; Lit "','"; Cap QUOTE Star; Lit "')"].

(* ================================================================== *)
(** ** Parsed types (stack-data.utils.ts)                              *)
(* ================================================================== *)

(** The four interfaces share the field name [identifier]; the
    projections carry the initials of their interface. *)

Record StackReplacement : Type := {
  sr_identifier : string;
  sr_removed_serial_number : string;
  sr_added_serial_number : string;
  sr_stack_symptom : string;
  sr_stack_symptom_confirmed : bool
}.

Record StackInspection : Type := {
  si_identifier : string;
  si_serial_number : string;
  si_insight : string;
  si_completed : bool
}.

Record StackTensioning : Type := {
  st_identifier : string;
  st_serial_number : string;
  st_insight : string;
  st_completed : bool
}.

Record StackInstall : Type := {
  sn_identifier : string;
  sn_serial_number : string
}.

(** A value of type [T | null | undefined]. *)
Inductive Nullable (A : Type) : Type :=
| Undefined
| Null
| Val (a : A).
Arguments Undefined {A}.
Arguments Null {A}.
Arguments Val {A} a.

(* ================================================================== *)
(** ** Parsing (string -> typed objects)                               *)
(* ================================================================== *)

(** [raw.split(";").filter((r) => r.trim())] *)
Definition segments (raw : string) : list string :=
  List.filter (fun r => JsString.truthy (JsString.trim r))
              (JsString.split SEMICOLON raw).

Definition replacement_of_segment (r : string) : option StackReplacement :=
  match js_match REPLACEMENT_RE r with
  | Some [m1; m2; m3; m4; m5] =>
      Some {| sr_identifier := m1;
              sr_removed_serial_number := m2;
              sr_added_serial_number := m3;
              sr_stack_symptom := m4;
              sr_stack_symptom_confirmed := String.eqb m5 "true" |}
  | _ => None
  end.

Definition inspection_of_segment (r : string) : option StackInspection :=
  (* New format: ('id','serial','insight','completed') *)
  match js_match TUPLE4_RE r with
  | Some [m1; m2; m3; m4] =>
      Some {| si_identifier := m1; si_serial_number := m2;
              si_insight := m3; si_completed := String.eqb m4 "true" |}
  | _ =>
      (* Old format: ('id','serial','insight') *)
      match js_match TUPLE3_RE r with
      | Some [m1; m2; m3] =>
          Some {| si_identifier := m1; si_serial_number := m2;
                  si_insight := m3; si_completed := false |}
      | _ => None
      end
  end.

Definition tensioning_of_segment (r : string) : option StackTensioning :=
  match js_match TUPLE4_RE r with
  | Some [m1; m2; m3; m4] =>
      Some {| st_identifier := m1; st_serial_number := m2;
              st_insight := m3; st_completed := String.eqb m4 "true" |}
  | _ => None
  end.

Definition install_of_segment (r : string) : option StackInstall :=
  match js_match TUPLE2_RE r with
  | Some [m1; m2] => Some {| sn_identifier := m1; sn_serial_number := m2 |}
  | _ => None
  end.

(** The shared skeleton of the four parsers:
    [if (!raw) return []; return raw.split(";").filter(..).map(..).filter(..)]. *)
Definition parse_with {A : Type} (of_segment : string -> option A)
    (raw : Nullable string) : list A :=
  match raw with
  | Undefined | Null => []
  | Val s => if JsString.truthy s then omap of_segment (segments s) else []
  end.

Definition parseStackReplacements : Nullable string -> list StackReplacement :=
  parse_with replacement_of_segment.
Definition parseStackInspections : Nullable string -> list StackInspection :=
  parse_with inspection_of_segment.
Definition parseStackTensioning : Nullable string -> list StackTensioning :=
  parse_with tensioning_of_segment.
Definition parseStackInstalls : Nullable string -> list StackInstall :=
  parse_with install_of_segment.

(* ================================================================== *)
(** ** Serialization (typed objects -> string)                         *)
(* ================================================================== *)

Definition bool_text (b : bool) : string := if b then "true" else "false".

Definition replacement_tuple (i : StackReplacement) : string :=
  "('" +:+ sr_identifier i +:+ "','" +:+ sr_removed_serial_number i +:+ "','"
  +:+ sr_added_serial_number i +:+ "','" +:+ sr_stack_symptom i +:+ "','"
  +:+ bool_text (sr_stack_symptom_confirmed i) +:+ "')".

Definition inspection_tuple (i : StackInspection) : string :=
  "('" +:+ si_identifier i +:+ "','" +:+ si_serial_number i +:+ "','"
  +:+ si_insight i +:+ "','" +:+ bool_text (si_completed i) +:+ "')".

Definition tensioning_tuple (i : StackTensioning) : string :=
  "('" +:+ st_identifier i +:+ "','" +:+ st_serial_number i +:+ "','"
  +:+ st_insight i +:+ "','" +:+ bool_text (st_completed i) +:+ "')".

Definition install_tuple (i : StackInstall) : string :=
  "('" +:+ sn_identifier i +:+ "','" +:+ sn_serial_number i +:+ "')".

(** [items.map(tuple).join(";") + ";"] *)
Definition serialize_with {A : Type} (tuple : A -> string) (items : list A)
    : string :=
  JsString.join ";" (map tuple items) +:+ ";".

Definition serializeStackReplacements : list StackReplacement -> string :=
  serialize_with replacement_tuple.
Definition serializeStackInspections : list StackInspection -> string :=
  serialize_with inspection_tuple.
Definition serializeStackTensioning : list StackTensioning -> string :=
  serialize_with tensioning_tuple.
Definition serializeStackInstalls : list StackInstall -> string :=
  serialize_with install_tuple.

(* ================================================================== *)
(** ** JavaScript values                                               *)
(* ================================================================== *)

(** The values a form dialog delivers and a note patch holds: [any] of
    the source.  Numbers are the integers (epoch milliseconds) and NaN. *)
Inductive JsVal : Type :=
| JUndefined
| JNull
| JBool (b : bool)
| JNum (n : Z)
| JNaN
| JStr (s : string)
| JArr (items : list JsVal)
| JObj (props : gmap string JsVal).

(** A dictionary object: [Record<string, any>], [Partial<Note>]. *)
Abbreviation JsObject := (gmap string JsVal).

(** Errors: a computation returns a value or throws a [TypeError]. *)
Inductive Outcome (A : Type) : Type :=
| Ok (a : A)
| Throw.
Arguments Ok {A} a.
Arguments Throw {A}.

Definition bind {A B : Type} (m : Outcome A) (f : A -> Outcome B) : Outcome B :=
  match m with
  | Ok a => f a
  | Throw => Throw
  end.

Notation "'let*' x ':=' m 'in' f" := (bind m (fun x => f))
  (at level 10, x name, m at level 100, f at level 200).

Fixpoint mapM {A B : Type} (f : A -> Outcome B) (l : list A) : Outcome (list B) :=
  match l with
  | [] => Ok []
  | a :: l' => let* b := f a in let* bs := mapM f l' in Ok (b :: bs)
  end.

Module Js.

(** ToBoolean *)
Definition truthy (v : JsVal) : bool :=
  match v with
  | JUndefined | JNull | JNaN => false
  | JBool b => b
  | JNum n => negb (Z.eqb n 0)
  | JStr s => JsString.truthy s
  | JArr _ | JObj _ => true
  end.

(** [a || b] *)
Definition or (a b : JsVal) : JsVal := if truthy a then a else b.

(** [a ?? b] *)
Definition nullish (a b : JsVal) : JsVal :=
  match a with
  | JUndefined | JNull => b
  | _ => a
  end.

(** [o[k]] on a dictionary object. *)
Definition get (o : JsObject) (k : string) : JsVal :=
  match o !! k with
  | Some v => v
  | None => JUndefined
  end.

(** [v[k]] on a value that is neither null nor undefined, for the field
    keys of this component (none of them is a built-in property of a
    string, number, boolean or array): own property or undefined. *)
Definition get_prop (v : JsVal) (k : string) : JsVal :=
  match v with
  | JObj o => get o k
  | _ => JUndefined
  end.

(** [Array.isArray(v)] *)
Definition is_array (v : JsVal) : bool :=
  match v with
  | JArr _ => true
  | _ => false
  end.

(** [Object.assign(target, source)]: the properties of [source] win. *)
Definition assign (target source : JsObject) : JsObject := source ∪ target.

(** ToString, as a template literal applies it to an interpolated
    value.  A [JNum] stands for an integer of magnitude below 10^21,
    which JavaScript prints in decimal (beyond that it switches to the
    exponent form). *)
Fixpoint to_string (v : JsVal) : string :=
  match v with
  | JUndefined => "undefined"
  | JNull => "null"
  | JBool b => if b then "true" else "false"
  | JNum n => pretty n
  | JNaN => "NaN"
  | JStr s => s
  | JArr items =>
      JsString.join ","
        (map (fun item => match item with
                          | JUndefined | JNull => EmptyString
                          | _ => to_string item
                          end) items)
  | JObj _ => "[object Object]"
  end.

End Js.

(* ================================================================== *)
(** ** Helpers and form-value extraction (stack-data.utils.ts)         *)
(* ================================================================== *)

Definition ALL_STACK_IDENTIFIERS : list string := ["a"; "b"; "c"; "d"; "e"].

(** [l.slice(0, stop)] for an integer [stop]: a negative [stop] counts
    from the end of the list. *)
Definition slice_to {A : Type} (stop : Z) (l : list A) : list A :=
  let len := Z.of_nat (length l) in
  let k := if (stop <? 0)%Z then Z.max (len + stop) 0 else Z.min stop len in
  firstn (Z.to_nat k) l.

Definition getStackIdentifiers (stackCount : Z) : list string :=
  slice_to stackCount ALL_STACK_IDENTIFIERS.

(** [value[key] || {}] *)
Definition group_of (value : JsObject) (key : string) : JsVal :=
  Js.or (Js.get value key) (JObj ∅).

(** [group[key]], or the empty string when that is falsy; still untyped. *)
Definition text_of (group : JsVal) (key : string) : JsVal :=
  Js.or (Js.get_prop group key) (JStr EmptyString).

(** [!!group[key]] *)
Definition flag_of (group : JsVal) (key : string) : bool :=
  Js.truthy (Js.get_prop group key).

(** The extractors store the text values in fields typed [string]; the
    only consumers of these fields are the template literals of the
    serializers, so the embedding applies their ToString when the
    sub-record is built. *)

Definition replacement_of_form (value : JsObject) (id : string)
    : option StackReplacement :=
  let group := group_of value ("stack_group_" +:+ id) in
  let removed := text_of group ("removed_serial_number_" +:+ id) in
  let added := text_of group ("added_serial_number_" +:+ id) in
  let symptom := text_of group ("stack_symptom_" +:+ id) in
  let confirmed := flag_of group ("stack_symptom_confirmed_" +:+ id) in
  if Js.truthy removed || Js.truthy added then
    Some {| sr_identifier := id;
            sr_removed_serial_number := Js.to_string removed;
            sr_added_serial_number := Js.to_string added;
            sr_stack_symptom := Js.to_string symptom;
            sr_stack_symptom_confirmed := confirmed |}
  else None.

Definition inspection_of_form (value : JsObject) (id : string)
    : option StackInspection :=
  let group := group_of value ("stack_group_inspection_" +:+ id) in
  let serial := text_of group ("stack_serial_number_" +:+ id) in
  let insight := text_of group ("insight_" +:+ id) in
  let completed := flag_of group ("stack_completed_" +:+ id) in
  if Js.truthy serial || Js.truthy insight then
    Some {| si_identifier := id; si_serial_number := Js.to_string serial;
            si_insight := Js.to_string insight; si_completed := completed |}
  else None.

Definition tensioning_of_form (value : JsObject) (id : string)
    : option StackTensioning :=
  let group := group_of value ("stack_group_tensioning_" +:+ id) in
  let serial := text_of group ("stack_serial_number_" +:+ id) in
  let insight := text_of group ("insight_" +:+ id) in
  let completed := flag_of group ("stack_completed_" +:+ id) in
  if Js.truthy serial || Js.truthy insight then
    Some {| st_identifier := id; st_serial_number := Js.to_string serial;
            st_insight := Js.to_string insight; st_completed := completed |}
  else None.

Definition install_of_form (value : JsObject) (id : string)
    : option StackInstall :=
  let group := group_of value ("stack_group_installs_" +:+ id) in
  let serial := text_of group ("stack_serial_number_" +:+ id) in
  if Js.truthy serial then
    Some {| sn_identifier := id; sn_serial_number := Js.to_string serial |}
  else None.

(** [for (const id of getStackIdentifiers(stackCount)) { ... items.push ... }] *)
Definition extractStackReplacementsFromForm (value : JsObject) (stackCount : Z)
    : list StackReplacement :=
  omap (replacement_of_form value) (getStackIdentifiers stackCount).

Definition extractStackInspectionsFromForm (value : JsObject) (stackCount : Z)
    : list StackInspection :=
  omap (inspection_of_form value) (getStackIdentifiers stackCount).

Definition extractStackTensioningFromForm (value : JsObject) (stackCount : Z)
    : list StackTensioning :=
  omap (tensioning_of_form value) (getStackIdentifiers stackCount).

Definition extractStackInstallsFromForm (value : JsObject) (stackCount : Z)
    : list StackInstall :=
  omap (install_of_form value) (getStackIdentifiers stackCount).

(* ================================================================== *)
(** ** Category registry (types.ts, category-registry.ts)              *)
(* ================================================================== *)

(** [CategoryFormHelpers].  [getStackCount] is the number the callback
    returns; [getLatestSerials] only feeds default values of form inputs
    and is not part of the embedding. *)
Record CategoryFormHelpers : Type := {
  getStackCount : Z;
  isEdit : bool
}.

(** [CategoryConfig], without the members that build form inputs and
    HTML.  [validate] is optional and returns [string | null]. *)
Record CategoryConfig : Type := {
  value : string;
  label : string;
  internalOnly : bool;
  serializeFormValue : JsObject -> CategoryFormHelpers -> Outcome JsObject;
  validate : option (JsObject -> CategoryFormHelpers -> option string)
}.

(** [(item) => typeof item === "string" ? item : item.tag_number];
    reading a property of null or undefined throws. *)
Definition tag_of_item (item : JsVal) : Outcome JsVal :=
  match item with
  | JStr s => Ok (JStr s)
  | JUndefined | JNull => Throw
  | _ => Ok (Js.get_prop item "tag_number")
  end.

(** [{ tag_numbers: Array.isArray(tagNumbers) ? tagNumbers.map(..) : null }] *)
Definition serialize_tag_numbers (form : JsObject) : Outcome JsObject :=
  match Js.get form "tag_numbers" with
  | JArr items =>
      let* tags := mapM tag_of_item items in
      Ok {[ "tag_numbers" := JArr tags ]}
  | _ => Ok {[ "tag_numbers" := JNull ]}
  end.

Definition calibration : CategoryConfig := {|
  value := "Calibration";
  label := "Calibration";
  internalOnly := false;
  serializeFormValue := fun form _ => serialize_tag_numbers form;
  validate := None
|}.

Definition softwareUpdate : CategoryConfig := {|
  value := "Software update";
  label := "Software update";
  internalOnly := false;
  serializeFormValue := fun form _ =>
    Ok (<["software_type" := Js.or (Js.get form "software_type") JNull]>
        {[ "version" := Js.or (Js.get form "version") JNull ]});
  validate := None
|}.

Definition settingsChange : CategoryConfig := {|
  value := "Settings change";
  label := "Settings change";
  internalOnly := false;
  serializeFormValue := fun form _ => serialize_tag_numbers form;
  validate := None
|}.

(** [items.length === 0 ? message : null] *)
Definition require_items {A : Type} (items : list A) (message : string)
    : option string :=
  match items with
  | [] => Some message
  | _ :: _ => None
  end.

(** [items.length > 0 ? serialize(items) : null] *)
Definition encode_items {A : Type} (serialize : list A -> string)
    (items : list A) : JsVal :=
  match items with
  | [] => JNull
  | _ :: _ => JStr (serialize items)
  end.

Definition stackReplacements : CategoryConfig := {|
  value := "Stack replacements";
  label := "Stack replacements";
  internalOnly := true;
  serializeFormValue := fun form helpers =>
    let items := extractStackReplacementsFromForm form (getStackCount helpers) in
    Ok (<["workorder_id" := Js.or (Js.get form "workorder_id") JNull]>
        {[ "stack_replacements" := encode_items serializeStackReplacements items ]});
  validate := Some (fun form helpers =>
    require_items (extractStackReplacementsFromForm form (getStackCount helpers))
                  "At least one stack replacement must be filled in.")
|}.

Definition stackInspection : CategoryConfig := {|
  value := "Stack inspection";
  label := "Stack visual inspection";
  internalOnly := true;
  serializeFormValue := fun form helpers =>
    let items := extractStackInspectionsFromForm form (getStackCount helpers) in
    Ok {[ "stack_inspections" := encode_items serializeStackInspections items ]};
  validate := Some (fun form helpers =>
    require_items (extractStackInspectionsFromForm form (getStackCount helpers))
                  "At least one stack inspection must be filled in.")
|}.

Definition stackTensioning : CategoryConfig := {|
  value := "Stack tensioning";
  label := "Stack tensioning";
  internalOnly := true;
  serializeFormValue := fun form helpers =>
    let items := extractStackTensioningFromForm form (getStackCount helpers) in
    Ok {[ "stack_tensioning" := encode_items serializeStackTensioning items ]};
  validate := Some (fun form helpers =>
    require_items (extractStackTensioningFromForm form (getStackCount helpers))
                  "At least one stack tensioning must be filled in.")
|}.

Definition stackInstalls : CategoryConfig := {|
  value := "Stack installs";
  label := "Stack installs";
  internalOnly := true;
  serializeFormValue := fun form helpers =>
    let items := extractStackInstallsFromForm form (getStackCount helpers) in
    Ok {[ "stack_installs" := encode_items serializeStackInstalls items ]};
  validate := Some (fun form helpers =>
    require_items (extractStackInstallsFromForm form (getStackCount helpers))
                  "At least one stack install must be filled in.")
|}.

Definition other : CategoryConfig := {|
  value := "Other";
  label := "Other";
  internalOnly := false;
  serializeFormValue := fun _ _ => Ok ∅;
  validate := None
|}.

(** All category configurations, in display order. *)
Definition CATEGORY_CONFIGS : list CategoryConfig :=
  [calibration; softwareUpdate; settingsChange; stackReplacements;
   stackInspection; stackTensioning; stackInstalls; other].

(** [new Map(CATEGORY_CONFIGS.map((c) => [c.value, c]))]: the entries
    are set one after the other. *)
Definition configByValue : gmap string CategoryConfig :=
  foldl (fun m c => <[value c := c]> m) ∅ CATEGORY_CONFIGS.

(** [noteCategory ? configByValue.get(noteCategory) : undefined].  A
    [Map] compares keys by identity of value: only a string finds one. *)
Definition getCategoryConfig (noteCategory : JsVal) : option CategoryConfig :=
  if Js.truthy noteCategory then
    match noteCategory with
    | JStr key => configByValue !! key
    | _ => None
    end
  else None.

(** [config?.label || noteCategory || "Uncategorized"] *)
Definition getCategoryDisplayLabel (noteCategory : JsVal) : JsVal :=
  let config_label :=
    match getCategoryConfig noteCategory with
    | Some c => JStr (label c)
    | None => JUndefined
    end in
  Js.or (Js.or config_label noteCategory) (JStr "Uncategorized").

Record CategoryOption : Type := {
  opt_value : string;
  opt_label : string
}.

Definition getCategoryOptions (isPlugPowerUser : bool) : list CategoryOption :=
  map (fun c => {| opt_value := value c; opt_label := label c |})
      (List.filter (fun c => isPlugPowerUser || negb (internalOnly c))
                   CATEGORY_CONFIGS).

(* ================================================================== *)
(** ** Notes (types.ts)                                                *)
(* ================================================================== *)

Record Note : Type := {
  _id : string;
  subject : Nullable string;
  text : string;
  created_on : Z;
  category : Nullable Z;
  note_category : Nullable string;
  author_id : Nullable string;
  author_name : Nullable string;
  editor_id : Nullable string;
  editor_name : Nullable string;
  updated_on : Nullable Z;
  performed_on : Nullable Z;
  tag_numbers : Nullable (list string);
  version : Nullable string;
  software_type : Nullable string;
  external_note : Nullable bool;
  stack_replacements : Nullable string;
  workorder_id : Nullable string;
  stack_inspections : Nullable string;
  stack_installs : Nullable string;
  stack_tensioning : Nullable string
}.

Definition js_of_text (t : Nullable string) : JsVal :=
  match t with
  | Undefined => JUndefined
  | Null => JNull
  | Val s => JStr s
  end.

(* ================================================================== *)
(** ** Form handlers                                                   *)
(* ================================================================== *)

(** The dialogs a handler opens; titles and input schemas are left
    out, the category a schema is built for is kept. *)
Inductive Dialog : Type :=
| SelectCategoryDialog (options : list CategoryOption)
| AddNoteDialog (category : JsVal)
| EditNoteDialog (category : JsVal)
| SelectNewCategoryDialog (options : list CategoryOption)
| RecategorizeDialog (newCategory : JsVal).

(** What a handler does to its collaborators.  [initialValue] tells
    whether the call of [openFormDialog] passes an [initialValue]. *)
Inductive Event : Type :=
| OpenFormDialog (d : Dialog) (initialValue : bool)
| OpenAlertDialog (title message : string)
| NotesAdd (noteData : JsObject)
| NotesEdit (id : string) (patch : JsObject).

(** The answer of a form dialog: [result?.value], [None] when the
    dialog was cancelled. *)
Abbreviation DialogResult := (option JsObject).

(** One turn of a handler's [while] loop. *)
Inductive Iteration (State : Type) : Type :=
| LoopEnd
| Silent (next : State)
| Prompt (d : Dialog) (initialValue : bool)
         (resume : DialogResult -> Outcome (list Event * State)).
Arguments LoopEnd {State}.
Arguments Silent {State} next.
Arguments Prompt {State} d initialValue resume.

(** How a run of a handler against a script of dialog answers ends. *)
Inductive Final (State : Type) : Type :=
| Returned
| Awaiting (st : State)
| Threw
| OutOfFuel.
Arguments Returned {State}.
Arguments Awaiting {State} st.
Arguments Threw {State}.
Arguments OutOfFuel {State}.

Fixpoint run {State : Type} (iteration : State -> Iteration State) (fuel : nat) (st : State)
    (script : list DialogResult) : list Event * Final State :=
  match fuel with
  | O => ([], OutOfFuel)
  | S fuel' =>
      match iteration st with
      | LoopEnd => ([], Returned)
      | Silent st' => run iteration fuel' st' script
      | Prompt d initialValue resume =>
          match script with
          | [] => ([OpenFormDialog d initialValue], Awaiting st)
          | answer :: script' =>
              match resume answer with
              | Throw => ([OpenFormDialog d initialValue], Threw)
              | Ok (events, st') =>
                  let (trace, final) := run iteration fuel' st' script' in
                  (OpenFormDialog d initialValue :: events ++ trace, final)
              end
          end
      end
  end.

(** The category-owned fields that recategorization resets, in the
    order of the assignments. *)
Definition CLEARED_FIELDS : list string :=
  ["tag_numbers"; "software_type"; "version"; "stack_replacements";
   "workorder_id"; "stack_inspections"; "stack_installs"; "stack_tensioning"].

Section Handlers.

(** luxon's [DateTime.fromISO(v)]: the epoch milliseconds of a valid
    instant, [None] for an invalid [DateTime] (whose [isValid] is false
    and whose [toMillis()] is NaN). *)
Variable fromISO : JsVal -> option Z.

(** [isPlugPowerUser ? (value.external_note ?? false) : true] *)
Definition external_note_of (isPlugPowerUser : bool) (form : JsObject) : JsVal :=
  if isPlugPowerUser
  then Js.nullish (Js.get form "external_note") (JBool false)
  else JBool true.

(** [if (config?.validate) { const error = config.validate(..); if (error) ..] *)
Definition validation_error (config : option CategoryConfig)
    (form : JsObject) (helpers : CategoryFormHelpers) : option string :=
  match config with
  | Some c =>
      match validate c with
      | Some check =>
          match check form helpers with
          | Some error => if JsString.truthy error then Some error else None
          | None => None
          end
      | None => None
      end
  | None => None
  end.

(** [if (config) Object.assign(target, config.serializeFormValue(..))] *)
Definition assign_serialized (config : option CategoryConfig)
    (target form : JsObject) (helpers : CategoryFormHelpers) : Outcome JsObject :=
  match config with
  | Some c =>
      let* fields := serializeFormValue c form helpers in
      Ok (Js.assign target fields)
  | None => Ok target
  end.

(** [if (v.performed_on) { d = fromISO(..); if (d.isValid) o.performed_on = d.toMillis() }] *)
Definition set_performed_on_if_valid (form target : JsObject) : JsObject :=
  if Js.truthy (Js.get form "performed_on") then
    match fromISO (Js.get form "performed_on") with
    | Some millis => <["performed_on" := JNum millis]> target
    | None => target
    end
  else target.

(** [if (performed_on) { d = fromISO(..); o.performed_on = d.toMillis() }] *)
Definition set_performed_on (form target : JsObject) : JsObject :=
  if Js.truthy (Js.get form "performed_on") then
    match fromISO (Js.get form "performed_on") with
    | Some millis => <["performed_on" := JNum millis]> target
    | None => <["performed_on" := JNaN]> target
    end
  else target.

(** [if (src.tag_numbers && Array.isArray(src.tag_numbers))
       target.tag_numbers = src.tag_numbers.map(..)] *)
Definition transform_tag_numbers (src target : JsObject) : Outcome JsObject :=
  match Js.get src "tag_numbers" with
  | JArr items =>
      let* tags := mapM tag_of_item items in
      Ok (<["tag_numbers" := JArr tags]> target)
  | _ => Ok target
  end.

(* ---------------------------------------------------------------- *)
(** *** Add note                                                     *)
(* ---------------------------------------------------------------- *)

Inductive AddStep : Type := AddCategory | AddNote | AddExit.

Record AddState : Type := {
  add_step : AddStep;
  add_category : JsVal
}.

Definition add_note_data (category : JsVal) (form : JsObject)
    (helpers : CategoryFormHelpers) (isPlugPowerUser : bool) : Outcome JsObject :=
  let config := getCategoryConfig category in
  let noteData : JsObject :=
    <["note_category" := category]>
    {[ "external_note" := external_note_of isPlugPowerUser form ]} in
  let* noteData := assign_serialized config noteData form helpers in
  let noteData := set_performed_on_if_valid form noteData in
  let restOfValue := delete "external_note" (delete "performed_on" form) in
  Ok (Js.assign noteData restOfValue).

Definition add_note_submit (category : JsVal) (form : JsObject)
    (helpers : CategoryFormHelpers) (isPlugPowerUser : bool)
    : Outcome (list Event * AddState) :=
  match validation_error (getCategoryConfig category) form helpers with
  | Some error =>
      Ok ([OpenAlertDialog "Validation Error" error],
          {| add_step := AddNote; add_category := category |})
  | None =>
      let* noteData := add_note_data category form helpers isPlugPowerUser in
      Ok ([NotesAdd noteData],
          {| add_step := AddExit; add_category := category |})
  end.

Definition add_iteration (helpers : CategoryFormHelpers)
    (isPlugPowerUser : bool) (st : AddState) : Iteration AddState :=
  match add_step st with
  | AddExit => LoopEnd
  | AddCategory =>
      Prompt (SelectCategoryDialog (getCategoryOptions isPlugPowerUser)) false
        (fun categoryResult =>
           match categoryResult with
           | Some form =>
               Ok ([], {| add_step := AddNote;
                          add_category := Js.get form "category" |})
           | None =>
               Ok ([], {| add_step := AddExit;
                          add_category := add_category st |})
           end)
  | AddNote =>
      if negb (Js.truthy (add_category st)) then
        Silent {| add_step := AddCategory; add_category := add_category st |}
      else
        Prompt (AddNoteDialog (add_category st)) false
          (fun noteResult =>
             match noteResult with
             | Some form =>
                 add_note_submit (add_category st) form helpers isPlugPowerUser
             | None =>
                 Ok ([], {| add_step := AddCategory;
                            add_category := add_category st |})
             end)
  end.

Definition handleAddNote (helpers : CategoryFormHelpers)
    (isPlugPowerUser : bool) (fuel : nat) (script : list DialogResult)
    : list Event * Final AddState :=
  run (add_iteration helpers isPlugPowerUser) fuel
      {| add_step := AddCategory; add_category := JNull |} script.

(* ---------------------------------------------------------------- *)
(** *** Edit note                                                    *)
(* ---------------------------------------------------------------- *)

Definition edit_submit (note : Note) (helpers : CategoryFormHelpers)
    (form : JsObject) : Outcome (list Event) :=
  let editHelpers :=
    {| getStackCount := getStackCount helpers; isEdit := true |} in
  let config := getCategoryConfig (js_of_text (note_category note)) in
  let updatedNote := delete "performed_on" form in
  let updatedNote := set_performed_on form updatedNote in
  let* updatedNote := transform_tag_numbers updatedNote updatedNote in
  match validation_error config form editHelpers with
  | Some error => Ok [OpenAlertDialog "Validation Error" error]
  | None =>
      let* updatedNote := assign_serialized config updatedNote form editHelpers in
      Ok [NotesEdit (_id note) updatedNote]
  end.

Definition handleEditNote (note : Note) (helpers : CategoryFormHelpers)
    (script : list DialogResult) : list Event * Final unit :=
  let opened :=
    OpenFormDialog
      (EditNoteDialog (Js.or (js_of_text (note_category note)) (JStr "Other")))
      true in
  match script with
  | [] => ([opened], Awaiting tt)
  | None :: _ => ([opened], Returned)
  | Some form :: _ =>
      match edit_submit note helpers form with
      | Ok events => (opened :: events, Returned)
      | Throw => ([opened], Threw)
      end
  end.

(* ---------------------------------------------------------------- *)
(** *** Recategorize note                                            *)
(* ---------------------------------------------------------------- *)

Inductive RecategorizeStep : Type :=
  SelectCategoryStep | FillNewFields | RecategorizeExit.

Record RecategorizeState : Type := {
  rec_step : RecategorizeStep;
  rec_newCategory : JsVal
}.

(** [if (value.text !== undefined) o.text = value.text] *)
Definition set_text (form target : JsObject) : JsObject :=
  match Js.get form "text" with
  | JUndefined => target
  | text_value => <["text" := text_value]> target
  end.

(** [o[field] = o[field] ?? null] *)
Definition clear_field (o : JsObject) (field : string) : JsObject :=
  <[field := Js.nullish (Js.get o field) JNull]> o.

Definition recategorize_patch (newCategory : JsVal) (form : JsObject)
    (helpers : CategoryFormHelpers) (isPlugPowerUser : bool) : Outcome JsObject :=
  let newConfig := getCategoryConfig newCategory in
  let updatedNote : JsObject :=
    <["note_category" := newCategory]>
    {[ "external_note" := external_note_of isPlugPowerUser form ]} in
  let updatedNote := set_performed_on_if_valid form updatedNote in
  let* updatedNote := transform_tag_numbers form updatedNote in
  let* updatedNote := assign_serialized newConfig updatedNote form helpers in
  let updatedNote := set_text form updatedNote in
  Ok (foldl clear_field updatedNote CLEARED_FIELDS).

Definition recategorize_submit (note : Note) (newCategory : JsVal)
    (form : JsObject) (helpers : CategoryFormHelpers) (isPlugPowerUser : bool)
    : Outcome (list Event * RecategorizeState) :=
  match validation_error (getCategoryConfig newCategory) form helpers with
  | Some error =>
      Ok ([OpenAlertDialog "Validation Error" error],
          {| rec_step := FillNewFields; rec_newCategory := newCategory |})
  | None =>
      let* updatedNote :=
        recategorize_patch newCategory form helpers isPlugPowerUser in
      Ok ([NotesEdit (_id note) updatedNote],
          {| rec_step := RecategorizeExit; rec_newCategory := newCategory |})
  end.

Definition recategorize_iteration (note : Note) (helpers : CategoryFormHelpers)
    (isPlugPowerUser : bool) (st : RecategorizeState)
    : Iteration RecategorizeState :=
  match rec_step st with
  | RecategorizeExit => LoopEnd
  | SelectCategoryStep =>
      Prompt (SelectNewCategoryDialog (getCategoryOptions isPlugPowerUser)) false
        (fun categoryResult =>
           match categoryResult with
           | Some form =>
               Ok ([], {| rec_step := FillNewFields;
                          rec_newCategory := Js.get form "new_category" |})
           | None =>
               Ok ([], {| rec_step := RecategorizeExit;
                          rec_newCategory := rec_newCategory st |})
           end)
  | FillNewFields =>
      if negb (Js.truthy (rec_newCategory st)) then
        Silent {| rec_step := SelectCategoryStep;
                  rec_newCategory := rec_newCategory st |}
      else
        Prompt (RecategorizeDialog (rec_newCategory st)) false
          (fun formResult =>
             match formResult with
             | Some form =>
                 recategorize_submit note (rec_newCategory st) form helpers
                                     isPlugPowerUser
             | None =>
                 Ok ([], {| rec_step := SelectCategoryStep;
                            rec_newCategory := rec_newCategory st |})
             end)
  end.

Definition handleRecategorizeNote (note : Note) (helpers : CategoryFormHelpers)
    (isPlugPowerUser : bool) (fuel : nat) (script : list DialogResult)
    : list Event * Final RecategorizeState :=
  run (recategorize_iteration note helpers isPlugPowerUser) fuel
      {| rec_step := SelectCategoryStep; rec_newCategory := JNull |} script.

End Handlers.

(* ================================================================== *)
(** ** Edit initial values (category-registry.ts)                      *)
(* ================================================================== *)

(** [getEditInitialValue] of the seven categories that have one ("Other"
    has none): the form value fragment an edit dialog is pre-filled
    with.  The second parameter of the source, the helpers, is used by
    none of them.  In an object literal a later key wins, so the last
    key of the literal is the outermost insertion. *)

(** [note.tag_numbers || []] *)
Definition tags_or_empty (t : Nullable (list string)) : JsVal :=
  match t with
  | Val tags => JArr (map JStr tags)
  | Undefined | Null => JArr []
  end.

(** [note.field] read as text, the empty string when it is falsy. *)
Definition text_or_empty (t : Nullable string) : string :=
  match t with
  | Val s => s
  | Undefined | Null => EmptyString
  end.

Definition calibration_getEditInitialValue (note : Note) : JsObject :=
  {[ "tag_numbers" := tags_or_empty (tag_numbers note) ]}.

Definition softwareUpdate_getEditInitialValue (note : Note) : JsObject :=
  <["version" := JStr (text_or_empty (version note))]>
  {[ "software_type" := JStr (text_or_empty (software_type note)) ]}.

Definition settingsChange_getEditInitialValue (note : Note) : JsObject :=
  {[ "tag_numbers" := tags_or_empty (tag_numbers note) ]}.

Definition replacement_group (r : StackReplacement) : JsObject :=
  <["stack_symptom_confirmed_" +:+ sr_identifier r
      := JBool (sr_stack_symptom_confirmed r)]>
  (<["stack_symptom_" +:+ sr_identifier r := JStr (sr_stack_symptom r)]>
  (<["added_serial_number_" +:+ sr_identifier r := JStr (sr_added_serial_number r)]>
  {[ "removed_serial_number_" +:+ sr_identifier r
       := JStr (sr_removed_serial_number r) ]})).

Definition inspection_group (i : StackInspection) : JsObject :=
  <["stack_completed_" +:+ si_identifier i := JBool (si_completed i)]>
  (<["insight_" +:+ si_identifier i := JStr (si_insight i)]>
  {[ "stack_serial_number_" +:+ si_identifier i := JStr (si_serial_number i) ]}).

Definition tensioning_group (t : StackTensioning) : JsObject :=
  <["stack_completed_" +:+ st_identifier t := JBool (st_completed t)]>
  (<["insight_" +:+ st_identifier t := JStr (st_insight t)]>
  {[ "stack_serial_number_" +:+ st_identifier t := JStr (st_serial_number t) ]}).

Definition install_group (i : StackInstall) : JsObject :=
  {[ "stack_serial_number_" +:+ sn_identifier i := JStr (sn_serial_number i) ]}.

(** [for (const r of records) initial[prefix + r.identifier] = group(r)] *)
Definition fill_groups {A : Type} (prefix : string) (idf : A -> string)
    (group : A -> JsObject) (initial : JsObject) (records : list A) : JsObject :=
  foldl (fun o r => <[prefix +:+ idf r := JObj (group r)]> o) initial records.

Definition stackReplacements_getEditInitialValue (note : Note) : JsObject :=
  fill_groups "stack_group_" sr_identifier replacement_group
    {[ "workorder_id" := JStr (text_or_empty (workorder_id note)) ]}
    (parseStackReplacements (stack_replacements note)).

Definition stackInspection_getEditInitialValue (note : Note) : JsObject :=
  fill_groups "stack_group_inspection_" si_identifier inspection_group ∅
    (parseStackInspections (stack_inspections note)).

Definition stackTensioning_getEditInitialValue (note : Note) : JsObject :=
  fill_groups "stack_group_tensioning_" st_identifier tensioning_group ∅
    (parseStackTensioning (stack_tensioning note)).

Definition stackInstalls_getEditInitialValue (note : Note) : JsObject :=
  fill_groups "stack_group_installs_" sn_identifier install_group ∅
    (parseStackInstalls (stack_installs note)).

(* ================================================================== *)
(** ** Component helpers (service-logbook component)                   *)
(* ================================================================== *)

Module Component.

(** [haystack.includes(needle)] *)
Fixpoint includes (needle haystack : string) : bool :=
  if String.prefix needle haystack then true
  else match haystack with
       | EmptyString => false
       | String _ rest => includes needle rest
       end.

(** [getStackCount()], for the name of the agent or asset the component
    holds ([string | null]). *)
Definition getStackCount (agentOrAssetName : Nullable string) : Z :=
  match agentOrAssetName with
  | Val name =>
      if negb (JsString.truthy name) then 5
      else if includes "EX425D" name then 1
      else if includes "EX2125D" name then 5
      else 5
  | Undefined | Null => 5
  end.

(** [getFormHelpers(isEdit)] *)
Definition getFormHelpers (agentOrAssetName : Nullable string) (isEdit : bool)
    : CategoryFormHelpers :=
  Build_CategoryFormHelpers (getStackCount agentOrAssetName) isEdit.

(** [n.note_category === c] *)
Definition has_category (n : Note) (c : string) : bool :=
  match note_category n with
  | Val s => String.eqb s c
  | Undefined | Null => false
  end.

(** Truthiness of a [string | null | undefined] field. *)
Definition text_truthy (t : Nullable string) : bool :=
  match t with
  | Val s => JsString.truthy s
  | Undefined | Null => false
  end.

(** [n.performed_on || n.created_on] *)
Definition note_date (n : Note) : Z :=
  match performed_on n with
  | Val millis => if (millis =? 0)%Z then created_on n else millis
  | Undefined | Null => created_on n
  end.

(** [relevantNotes.sort((a, b) => dateB - dateA)]: [Array.prototype.sort]
    is stable, and with this comparator it orders by descending date; the
    embedding is the stable insertion sort. *)
Fixpoint insert_by_date (n : Note) (sorted : list Note) : list Note :=
  match sorted with
  | [] => [n]
  | m :: rest =>
      if (note_date m <=? note_date n)%Z then n :: m :: rest
      else m :: insert_by_date n rest
  end.

Definition sort_by_date_desc (l : list Note) : list Note :=
  foldr insert_by_date [] l.

(** The two locals the loops of [getLatestStackSerialNumbers] update. *)
Record Scan : Type := {
  neededIdentifiers : gset string;
  serialNumbers : gmap string string
}.

(** [if (needed.has(id) && serial) { serials.set(id, serial); needed.delete(id) }] *)
Definition take_serial (st : Scan) (identifier serial : string) : Scan :=
  if bool_decide (identifier ∈ neededIdentifiers st) && JsString.truthy serial
  then {| neededIdentifiers := neededIdentifiers st ∖ {[ identifier ]};
          serialNumbers := <[identifier := serial]> (serialNumbers st) |}
  else st.

(** The body of the loop over the notes, after the [break] test. *)
Definition scan_note (st : Scan) (note : Note) : Scan :=
  if has_category note "Stack installs" && text_truthy (stack_installs note) then
    foldl (fun st install =>
             take_serial st (sn_identifier install) (sn_serial_number install))
          st (parseStackInstalls (stack_installs note))
  else if has_category note "Stack replacements"
          && text_truthy (stack_replacements note) then
    foldl (fun st replacement =>
             take_serial st (sr_identifier replacement)
                         (sr_added_serial_number replacement))
          st (parseStackReplacements (stack_replacements note))
  else st.

(** [for (const note of relevantNotes) { if (needed.size === 0) break; .. }] *)
Fixpoint scan_notes (st : Scan) (relevantNotes : list Note) : Scan :=
  match relevantNotes with
  | [] => st
  | note :: rest =>
      if Nat.eqb (size (neededIdentifiers st)) 0 then st
      else scan_notes (scan_note st note) rest
  end.

Definition is_relevant (n : Note) : bool :=
  has_category n "Stack installs" || has_category n "Stack replacements".

Definition getLatestStackSerialNumbers (agentOrAssetName : Nullable string)
    (allNotes : list Note) : gmap string string :=
  let relevantNotes := List.filter is_relevant allNotes in
  match relevantNotes with
  | [] => ∅
  | _ :: _ =>
      let sorted := sort_by_date_desc relevantNotes in
      let stackCount := getStackCount agentOrAssetName in
      let allStackIdentifiers := ["a"; "b"; "c"; "d"; "e"] in
      let needed : gset string :=
        list_to_set (slice_to stackCount allStackIdentifiers) in
      serialNumbers
        (scan_notes {| neededIdentifiers := needed; serialNumbers := ∅ |} sorted)
  end.

(** The notes the list shows ([filteredNotesWithHtml]).  The test of
    the search query reads the user dictionary and the rendered HTML of a
    note, which are outside the embedding: it is a parameter. *)
Section Filtering.
Variable matches_query : string -> Note -> bool.

Definition filteredNotes (isPlugPowerUser : bool) (searchQuery : Nullable string)
    (selectedCategoryId : option Z) (notes : list Note) : list Note :=
  let result := notes in
  let result :=
    if negb isPlugPowerUser then
      List.filter (fun note => match external_note note with
                               | Val true => true
                               | _ => false
                               end) result
    else result in
  let result :=
    match selectedCategoryId with
    | Some id =>
        List.filter (fun note => match category note with
                                 | Val c => (c =? id)%Z
                                 | _ => false
                                 end) result
    | None => result
    end in
  match searchQuery with
  | Val query =>
      if JsString.truthy query then List.filter (matches_query query) result
      else result
  | Undefined | Null => result
  end.
End Filtering.

End Component.

(* ================================================================== *)
(** ** Form inputs (category-registry.ts, form handlers)                *)
(* ================================================================== *)

(** [ComponentInput], without labels, placeholders, descriptions,
    options, the required flag and the item type of a list: the key, the
    type, the default value when the literal gives one, and the children
    of a group.  The
    [getFormInputs] of a category takes the helpers; what the callback
    [helpers.getLatestSerials()] returns is the parameter [latestSerials]
    of the two categories that call it. *)
Inductive InputType : Type :=
  GroupInput | StringInput | SelectionInput | CheckboxInput
| ListInput | DateTimeInput | RichTextInput.

Inductive ComponentInput : Type :=
| Input (key : string) (type : InputType) (defaultValue : option JsVal)
        (children : list ComponentInput).

Definition input_key (i : ComponentInput) : string :=
  match i with Input key _ _ _ => key end.

Definition input_type (i : ComponentInput) : InputType :=
  match i with Input _ type _ _ => type end.

Definition input_default (i : ComponentInput) : option JsVal :=
  match i with Input _ _ defaultValue _ => defaultValue end.

Definition input_children (i : ComponentInput) : list ComponentInput :=
  match i with Input _ _ _ children => children end.

Definition buildStackGroupInputs (prefix : string) (identifiers : list string)
    (children : string -> list ComponentInput) : list ComponentInput :=
  map (fun id => Input (prefix +:+ "_" +:+ id) GroupInput None (children id))
      identifiers.

(** [helpers.isEdit ? new Map() : helpers.getLatestSerials()] *)
Definition prefillSerials (helpers : CategoryFormHelpers)
    (latestSerials : gmap string string) : gmap string string :=
  if isEdit helpers then ∅ else latestSerials.

(** [prefillSerials.get(id)], or the empty string when that is falsy. *)
Definition prefill_default (prefill : gmap string string) (id : string) : JsVal :=
  match prefill !! id with
  | Some serial => if JsString.truthy serial then JStr serial else JStr EmptyString
  | None => JStr EmptyString
  end.

Definition stackReplacements_getFormInputs (helpers : CategoryFormHelpers)
    : list ComponentInput :=
  let ids := getStackIdentifiers (getStackCount helpers) in
  Input "workorder_id" StringInput None []
  :: buildStackGroupInputs "stack_group" ids
       (fun id =>
          [ Input ("removed_serial_number_" +:+ id) StringInput None [];
            Input ("added_serial_number_" +:+ id) StringInput None [];
            Input ("stack_symptom_" +:+ id) SelectionInput None [];
            Input ("stack_symptom_confirmed_" +:+ id) CheckboxInput
                  (Some (JBool false)) [] ]).

Definition stackInspection_getFormInputs (helpers : CategoryFormHelpers)
    (latestSerials : gmap string string) : list ComponentInput :=
  let ids := getStackIdentifiers (getStackCount helpers) in
  let prefill := prefillSerials helpers latestSerials in
  buildStackGroupInputs "stack_group_inspection" ids
    (fun id =>
       [ Input ("stack_serial_number_" +:+ id) StringInput
               (Some (prefill_default prefill id)) [];
         Input ("insight_" +:+ id) StringInput None [];
         Input ("stack_completed_" +:+ id) CheckboxInput (Some (JBool false)) [] ]).

Definition stackTensioning_getFormInputs (helpers : CategoryFormHelpers)
    (latestSerials : gmap string string) : list ComponentInput :=
  let ids := getStackIdentifiers (getStackCount helpers) in
  let prefill := prefillSerials helpers latestSerials in
  buildStackGroupInputs "stack_group_tensioning" ids
    (fun id =>
       [ Input ("stack_serial_number_" +:+ id) StringInput
               (Some (prefill_default prefill id)) [];
         Input ("insight_" +:+ id) StringInput None [];
         Input ("stack_completed_" +:+ id) CheckboxInput (Some (JBool false)) [] ]).

Definition stackInstalls_getFormInputs (helpers : CategoryFormHelpers)
    : list ComponentInput :=
  let ids := getStackIdentifiers (getStackCount helpers) in
  buildStackGroupInputs "stack_group_installs" ids
    (fun id => [ Input ("stack_serial_number_" +:+ id) StringInput None [] ]).

Definition calibration_getFormInputs : list ComponentInput :=
  [ Input "tag_numbers" ListInput None [] ].

Definition softwareUpdate_getFormInputs : list ComponentInput :=
  [ Input "software_type" SelectionInput None [];
    Input "version" StringInput None [] ].

Definition settingsChange_getFormInputs : list ComponentInput :=
  [ Input "tag_numbers" ListInput None [] ].

(** The [getFormInputs] member of a configuration.  The record
    [CategoryConfig] leaves this member out; the eight configurations
    have eight different values, by which they are told apart here
    ("Other" has no inputs). *)
Definition getFormInputs (c : CategoryConfig) (helpers : CategoryFormHelpers)
    (latestSerials : gmap string string) : list ComponentInput :=
  if String.eqb (value c) "Calibration" then calibration_getFormInputs
  else if String.eqb (value c) "Software update" then softwareUpdate_getFormInputs
  else if String.eqb (value c) "Settings change" then settingsChange_getFormInputs
  else if String.eqb (value c) "Stack replacements"
       then stackReplacements_getFormInputs helpers
  else if String.eqb (value c) "Stack inspection"
       then stackInspection_getFormInputs helpers latestSerials
  else if String.eqb (value c) "Stack tensioning"
       then stackTensioning_getFormInputs helpers latestSerials
  else if String.eqb (value c) "Stack installs"
       then stackInstalls_getFormInputs helpers
  else [].

(** [buildCommonInputs(category, isPlugPowerUser)]: the description, the
    only member that depends on the category, is left out. *)
Definition buildCommonInputs (category : JsVal) (isPlugPowerUser : bool)
    : list ComponentInput :=
  Input "text" RichTextInput None []
  :: (if isPlugPowerUser
      then [ Input "external_note" CheckboxInput (Some (JBool false)) [] ]
      else []).

(** [buildFullInputs(category, helpers, isPlugPowerUser)] *)
Definition buildFullInputs (category : JsVal) (helpers : CategoryFormHelpers)
    (latestSerials : gmap string string) (isPlugPowerUser : bool)
    : list ComponentInput :=
  ([ Input "performed_on" DateTimeInput None [] ]
   ++ match getCategoryConfig category with
      | Some c => getFormInputs c helpers latestSerials
      | None => []
      end
   ++ buildCommonInputs category isPlugPowerUser)%list.

(* ================================================================== *)
(** ** Vocabulary of the properties                                    *)
(* ================================================================== *)

Definition quote_free (s : string) : Prop := JsString.has_char QUOTE s = false.
Definition semicolon_free (s : string) : Prop :=
  JsString.has_char SEMICOLON s = false.

(** An identifier drawn from a..e. *)
Definition is_stack_identifier (s : string) : Prop := In s ALL_STACK_IDENTIFIERS.

(** The free-text fields of each sub-record shape. *)
Definition replacement_texts (r : StackReplacement) : list string :=
  [sr_removed_serial_number r; sr_added_serial_number r; sr_stack_symptom r].
Definition inspection_texts (i : StackInspection) : list string :=
  [si_serial_number i; si_insight i].
Definition tensioning_texts (t : StackTensioning) : list string :=
  [st_serial_number t; st_insight t].
Definition install_texts (i : StackInstall) : list string :=
  [sn_serial_number i].

(** An identifier the tuple patterns accept and [split] leaves whole. *)
Definition plain_identifier (s : string) : Prop :=
  JsString.truthy s = true /\ quote_free s /\ semicolon_free s.

(** A segment is a piece between two separators. *)
Definition is_segment (s : string) : Prop := semicolon_free s.

(** The test of the first [filter] of the parsers: [r.trim()] is truthy. *)
Definition nonblank (r : string) : bool := JsString.truthy (JsString.trim r).

(** Well-formed lists as the round-trip property words them: identifiers
    drawn from a..e and unique, no field value containing a single quote.
    [id] and [texts] give the identifier and the free-text fields of a
    sub-record. *)
Definition well_formed_as_stated {A : Type} (id : A -> string)
    (texts : A -> list string) (L : list A) : Prop :=
  Forall (fun r => is_stack_identifier (id r) /\ Forall quote_free (texts r)) L
  /\ List.NoDup (map id L).

(** ... and, in addition, no field value containing a semicolon. *)
Definition well_formed {A : Type} (id : A -> string)
    (texts : A -> list string) (L : list A) : Prop :=
  well_formed_as_stated id texts L
  /\ Forall (fun r => Forall semicolon_free (texts r)) L.

(** A well-formed sub-record on its own. *)
Definition well_formed_record {A : Type} (id : A -> string)
    (texts : A -> list string) (r : A) : Prop :=
  plain_identifier (id r)
  /\ Forall quote_free (texts r) /\ Forall semicolon_free (texts r).

(** The old three-field tuple of the inspection format. *)
Definition legacy_tuple (id serial insight : string) : string :=
  "('" +:+ id +:+ "','" +:+ serial +:+ "','" +:+ insight +:+ "')".

(** What the serialization of a category yields for a form: nothing
    for a category that is not registered. *)
Definition serialized_by (category : JsVal) (form : JsObject)
    (helpers : CategoryFormHelpers) : Outcome JsObject :=
  match getCategoryConfig category with
  | Some c => serializeFormValue c form helpers
  | None => Ok ∅
  end.

(** The patches a trace hands to the persistence collaborator. *)
Definition persisted (e : Event) : option JsObject :=
  match e with
  | NotesAdd noteData => Some noteData
  | NotesEdit _ patch => Some patch
  | _ => None
  end.

Definition persisted_patches (events : list Event) : list JsObject :=
  omap persisted events.

(** Text fields without a single quote and without a semicolon. *)
Definition clean_texts {A : Type} (texts : A -> list string) (items : list A) : Prop :=
  Forall (fun r => Forall quote_free (texts r) /\ Forall semicolon_free (texts r))
         items.

(** The identifier and serial number pairs a note offers to
    [getLatestStackSerialNumbers], in the order its loops visit them. *)
Definition serial_candidates (note : Note) : list (string * string) :=
  if Component.has_category note "Stack installs"
     && Component.text_truthy (stack_installs note) then
    map (fun i => (sn_identifier i, sn_serial_number i))
        (parseStackInstalls (stack_installs note))
  else if Component.has_category note "Stack replacements"
          && Component.text_truthy (stack_replacements note) then
    map (fun r => (sr_identifier r, sr_added_serial_number r))
        (parseStackReplacements (stack_replacements note))
  else [].

(** The first non-empty serial number that a list of pairs has for an
    identifier. *)
Fixpoint first_serial (k : string) (pairs : list (string * string))
    : option string :=
  match pairs with
  | [] => None
  | (identifier, serial) :: rest =>
      if String.eqb identifier k && JsString.truthy serial then Some serial
      else first_serial k rest
  end.

(** What ties the two locals of [getLatestStackSerialNumbers] together:
    an identifier is still needed exactly when it is one of the requested
    identifiers and has no serial number yet. *)
Definition scan_inv (ids : gset string) (st : Component.Scan) : Prop :=
  forall k, k ∈ Component.neededIdentifiers st
            <-> k ∈ ids /\ Component.serialNumbers st !! k = None.

(** Descending by date. *)
Definition by_date_desc (a b : Note) : Prop :=
  (Component.note_date b <= Component.note_date a)%Z.

(** Two form values agree on every input a schema offers inside a
    group: the values the extractors would read there are the same. *)
Definition agree_on_inputs (inputs : list ComponentInput)
    (form1 form2 : JsObject) : Prop :=
  forall g c, In g inputs -> In c (input_children g) ->
    Js.get_prop (group_of form1 (input_key g)) (input_key c)
    = Js.get_prop (group_of form2 (input_key g)) (input_key c).

(** A category-owned field: a field of the note that the serialization
    of some registered category yields for some form. *)
Definition category_owned (field : string) : Prop :=
  exists (c : CategoryConfig) (form : JsObject) (helpers : CategoryFormHelpers)
         (fields : JsObject),
    In c CATEGORY_CONFIGS
    /\ serializeFormValue c form helpers = Ok fields
    /\ fields !! field <> None.

(* ================================================================== *)
(** ** Sample data                                                     *)
(* ================================================================== *)

Definition sample_replacements : list StackReplacement :=
  [ {| sr_identifier := "a"; sr_removed_serial_number := "SN-1";
       sr_added_serial_number := "SN-2"; sr_stack_symptom := "H2 leak";
       sr_stack_symptom_confirmed := true |};
    {| sr_identifier := "c"; sr_removed_serial_number := EmptyString;
       sr_added_serial_number := "SN-9"; sr_stack_symptom := EmptyString;
       sr_stack_symptom_confirmed := false |} ].

Definition sample_inspections : list StackInspection :=
  [ {| si_identifier := "b"; si_serial_number := "SN-3";
       si_insight := "no damage (visual)"; si_completed := true |};
    {| si_identifier := "a"; si_serial_number := EmptyString;
       si_insight := "pending"; si_completed := false |} ].

Definition sample_tensionings : list StackTensioning :=
  [ {| st_identifier := "e"; st_serial_number := "SN-4";
       st_insight := EmptyString; st_completed := true |} ].

Definition sample_installs : list StackInstall :=
  [ {| sn_identifier := "a"; sn_serial_number := "SN-5" |};
    {| sn_identifier := "b"; sn_serial_number := "SN-6" |};
    {| sn_identifier := "d"; sn_serial_number := EmptyString |} ].

(** A list that is well formed in the sense of the round-trip property as
    it is stated (the identifier is "a", no single quote anywhere), with a
    semicolon in a field value. *)
Definition semicolon_inspections : list StackInspection :=
  [ {| si_identifier := "a"; si_serial_number := "SN-1";
       si_insight := "cracked; replace"; si_completed := true |} ].

(** A Stack installs form for three stacks: the serial of stack a is
    filled, the group of stack b is blank, stack c has no group at all. *)
Definition installs_form : JsObject :=
  <["stack_group_installs_a" := JObj {[ "stack_serial_number_a" := JStr "SN-5" ]}]>
  {[ "stack_group_installs_b" := JObj {[ "stack_serial_number_b" := JStr EmptyString ]} ]}.

(** [(c) => ({ value: c.value, label: c.label })] *)
Definition option_of_config (c : CategoryConfig) : CategoryOption :=
  {| opt_value := value c; opt_label := label c |}.

(** The two entries with which the Add and the Recategorize flow start
    their patch. *)
Definition initial_patch (newCategory : JsVal) (form : JsObject)
    (isPlugPowerUser : bool) : JsObject :=
  <["note_category" := newCategory]>
  {[ "external_note" := external_note_of isPlugPowerUser form ]}.

Definition replaced_note : Note := {|
  _id := "note-17";
  subject := Null;
  text := "<p>stack A swapped</p>";
  created_on := 1700000000000%Z;
  category := Null;
  note_category := Val "Stack replacements";
  author_id := Val "u-1";
  author_name := Val "Technician";
  editor_id := Null;
  editor_name := Null;
  updated_on := Null;
  performed_on := Val 1700000000000%Z;
  tag_numbers := Null;
  version := Null;
  software_type := Null;
  external_note := Val false;
  stack_replacements := Val "('a','SN-1','SN-2','H2 leak','true');";
  workorder_id := Val "WO-002527";
  stack_inspections := Null;
  stack_installs := Null;
  stack_tensioning := Null
|}.

Definition other_note : Note := {|
  _id := "note-3";
  subject := Null;
  text := "<p>visit</p>";
  created_on := 1700000000000%Z;
  category := Null;
  note_category := Val "Other";
  author_id := Null;
  author_name := Null;
  editor_id := Null;
  editor_name := Null;
  updated_on := Null;
  performed_on := Null;
  tag_numbers := Null;
  version := Null;
  software_type := Null;
  external_note := Null;
  stack_replacements := Undefined;
  workorder_id := Null;
  stack_inspections := Undefined;
  stack_installs := Undefined;
  stack_tensioning := Undefined
|}.

Definition installs_note : Note := {|
  _id := "note-8";
  subject := Null;
  text := "<p>new stacks</p>";
  created_on := 1700000000000%Z;
  category := Null;
  note_category := Val "Stack installs";
  author_id := Null;
  author_name := Null;
  editor_id := Null;
  editor_name := Null;
  updated_on := Null;
  performed_on := Null;
  tag_numbers := Null;
  version := Null;
  software_type := Null;
  external_note := Null;
  stack_replacements := Undefined;
  workorder_id := Null;
  stack_inspections := Undefined;
  stack_installs := Val "('a','SN-5');";
  stack_tensioning := Undefined
|}.

(** An inspection note stored in the old three-field format. *)
Definition legacy_inspection_note : Note := {|
  _id := "note-2";
  subject := Null;
  text := "<p>inspection</p>";
  created_on := 1600000000000%Z;
  category := Null;
  note_category := Val "Stack inspection";
  author_id := Null;
  author_name := Null;
  editor_id := Null;
  editor_name := Null;
  updated_on := Null;
  performed_on := Null;
  tag_numbers := Null;
  version := Null;
  software_type := Null;
  external_note := Null;
  stack_replacements := Undefined;
  workorder_id := Null;
  stack_inspections := Val "('b','SN-7','hairline crack');";
  stack_installs := Undefined;
  stack_tensioning := Undefined
|}.

(** A later install note: stack a gets a new serial number, the entry
    of stack b is blank. *)
Definition later_installs_note : Note := {|
  _id := "note-21";
  subject := Null;
  text := "<p>stack A again</p>";
  created_on := 1710000000000%Z;
  category := Null;
  note_category := Val "Stack installs";
  author_id := Null;
  author_name := Null;
  editor_id := Null;
  editor_name := Null;
  updated_on := Null;
  performed_on := Null;
  tag_numbers := Null;
  version := Null;
  software_type := Null;
  external_note := Val true;
  stack_replacements := Undefined;
  workorder_id := Null;
  stack_inspections := Undefined;
  stack_installs := Val "('a','SN-9');('b','');";
  stack_tensioning := Undefined
|}.

Definition three_stacks : CategoryFormHelpers :=
  {| getStackCount := 3; isEdit := false |}.

(** A parser of instants that rejects everything but one text. *)
Definition toy_fromISO (v : JsVal) : option Z :=
  match v with
  | JStr s => if String.eqb s "2024-05-01T10:00:00.000Z" then Some 1714557600000%Z
              else None
  | _ => None
  end.

Definition unparseable_date_form : JsObject :=
  <["performed_on" := JStr "next tuesday"]> {[ "text" := JStr "<p>visit</p>" ]}.

Definition calibration_form : JsObject :=
  <["performed_on" := JStr "2024-05-01T10:00:00.000Z"]>
  (<["tag_numbers" := JArr [JObj {[ "tag_number" := JStr "PT-101" ]};
                            JObj {[ "tag_number" := JStr "TT-204" ]}]]>
  (<["external_note" := JBool true]> {[ "text" := JStr "<p>recalibrated</p>" ]})).

(** A Stack installs form in which every serial is blank. *)
Definition installs_blank_form : JsObject :=
  <["stack_group_installs_a" := JObj {[ "stack_serial_number_a" := JStr EmptyString ]}]>
  {[ "text" := JStr "<p>nothing yet</p>" ]}.

Definition software_update_form : JsObject :=
  <["software_type" := JStr "PLC software"]>
  (<["version" := JStr "v2.1.0"]> {[ "text" := JStr "<p>ok</p>" ]}).

Definition stray_tags_form : JsObject :=
  <["tag_numbers" := JArr [JStr "PT-101"]]> {[ "text" := JStr "<p>misc</p>" ]}.

(** A form whose external_note checkbox is submitted unchecked. *)
Definition unchecked_external_form : JsObject :=
  <["external_note" := JBool false]> {[ "text" := JStr "<p>internal</p>" ]}.

(** A blank Stack installs form that carries a tag list with a null item. *)
Definition null_tag_installs_form : JsObject :=
  <["tag_numbers" := JArr [JNull]]> installs_blank_form.

(* ================================================================== *)
(** * Properties                                                       *)
(* ================================================================== *)

(** ** Strings *)

#[local] Arguments String.append : simpl nomatch.

Section StringFacts.
Import JsString.

Lemma app_assoc (a b c : string) : (a +:+ b) +:+ c = a +:+ (b +:+ c).
Proof. induction a as [|x a IH]; simpl; [reflexivity | now rewrite IH]. Qed.

Lemma app_nil_r (a : string) : a +:+ EmptyString = a.
Proof. induction a as [|x a IH]; simpl; [reflexivity | now rewrite IH]. Qed.

Lemma has_char_app c (a b : string) :
  has_char c (a +:+ b) = has_char c a || has_char c b.
Proof.
  induction a as [|x a IH]; simpl; [reflexivity|].
  destruct (Ascii.eqb x c); [reflexivity | exact IH].
Qed.

Lemma count_char_app c (a b : string) :
  count_char c (a +:+ b) = count_char c a + count_char c b.
Proof. induction a as [|x a IH]; simpl; [reflexivity | rewrite IH; lia]. Qed.

Lemma count_char_absent c (a : string) :
  has_char c a = false -> count_char c a = 0.
Proof.
  induction a as [|x a IH]; simpl; [reflexivity|].
  destruct (Ascii.eqb x c); [discriminate | exact IH].
Qed.

Lemma truthy_app_char (a : string) c (b : string) :
  truthy (a +:+ String c b) = true.
Proof. destruct a; reflexivity. Qed.

Lemma trim_end_keeps c (s : string) :
  is_ws c = false -> truthy (trim_end (String c s)) = true.
Proof. intros Hc. simpl. destruct (trim_end s); [rewrite Hc|]; reflexivity. Qed.

Lemma trim_keeps c (s : string) :
  is_ws c = false -> truthy (trim (String c s)) = true.
Proof.
  intros Hc. unfold trim. simpl trim_start. rewrite Hc.
  now apply trim_end_keeps.
Qed.

Lemma split_app_sep sep (a b : string) :
  has_char sep a = false ->
  split sep (a +:+ String sep b) = a :: split sep b.
Proof.
  induction a as [|x a IH]; simpl; intros Ha.
  - now rewrite Ascii.eqb_refl.
  - destruct (Ascii.eqb x sep); [discriminate|].
    now rewrite (IH Ha).
Qed.

Lemma split_no_sep sep (a : string) :
  has_char sep a = false -> split sep a = [a].
Proof.
  induction a as [|x a IH]; simpl; intros Ha; [reflexivity|].
  destruct (Ascii.eqb x sep); [discriminate|].
  now rewrite (IH Ha).
Qed.

Lemma join_cons sep (x y : string) (l : list string) :
  join sep (x :: y :: l) = x +:+ sep +:+ join sep (y :: l).
Proof. reflexivity. Qed.

(** Splitting what [join] glued, with or without a closing separator. *)
Lemma split_join sep (x : string) (l : list string) :
  Forall (fun p => has_char sep p = false) (x :: l) ->
  split sep (join (String sep EmptyString) (x :: l)) = x :: l.
Proof.
  revert x; induction l as [|y l IH]; intros x Hall.
  - apply split_no_sep. now inversion Hall.
  - rewrite join_cons. inversion Hall as [|? ? Hx Hrest]; subst.
    change (String sep EmptyString +:+ join (String sep EmptyString) (y :: l))
      with (String sep (join (String sep EmptyString) (y :: l))).
    rewrite (split_app_sep _ _ _ Hx). now rewrite (IH y Hrest).
Qed.

Lemma split_join_closed sep (x : string) (l : list string) :
  Forall (fun p => has_char sep p = false) (x :: l) ->
  split sep (join (String sep EmptyString) (x :: l) +:+ String sep EmptyString)
  = ((x :: l) ++ [EmptyString])%list.
Proof.
  revert x; induction l as [|y l IH]; intros x Hall.
  - inversion Hall as [|? ? Hx _]; subst. simpl join.
    now rewrite (split_app_sep _ _ _ Hx).
  - rewrite join_cons. inversion Hall as [|? ? Hx Hrest]; subst.
    rewrite !app_assoc.
    change (String sep EmptyString
            +:+ join (String sep EmptyString) (y :: l) +:+ String sep EmptyString)
      with (String sep (join (String sep EmptyString) (y :: l)
                        +:+ String sep EmptyString)).
    rewrite (split_app_sep _ _ _ Hx). now rewrite (IH y Hrest).
Qed.

End StringFacts.

(** ** The matcher *)

Section RegexFacts.
Import JsString.

Lemma strip_prefix_app (p s : string) : strip_prefix p (p +:+ s) = Some s.
Proof.
  induction p as [|x p IH]; simpl; [reflexivity|].
  now rewrite Ascii.eqb_refl.
Qed.

Lemma strip_prefix_inv (p s rest : string) :
  strip_prefix p s = Some rest -> s = p +:+ rest.
Proof.
  revert s; induction p as [|x p IH]; intros s; simpl.
  - now intros [= ->].
  - destruct s as [|y s]; [discriminate|].
    destruct (Ascii.eqb_spec x y) as [->|]; [|discriminate].
    intros H. now rewrite (IH _ H).
Qed.

(** A group stops at the excluded character when the rest of the
    pattern matches from there. *)
Lemma greedy_star_field c k (f rest : string) caps :
  has_char c f = false ->
  k (String c rest) = Some caps ->
  greedy_star c k (f +:+ String c rest) = Some (f, caps).
Proof.
  intros Hf Hk. induction f as [|x f IH]; simpl in *.
  - unfold in_class. rewrite Ascii.eqb_refl. simpl. now rewrite Hk.
  - unfold in_class. destruct (Ascii.eqb x c); [discriminate|]. simpl.
    now rewrite (IH Hf).
Qed.

Lemma greedy_plus_field c k (f rest : string) caps :
  has_char c f = false ->
  truthy f = true ->
  k (String c rest) = Some caps ->
  greedy_plus c k (f +:+ String c rest) = Some (f, caps).
Proof.
  intros Hf Hne Hk. destruct f as [|x f]; [discriminate|]. simpl in *.
  unfold in_class. destruct (Ascii.eqb x c); [discriminate|]. simpl.
  now rewrite (greedy_star_field c k f rest caps Hf Hk).
Qed.

(** Whatever a group takes, the continuation ran on the rest. *)
Lemma greedy_star_inv c k (s g : string) caps :
  greedy_star c k s = Some (g, caps) ->
  exists rest, s = g +:+ rest /\ k rest = Some caps.
Proof.
  revert g; induction s as [|x s IH]; intros g; simpl.
  - destruct (k EmptyString) eqn:Hk; simpl; [|discriminate].
    intros [= <- <-]. now exists EmptyString.
  - assert (Hstop : option_map (fun caps0 => (EmptyString, caps0)) (k (String x s))
                    = Some (g, caps) ->
                    exists rest, String x s = g +:+ rest /\ k rest = Some caps).
    { destruct (k (String x s)) eqn:Hk; simpl; [|discriminate].
      intros [= <- <-]. now exists (String x s). }
    destruct (in_class c x); [|exact Hstop].
    destruct (greedy_star c k s) as [[g' caps']|] eqn:Hrec; [|exact Hstop].
    intros [= <- <-]. destruct (IH g' eq_refl) as (rest & -> & Hrest).
    now exists rest.
Qed.

Lemma greedy_plus_inv c k (s g : string) caps :
  greedy_plus c k s = Some (g, caps) ->
  exists rest, s = g +:+ rest /\ k rest = Some caps.
Proof.
  destruct s as [|x s]; simpl; [discriminate|].
  destruct (in_class c x); [|discriminate].
  destruct (greedy_star c k s) as [[g' caps']|] eqn:Hrec; [|discriminate].
  intros [= <- <-]. destruct (greedy_star_inv _ _ _ _ _ Hrec) as (rest & -> & Hr).
  now exists rest.
Qed.

Lemma match_lit lit p (rest : string) :
  match_here (Lit lit :: p) (lit +:+ rest) = match_here p rest.
Proof. simpl. now rewrite strip_prefix_app. Qed.

Lemma match_cap_star c lit' p (f rest : string) caps :
  has_char c f = false ->
  match_here p rest = Some caps ->
  match_here (Cap c Star :: Lit (String c lit') :: p)
             (f +:+ String c lit' +:+ rest) = Some (f :: caps).
Proof.
  intros Hf Hp.
  change (match_here (Cap c Star :: Lit (String c lit') :: p)
                     (f +:+ String c lit' +:+ rest))
    with (option_map (fun gc : string * list string => fst gc :: snd gc)
            (greedy_star c (match_here (Lit (String c lit') :: p))
               (f +:+ String c (lit' +:+ rest)))).
  rewrite (greedy_star_field c _ f (lit' +:+ rest) caps Hf); [reflexivity|].
  change (String c (lit' +:+ rest)) with (String c lit' +:+ rest).
  now rewrite match_lit.
Qed.

Lemma match_cap_plus c lit' p (f rest : string) caps :
  has_char c f = false ->
  truthy f = true ->
  match_here p rest = Some caps ->
  match_here (Cap c Plus :: Lit (String c lit') :: p)
             (f +:+ String c lit' +:+ rest) = Some (f :: caps).
Proof.
  intros Hf Hne Hp.
  change (match_here (Cap c Plus :: Lit (String c lit') :: p)
                     (f +:+ String c lit' +:+ rest))
    with (option_map (fun gc : string * list string => fst gc :: snd gc)
            (greedy_plus c (match_here (Lit (String c lit') :: p))
               (f +:+ String c (lit' +:+ rest)))).
  rewrite (greedy_plus_field c _ f (lit' +:+ rest) caps Hf Hne); [reflexivity|].
  change (String c (lit' +:+ rest)) with (String c lit' +:+ rest).
  now rewrite match_lit.
Qed.

Lemma js_match_here p (s : string) caps :
  match_here p s = Some caps -> js_match p s = Some caps.
Proof. intros H. destruct s; simpl; now rewrite H. Qed.

(** A match contains at least the characters its literals spell out. *)
Lemma match_here_count c p : forall (s : string) caps,
  match_here p s = Some caps -> literal_count c p <= count_char c s.
Proof.
  induction p as [|item p IH]; intros s caps; simpl; [lia|].
  destruct item as [lit|x [|]].
  - destruct (strip_prefix lit s) as [rest|] eqn:Hpre; [|discriminate].
    intros Hm. apply strip_prefix_inv in Hpre as ->.
    rewrite count_char_app. specialize (IH _ _ Hm). lia.
  - destruct (greedy_star x (match_here p) s) as [[g caps']|] eqn:Hg;
      [|discriminate].
    intros _. destruct (greedy_star_inv _ _ _ _ _ Hg) as (rest & -> & Hm).
    rewrite count_char_app. specialize (IH _ _ Hm). lia.
  - destruct (greedy_plus x (match_here p) s) as [[g caps']|] eqn:Hg;
      [|discriminate].
    intros _. destruct (greedy_plus_inv _ _ _ _ _ Hg) as (rest & -> & Hm).
    rewrite count_char_app. specialize (IH _ _ Hm). lia.
Qed.

Lemma js_match_count c p (s : string) caps :
  js_match p s = Some caps -> literal_count c p <= count_char c s.
Proof.
  induction s as [|x s IH]; simpl.
  - destruct (match_here p EmptyString) eqn:Hm; [|discriminate].
    intros _. exact (match_here_count c p _ _ Hm).
  - destruct (match_here p (String x s)) eqn:Hm.
    + intros _. exact (match_here_count c p _ _ Hm).
    + intros H. specialize (IH H). destruct (Ascii.eqb x c); lia.
Qed.

Lemma js_match_too_few c p (s : string) :
  count_char c s < literal_count c p -> js_match p s = None.
Proof.
  intros Hlt. destruct (js_match p s) eqn:Hm; [|reflexivity].
  apply (js_match_count c) in Hm. lia.
Qed.

End RegexFacts.

(** ** The codec *)

Section CodecFacts.
Import JsString.

Lemma match_cap_star_end c lit' (f : string) :
  has_char c f = false ->
  match_here [Cap c Star; Lit (String c lit')] (f +:+ String c lit') = Some [f].
Proof.
  intros Hf. rewrite <- (app_nil_r (String c lit')) at 2.
  now apply match_cap_star.
Qed.

Lemma match_cap_plus_end c lit' (f : string) :
  has_char c f = false ->
  truthy f = true ->
  match_here [Cap c Plus; Lit (String c lit')] (f +:+ String c lit') = Some [f].
Proof.
  intros Hf Hne. rewrite <- (app_nil_r (String c lit')) at 2.
  now apply match_cap_plus.
Qed.

Lemma bool_text_quote_free b : has_char QUOTE (bool_text b) = false.
Proof. now destruct b. Qed.

Lemma bool_text_truthy b : truthy (bool_text b) = true.
Proof. now destruct b. Qed.

Lemma stack_identifier_plain (id : string) :
  is_stack_identifier id -> plain_identifier id.
Proof.
  unfold is_stack_identifier, ALL_STACK_IDENTIFIERS. simpl.
  intros [<-|[<-|[<-|[<-|[<-|[]]]]]]; now repeat split.
Qed.

(** *** Each tuple is read back by its own pattern *)

Lemma replacement_tuple_read (r : StackReplacement) :
  truthy (sr_identifier r) = true ->
  quote_free (sr_identifier r) ->
  Forall quote_free (replacement_texts r) ->
  replacement_of_segment (replacement_tuple r) = Some r.
Proof.
  destruct r as [id f2 f3 f4 b]. unfold replacement_texts. simpl.
  intros Hne Hid Hq.
  inversion Hq as [|? ? H2 Hq']; subst.
  inversion Hq' as [|? ? H3 Hq'']; subst.
  inversion Hq'' as [|? ? H4 _]; subst.
  unfold replacement_of_segment, replacement_tuple.
  cbn [sr_identifier sr_removed_serial_number sr_added_serial_number
       sr_stack_symptom sr_stack_symptom_confirmed].
  rewrite (js_match_here REPLACEMENT_RE _ [id; f2; f3; f4; bool_text b]).
  - now destruct b.
  - unfold REPLACEMENT_RE. rewrite match_lit.
    apply match_cap_plus; [exact Hid | exact Hne |].
    apply match_cap_star; [exact H2 |].
    apply match_cap_star; [exact H3 |].
    apply match_cap_star; [exact H4 |].
    apply match_cap_plus_end; [apply bool_text_quote_free | apply bool_text_truthy].
Qed.

Lemma tuple4_read (id f2 f3 : string) b :
  truthy id = true -> quote_free id -> quote_free f2 -> quote_free f3 ->
  js_match TUPLE4_RE
    ("('" +:+ id +:+ "','" +:+ f2 +:+ "','" +:+ f3 +:+ "','"
     +:+ bool_text b +:+ "')")
  = Some [id; f2; f3; bool_text b].
Proof.
  intros Hne Hid H2 H3. apply js_match_here. unfold TUPLE4_RE.
  rewrite match_lit.
  apply match_cap_plus; [exact Hid | exact Hne |].
  apply match_cap_star; [exact H2 |].
  apply match_cap_star; [exact H3 |].
  apply match_cap_plus_end; [apply bool_text_quote_free | apply bool_text_truthy].
Qed.

Lemma inspection_tuple_read (i : StackInspection) :
  truthy (si_identifier i) = true ->
  quote_free (si_identifier i) ->
  Forall quote_free (inspection_texts i) ->
  inspection_of_segment (inspection_tuple i) = Some i.
Proof.
  destruct i as [id f2 f3 b]. unfold inspection_texts. simpl.
  intros Hne Hid Hq.
  inversion Hq as [|? ? H2 Hq']; subst. inversion Hq' as [|? ? H3 _]; subst.
  unfold inspection_of_segment, inspection_tuple.
  cbn [si_identifier si_serial_number si_insight si_completed].
  rewrite (tuple4_read id f2 f3 b Hne Hid H2 H3).
  now destruct b.
Qed.

Lemma tensioning_tuple_read (t : StackTensioning) :
  truthy (st_identifier t) = true ->
  quote_free (st_identifier t) ->
  Forall quote_free (tensioning_texts t) ->
  tensioning_of_segment (tensioning_tuple t) = Some t.
Proof.
  destruct t as [id f2 f3 b]. unfold tensioning_texts. simpl.
  intros Hne Hid Hq.
  inversion Hq as [|? ? H2 Hq']; subst. inversion Hq' as [|? ? H3 _]; subst.
  unfold tensioning_of_segment, tensioning_tuple.
  cbn [st_identifier st_serial_number st_insight st_completed].
  rewrite (tuple4_read id f2 f3 b Hne Hid H2 H3).
  now destruct b.
Qed.

Lemma install_tuple_read (i : StackInstall) :
  truthy (sn_identifier i) = true ->
  quote_free (sn_identifier i) ->
  Forall quote_free (install_texts i) ->
  install_of_segment (install_tuple i) = Some i.
Proof.
  destruct i as [id f2]. unfold install_texts. simpl.
  intros Hne Hid Hq. inversion Hq as [|? ? H2 _]; subst.
  unfold install_of_segment, install_tuple.
  cbn [sn_identifier sn_serial_number].
  rewrite (js_match_here TUPLE2_RE _ [id; f2]); [reflexivity|].
  unfold TUPLE2_RE. rewrite match_lit.
  apply match_cap_plus; [exact Hid | exact Hne |].
  now apply match_cap_star_end.
Qed.

(** *** The old three-field tuple *)

Lemma legacy_tuple_quotes (id serial insight : string) :
  quote_free id -> quote_free serial -> quote_free insight ->
  count_char QUOTE (legacy_tuple id serial insight) = 6.
Proof.
  intros Hid Hs Hi. unfold legacy_tuple.
  rewrite !count_char_app.
  rewrite (count_char_absent _ _ Hid), (count_char_absent _ _ Hs),
          (count_char_absent _ _ Hi).
  reflexivity.
Qed.

Lemma legacy_tuple_not_tuple4 (id serial insight : string) :
  quote_free id -> quote_free serial -> quote_free insight ->
  js_match TUPLE4_RE (legacy_tuple id serial insight) = None.
Proof.
  intros Hid Hs Hi. apply (js_match_too_few QUOTE).
  rewrite (legacy_tuple_quotes _ _ _ Hid Hs Hi). simpl. lia.
Qed.

Lemma legacy_tuple_tuple3 (id serial insight : string) :
  truthy id = true ->
  quote_free id -> quote_free serial -> quote_free insight ->
  js_match TUPLE3_RE (legacy_tuple id serial insight) = Some [id; serial; insight].
Proof.
  intros Hne Hid Hs Hi. apply js_match_here. unfold TUPLE3_RE, legacy_tuple.
  rewrite match_lit.
  apply match_cap_plus; [exact Hid | exact Hne |].
  apply match_cap_star; [exact Hs |].
  now apply match_cap_star_end.
Qed.

(** *** Segments *)

Lemma segments_serialized {A : Type} (tuple : A -> string) (items : list A) :
  Forall (fun i => semicolon_free (tuple i)) items ->
  segments (serialize_with tuple items) = List.filter nonblank (map tuple items).
Proof.
  intros Hall. unfold segments, serialize_with.
  destruct items as [|x items]; [reflexivity|].
  change (map tuple (x :: items)) with (tuple x :: map tuple items).
  change ";" with (String SEMICOLON EmptyString).
  rewrite split_join_closed.
  - rewrite List.filter_app. simpl List.filter at 2. apply List.app_nil_r.
  - change (tuple x :: map tuple items) with (map tuple (x :: items)).
    apply Forall_map. exact Hall.
Qed.

Lemma tuple_nonblank (s : string) : nonblank ("('" +:+ s) = true.
Proof.
  change (nonblank ("('" +:+ s))
    with (truthy (trim (String "("%char (String "'"%char s)))).
  now apply trim_keeps.
Qed.

Lemma parse_serialize {A : Type} (tuple : A -> string)
    (of_segment : string -> option A) (items : list A) :
  Forall (fun i => semicolon_free (tuple i) /\ nonblank (tuple i) = true
                   /\ of_segment (tuple i) = Some i) items ->
  parse_with of_segment (Val (serialize_with tuple items)) = items.
Proof.
  intros Hall. unfold parse_with.
  assert (Htruthy : truthy (serialize_with tuple items) = true)
    by (unfold serialize_with; apply truthy_app_char).
  rewrite Htruthy. clear Htruthy. rewrite segments_serialized.
  - induction Hall as [|i items (_ & Hnb & Hread) _ IH]; [reflexivity|].
    cbn [map List.filter]. rewrite Hnb.
    change (omap of_segment (tuple i :: List.filter nonblank (map tuple items)))
      with (match of_segment (tuple i) with
            | Some y => y :: omap of_segment (List.filter nonblank (map tuple items))
            | None => omap of_segment (List.filter nonblank (map tuple items))
            end).
    rewrite Hread. now rewrite IH.
  - induction Hall as [|i items (Hsemi & _) _ IH]; constructor; assumption.
Qed.

Lemma omap_singleton {A B : Type} (f : A -> option B) (a : A) :
  omap f [a] = match f a with Some y => [y] | None => [] end.
Proof. reflexivity. Qed.

Lemma parse_two {A : Type} (of_segment : string -> option A) (a b : string) :
  semicolon_free a -> semicolon_free b ->
  parse_with of_segment (Val (a +:+ ";" +:+ b))
  = omap of_segment (List.filter nonblank [a; b]).
Proof.
  intros Ha Hb. unfold parse_with.
  change (a +:+ ";" +:+ b) with (a +:+ String SEMICOLON b).
  rewrite truthy_app_char. unfold segments.
  rewrite (split_app_sep _ _ _ Ha), (split_no_sep _ _ Hb). reflexivity.
Qed.

Lemma parse_one {A : Type} (of_segment : string -> option A) (a : string) :
  semicolon_free a -> nonblank a = true ->
  parse_with of_segment (Val a) = omap of_segment [a]
  /\ parse_with of_segment (Val (a +:+ ";")) = omap of_segment [a].
Proof.
  intros Ha Hnb. split; unfold parse_with.
  - assert (Ht : truthy a = true) by (destruct a; [discriminate | reflexivity]).
    rewrite Ht. unfold segments. rewrite (split_no_sep _ _ Ha).
    simpl. fold (nonblank a). now rewrite Hnb.
  - change (a +:+ ";") with (a +:+ String SEMICOLON EmptyString).
    rewrite truthy_app_char. unfold segments.
    rewrite (split_app_sep _ _ _ Ha). simpl. fold (nonblank a). now rewrite Hnb.
Qed.

(** One tuple and one segment the pattern rejects, in either order. *)
Lemma parse_tuple_and_garbage {A : Type} (of_segment : string -> option A)
    (t g : string) (r : A) :
  semicolon_free t -> nonblank t = true -> of_segment t = Some r ->
  is_segment g -> of_segment g = None ->
  parse_with of_segment (Val (t +:+ ";" +:+ g)) = [r]
  /\ parse_with of_segment (Val (g +:+ ";" +:+ t)) = [r].
Proof.
  intros Ht Hnb Hread Hg Hnone.
  rewrite (parse_two _ t g Ht Hg), (parse_two _ g t Hg Ht).
  simpl. rewrite Hnb.
  destruct (nonblank g); simpl; rewrite ?Hread, ?Hnone; simpl;
    rewrite ?Hread; split; reflexivity.
Qed.

(** *** The tuples of well-formed sub-records are segments *)

Ltac texts_inv H :=
  repeat match type of H with
         | Forall _ (_ :: _) =>
             let Hx := fresh "Hx" in
             let Hr := fresh "Hr" in
             inversion H as [|? ? Hx Hr]; subst; clear H; rename Hr into H
         end.

Lemma replacement_tuple_segment (r : StackReplacement) :
  semicolon_free (sr_identifier r) ->
  Forall semicolon_free (replacement_texts r) ->
  semicolon_free (replacement_tuple r).
Proof.
  destruct r as [id f2 f3 f4 b]. unfold replacement_texts, replacement_tuple.
  cbn [sr_identifier sr_removed_serial_number sr_added_serial_number
       sr_stack_symptom sr_stack_symptom_confirmed].
  intros Hid H. texts_inv H. unfold semicolon_free in *.
  rewrite !has_char_app, Hid, Hx, Hx0, Hx1. now destruct b.
Qed.

Lemma inspection_tuple_segment (i : StackInspection) :
  semicolon_free (si_identifier i) ->
  Forall semicolon_free (inspection_texts i) ->
  semicolon_free (inspection_tuple i).
Proof.
  destruct i as [id f2 f3 b]. unfold inspection_texts, inspection_tuple.
  cbn [si_identifier si_serial_number si_insight si_completed].
  intros Hid H. texts_inv H. unfold semicolon_free in *.
  rewrite !has_char_app, Hid, Hx, Hx0. now destruct b.
Qed.

Lemma tensioning_tuple_segment (t : StackTensioning) :
  semicolon_free (st_identifier t) ->
  Forall semicolon_free (tensioning_texts t) ->
  semicolon_free (tensioning_tuple t).
Proof.
  destruct t as [id f2 f3 b]. unfold tensioning_texts, tensioning_tuple.
  cbn [st_identifier st_serial_number st_insight st_completed].
  intros Hid H. texts_inv H. unfold semicolon_free in *.
  rewrite !has_char_app, Hid, Hx, Hx0. now destruct b.
Qed.

Lemma install_tuple_segment (i : StackInstall) :
  semicolon_free (sn_identifier i) ->
  Forall semicolon_free (install_texts i) ->
  semicolon_free (install_tuple i).
Proof.
  destruct i as [id f2]. unfold install_texts, install_tuple.
  cbn [sn_identifier sn_serial_number].
  intros Hid H. texts_inv H. unfold semicolon_free in *.
  now rewrite !has_char_app, Hid, Hx.
Qed.

Lemma legacy_tuple_segment (id serial insight : string) :
  semicolon_free id -> semicolon_free serial -> semicolon_free insight ->
  semicolon_free (legacy_tuple id serial insight).
Proof.
  unfold semicolon_free, legacy_tuple. intros Hid Hs Hi.
  now rewrite !has_char_app, Hid, Hs, Hi.
Qed.

(** *** Round trip of a list whose tuples are read back *)

Lemma roundtrip_with {A : Type} (id : A -> string) (texts : A -> list string)
    (tuple : A -> string) (of_segment : string -> option A) :
  (forall r, well_formed_record id texts r ->
             semicolon_free (tuple r) /\ nonblank (tuple r) = true
             /\ of_segment (tuple r) = Some r) ->
  forall L, well_formed id texts L ->
            parse_with of_segment (Val (serialize_with tuple L)) = L.
Proof.
  intros Hrec L [[Hstated _] Hsemi]. apply parse_serialize.
  induction Hstated as [|r L [Hid Hq] _ IH]; [constructor|].
  inversion Hsemi as [|? ? Hs Hsemi']; subst.
  constructor; [|now apply IH].
  apply Hrec. split; [now apply stack_identifier_plain | now split].
Qed.

Lemma replacement_record_ok (r : StackReplacement) :
  well_formed_record sr_identifier replacement_texts r ->
  semicolon_free (replacement_tuple r) /\ nonblank (replacement_tuple r) = true
  /\ replacement_of_segment (replacement_tuple r) = Some r.
Proof.
  intros ((Hne & Hq & Hs) & Hqs & Hss). repeat split.
  - now apply replacement_tuple_segment.
  - apply tuple_nonblank.
  - now apply replacement_tuple_read.
Qed.

Lemma inspection_record_ok (i : StackInspection) :
  well_formed_record si_identifier inspection_texts i ->
  semicolon_free (inspection_tuple i) /\ nonblank (inspection_tuple i) = true
  /\ inspection_of_segment (inspection_tuple i) = Some i.
Proof.
  intros ((Hne & Hq & Hs) & Hqs & Hss). repeat split.
  - now apply inspection_tuple_segment.
  - apply tuple_nonblank.
  - now apply inspection_tuple_read.
Qed.

Lemma tensioning_record_ok (t : StackTensioning) :
  well_formed_record st_identifier tensioning_texts t ->
  semicolon_free (tensioning_tuple t) /\ nonblank (tensioning_tuple t) = true
  /\ tensioning_of_segment (tensioning_tuple t) = Some t.
Proof.
  intros ((Hne & Hq & Hs) & Hqs & Hss). repeat split.
  - now apply tensioning_tuple_segment.
  - apply tuple_nonblank.
  - now apply tensioning_tuple_read.
Qed.

Lemma install_record_ok (i : StackInstall) :
  well_formed_record sn_identifier install_texts i ->
  semicolon_free (install_tuple i) /\ nonblank (install_tuple i) = true
  /\ install_of_segment (install_tuple i) = Some i.
Proof.
  intros ((Hne & Hq & Hs) & Hqs & Hss). repeat split.
  - now apply install_tuple_segment.
  - apply tuple_nonblank.
  - now apply install_tuple_read.
Qed.

End CodecFacts.

(** ** Claims about the codec *)

Ltac concrete_well_formed :=
  repeat match goal with
         | |- _ /\ _ => split
         | |- Forall _ [] => constructor
         | |- Forall _ (_ :: _) => constructor
         | |- Forall _ (replacement_texts _) => unfold replacement_texts; simpl
         | |- Forall _ (inspection_texts _) => unfold inspection_texts; simpl
         | |- Forall _ (tensioning_texts _) => unfold tensioning_texts; simpl
         | |- Forall _ (install_texts _) => unfold install_texts; simpl
         | |- List.NoDup _ => simpl; repeat constructor; simpl; intuition discriminate
         | |- is_stack_identifier _ => unfold is_stack_identifier; simpl; tauto
         | |- quote_free _ => reflexivity
         | |- semicolon_free _ => reflexivity
         | |- is_segment _ => reflexivity
         | |- JsString.truthy _ = true => reflexivity
         | |- well_formed _ _ _ => unfold well_formed
         | |- well_formed_as_stated _ _ _ => unfold well_formed_as_stated
         | |- well_formed_record _ _ _ => unfold well_formed_record
         | |- plain_identifier _ => unfold plain_identifier
         end.

(** C1, as amended.  For every sub-record shape and every list of
    sub-records whose identifiers are unique and drawn from a..e and
    whose field values contain neither a single quote nor a semicolon,
    decoding the string produced by the shape's serializer returns the
    same list, in the same order. *)
Theorem codec_round_trip :
  (forall L, well_formed sr_identifier replacement_texts L ->
             parseStackReplacements (Val (serializeStackReplacements L)) = L)
  /\ (forall L, well_formed si_identifier inspection_texts L ->
                parseStackInspections (Val (serializeStackInspections L)) = L)
  /\ (forall L, well_formed st_identifier tensioning_texts L ->
                parseStackTensioning (Val (serializeStackTensioning L)) = L)
  /\ (forall L, well_formed sn_identifier install_texts L ->
                parseStackInstalls (Val (serializeStackInstalls L)) = L).
Proof.
  repeat split; intros L HL.
  - exact (roundtrip_with _ _ _ _ replacement_record_ok L HL).
  - exact (roundtrip_with _ _ _ _ inspection_record_ok L HL).
  - exact (roundtrip_with _ _ _ _ tensioning_record_ok L HL).
  - exact (roundtrip_with _ _ _ _ install_record_ok L HL).
Qed.

Lemma codec_round_trip_witness :
  (well_formed sr_identifier replacement_texts sample_replacements
   /\ parseStackReplacements (Val (serializeStackReplacements sample_replacements))
      = sample_replacements)
  /\ (well_formed si_identifier inspection_texts sample_inspections
      /\ parseStackInspections (Val (serializeStackInspections sample_inspections))
         = sample_inspections)
  /\ (well_formed st_identifier tensioning_texts sample_tensionings
      /\ parseStackTensioning (Val (serializeStackTensioning sample_tensionings))
         = sample_tensionings)
  /\ (well_formed sn_identifier install_texts sample_installs
      /\ parseStackInstalls (Val (serializeStackInstalls sample_installs))
         = sample_installs).
Proof.
  destruct codec_round_trip as (Hr & Hi & Ht & Hn).
  split; [|split; [|split]].
  - split; [|apply Hr]; unfold sample_replacements; concrete_well_formed.
  - split; [|apply Hi]; unfold sample_inspections; concrete_well_formed.
  - split; [|apply Ht]; unfold sample_tensionings; concrete_well_formed.
  - split; [|apply Hn]; unfold sample_installs; concrete_well_formed.
Defined.

(** C1, counterexample.  The list above is well formed as stated, but its
    encoding decodes to the empty list: [split] cuts the tuple at the
    semicolon of the insight and neither piece matches a pattern. *)
Lemma codec_round_trip_counterexample :
  well_formed_as_stated si_identifier inspection_texts semicolon_inspections
  /\ parseStackInspections (Val (serializeStackInspections semicolon_inspections))
     = []
  /\ parseStackInspections (Val (serializeStackInspections semicolon_inspections))
     <> semicolon_inspections.
Proof.
  split; [unfold semicolon_inspections; concrete_well_formed|].
  split; [vm_compute; reflexivity | vm_compute; discriminate].
Qed.

(** C2, the divergence.  For the Inspection shape, a legacy three-field
    tuple segment ('id','serial','insight') decodes to one sub-record with
    that identifier, serial number and insight and with completed = false:
    the four-field pattern does not match it and the parser falls back to
    the three-field pattern.  For the Tensioning shape it does not: the
    Tensioning parser, otherwise the twin of the Inspection parser, lacks
    the fallback to the three-field pattern, and a legacy segment decodes
    to no sub-record at all. *)
Theorem legacy_tuple_decoding (id serial insight : string) :
  plain_identifier id ->
  quote_free serial -> quote_free insight ->
  semicolon_free serial -> semicolon_free insight ->
  let legacy := legacy_tuple id serial insight in
  let record := {| si_identifier := id; si_serial_number := serial;
                   si_insight := insight; si_completed := false |} in
  js_match TUPLE4_RE legacy = None
  /\ inspection_of_segment legacy = Some record
  /\ parseStackInspections (Val legacy) = [record]
  /\ parseStackInspections (Val (legacy +:+ ";")) = [record]
  /\ tensioning_of_segment legacy = None
  /\ parseStackTensioning (Val legacy) = []
  /\ parseStackTensioning (Val (legacy +:+ ";")) = [].
Proof.
  intros (Hne & Hqid & Hsid) Hqs Hqi Hss Hsi legacy record.
  assert (H4 : js_match TUPLE4_RE legacy = None)
    by now apply legacy_tuple_not_tuple4.
  assert (H3 : js_match TUPLE3_RE legacy = Some [id; serial; insight])
    by now apply legacy_tuple_tuple3.
  assert (Hinsp : inspection_of_segment legacy = Some record)
    by (unfold inspection_of_segment; now rewrite H4, H3).
  assert (Htens : tensioning_of_segment legacy = None)
    by (unfold tensioning_of_segment; now rewrite H4).
  assert (Hseg : semicolon_free legacy) by now apply legacy_tuple_segment.
  assert (Hnb : nonblank legacy = true) by apply tuple_nonblank.
  destruct (parse_one inspection_of_segment legacy Hseg Hnb) as [Hi1 Hi2].
  destruct (parse_one tensioning_of_segment legacy Hseg Hnb) as [Ht1 Ht2].
  unfold parseStackInspections, parseStackTensioning.
  rewrite Hi1, Hi2, Ht1, Ht2, !omap_singleton, Hinsp, Htens.
  repeat split; assumption.
Qed.

Lemma legacy_tuple_decoding_witness :
  parseStackInspections (Val "('b','SN-7','hairline crack');")
  = [ {| si_identifier := "b"; si_serial_number := "SN-7";
         si_insight := "hairline crack"; si_completed := false |} ]
  /\ parseStackTensioning (Val "('b','SN-7','hairline crack');") = [].
Proof.
  assert (H := legacy_tuple_decoding "b" "SN-7" "hairline crack").
  simpl in H.
  destruct H as (_ & _ & _ & Hi & _ & _ & Ht); try reflexivity.
  - unfold plain_identifier. repeat split; reflexivity.
  - split; [exact Hi | exact Ht].
Defined.

(** A failing input of the Tensioning parser: it does not decode a legacy
    three-field tuple to a sub-record with completed = false, it returns
    the empty list. *)
Example legacy_tensioning_dropped :
  parseStackTensioning (Val "('a','SN-1','retorqued');") = []
  /\ parseStackTensioning (Val "('a','SN-1','retorqued');")
     <> [ {| st_identifier := "a"; st_serial_number := "SN-1";
             st_insight := "retorqued"; st_completed := false |} ].
Proof. split; [vm_compute; reflexivity | vm_compute; discriminate]. Qed.

(** C7.  For every shape, a list string made of the tuple of one
    well-formed sub-record and one segment that the shape's patterns do
    not match, joined by a semicolon in either order, decodes to exactly
    that sub-record: the other segment is dropped, parsing goes on, and
    the parser returns a list (it has no error result). *)
Theorem malformed_segment_tolerance :
  (forall r g,
      well_formed_record sr_identifier replacement_texts r ->
      is_segment g -> replacement_of_segment g = None ->
      parseStackReplacements (Val (replacement_tuple r +:+ ";" +:+ g)) = [r]
      /\ parseStackReplacements (Val (g +:+ ";" +:+ replacement_tuple r)) = [r])
  /\ (forall i g,
      well_formed_record si_identifier inspection_texts i ->
      is_segment g -> inspection_of_segment g = None ->
      parseStackInspections (Val (inspection_tuple i +:+ ";" +:+ g)) = [i]
      /\ parseStackInspections (Val (g +:+ ";" +:+ inspection_tuple i)) = [i])
  /\ (forall t g,
      well_formed_record st_identifier tensioning_texts t ->
      is_segment g -> tensioning_of_segment g = None ->
      parseStackTensioning (Val (tensioning_tuple t +:+ ";" +:+ g)) = [t]
      /\ parseStackTensioning (Val (g +:+ ";" +:+ tensioning_tuple t)) = [t])
  /\ (forall i g,
      well_formed_record sn_identifier install_texts i ->
      is_segment g -> install_of_segment g = None ->
      parseStackInstalls (Val (install_tuple i +:+ ";" +:+ g)) = [i]
      /\ parseStackInstalls (Val (g +:+ ";" +:+ install_tuple i)) = [i]).
Proof.
  split; [|split; [|split]]; intros r g Hwf Hg Hnone.
  - destruct (replacement_record_ok r Hwf) as (Hs & Hnb & Hread).
    now apply parse_tuple_and_garbage.
  - destruct (inspection_record_ok r Hwf) as (Hs & Hnb & Hread).
    now apply parse_tuple_and_garbage.
  - destruct (tensioning_record_ok r Hwf) as (Hs & Hnb & Hread).
    now apply parse_tuple_and_garbage.
  - destruct (install_record_ok r Hwf) as (Hs & Hnb & Hread).
    now apply parse_tuple_and_garbage.
Qed.

Lemma malformed_segment_tolerance_witness :
  parseStackReplacements (Val "('a','SN-1','SN-2','H2 leak','true');garbage")
  = [ {| sr_identifier := "a"; sr_removed_serial_number := "SN-1";
         sr_added_serial_number := "SN-2"; sr_stack_symptom := "H2 leak";
         sr_stack_symptom_confirmed := true |} ]
  /\ parseStackInspections (Val "('a','SN-1' 'ok');('b','SN-3','fine','false')")
     = [ {| si_identifier := "b"; si_serial_number := "SN-3";
            si_insight := "fine"; si_completed := false |} ]
  /\ parseStackTensioning (Val "('e','SN-4','','true');(e,SN-4)")
     = [ {| st_identifier := "e"; st_serial_number := "SN-4";
            st_insight := EmptyString; st_completed := true |} ]
  /\ parseStackInstalls (Val "   ;('a','SN-5')")
     = [ {| sn_identifier := "a"; sn_serial_number := "SN-5" |} ].
Proof.
  destruct malformed_segment_tolerance as (Hr & Hi & Ht & Hn).
  split; [|split; [|split]].
  - refine (proj1 (Hr {| sr_identifier := "a"; sr_removed_serial_number := "SN-1";
                         sr_added_serial_number := "SN-2";
                         sr_stack_symptom := "H2 leak";
                         sr_stack_symptom_confirmed := true |} "garbage" _ _ _));
      [concrete_well_formed | reflexivity | vm_compute; reflexivity].
  - refine (proj2 (Hi {| si_identifier := "b"; si_serial_number := "SN-3";
                         si_insight := "fine"; si_completed := false |}
                      "('a','SN-1' 'ok')" _ _ _));
      [concrete_well_formed | reflexivity | vm_compute; reflexivity].
  - refine (proj1 (Ht {| st_identifier := "e"; st_serial_number := "SN-4";
                         st_insight := EmptyString; st_completed := true |}
                      "(e,SN-4)" _ _ _));
      [concrete_well_formed | reflexivity | vm_compute; reflexivity].
  - refine (proj2 (Hn {| sn_identifier := "a"; sn_serial_number := "SN-5" |}
                      "   " _ _ _));
      [concrete_well_formed | reflexivity | vm_compute; reflexivity].
Defined.

(** ** Extraction and the registry *)

Section ExtractionFacts.

Lemma truthy_text_of (group : JsVal) (key : string) :
  Js.truthy (text_of group key) = Js.truthy (Js.get_prop group key).
Proof.
  unfold text_of, Js.or.
  destruct (Js.truthy (Js.get_prop group key)) eqn:H; [exact H | reflexivity].
Qed.

Lemma text_of_absent (group : JsVal) (key : string) :
  Js.get_prop group key = JUndefined ->
  Js.to_string (text_of group key) = EmptyString /\ flag_of group key = false.
Proof. unfold text_of, flag_of. now intros ->. Qed.

Lemma group_of_absent (form : JsObject) (key : string) :
  form !! key = None -> group_of form key = JObj ∅.
Proof. unfold group_of, Js.get. now intros ->. Qed.

Lemma getStackIdentifiers_NoDup (stackCount : Z) :
  List.NoDup (getStackIdentifiers stackCount).
Proof.
  unfold getStackIdentifiers, slice_to.
  generalize (Z.to_nat
    (if (stackCount <? 0)%Z
     then Z.max (Z.of_nat (length ALL_STACK_IDENTIFIERS) + stackCount) 0
     else Z.min stackCount (Z.of_nat (length ALL_STACK_IDENTIFIERS)))).
  intros k.
  do 6 (destruct k as [|k];
        [simpl; repeat constructor; simpl; intuition discriminate|]).
  simpl; repeat constructor; simpl; intuition discriminate.
Qed.

Section PerIdentifier.
Context {A : Type} (of_form : string -> option A) (idf : A -> string).
Hypothesis of_form_id : forall x r, of_form x = Some r -> idf r = x.

Lemma filter_omap_absent (l : list string) (id : string) :
  ~ In id l ->
  List.filter (fun r => String.eqb (idf r) id) (omap of_form l) = [].
Proof.
  induction l as [|x l IH]; intros Hnot; [reflexivity|].
  assert (Hx : x <> id) by (intros ->; apply Hnot; now left).
  assert (Hl : ~ In id l) by (intros H; apply Hnot; now right).
  change (omap of_form (x :: l))
    with (match of_form x with
          | Some y => y :: omap of_form l
          | None => omap of_form l
          end).
  destruct (of_form x) as [r|] eqn:Hr; [|now apply IH].
  simpl. rewrite (of_form_id _ _ Hr).
  destruct (String.eqb_spec x id); [contradiction | now apply IH].
Qed.

Lemma filter_omap_unique (l : list string) (id : string) :
  List.NoDup l -> In id l ->
  List.filter (fun r => String.eqb (idf r) id) (omap of_form l)
  = match of_form id with Some r => [r] | None => [] end.
Proof.
  induction l as [|x l IH]; intros Hnd Hin; [destruct Hin|].
  inversion Hnd as [|? ? Hx Hnd']; subst.
  change (omap of_form (x :: l))
    with (match of_form x with
          | Some y => y :: omap of_form l
          | None => omap of_form l
          end).
  destruct Hin as [->|Hin].
  - destruct (of_form id) as [r|] eqn:Hr.
    + simpl. rewrite (of_form_id _ _ Hr), String.eqb_refl.
      now rewrite (filter_omap_absent l id Hx).
    + now apply filter_omap_absent.
  - assert (Hne : x <> id) by (intros ->; contradiction).
    destruct (of_form x) as [r|] eqn:Hr; [|now apply IH].
    simpl. rewrite (of_form_id _ _ Hr).
    destruct (String.eqb_spec x id); [contradiction | now apply IH].
Qed.
End PerIdentifier.

Lemma replacement_of_form_id form x r :
  replacement_of_form form x = Some r -> sr_identifier r = x.
Proof.
  unfold replacement_of_form.
  destruct (_ || _); [|discriminate]. now intros [= <-].
Qed.

Lemma inspection_of_form_id form x r :
  inspection_of_form form x = Some r -> si_identifier r = x.
Proof.
  unfold inspection_of_form.
  destruct (_ || _); [|discriminate]. now intros [= <-].
Qed.

Lemma tensioning_of_form_id form x r :
  tensioning_of_form form x = Some r -> st_identifier r = x.
Proof.
  unfold tensioning_of_form.
  destruct (_ || _); [|discriminate]. now intros [= <-].
Qed.

Lemma install_of_form_id form x r :
  install_of_form form x = Some r -> sn_identifier r = x.
Proof.
  unfold install_of_form.
  destruct (Js.truthy _); [|discriminate]. now intros [= <-].
Qed.

End ExtractionFacts.

(** C8.  For every submitted form value and every active stack
    identifier, each extractor yields exactly one sub-record of that
    identifier when the identifier's group holds a truthy
    presence-determining field (Replacement: removed or added serial;
    Inspection, Tensioning: serial or insight; Install: serial) and none
    otherwise.  The extractors are total; a field absent from the group
    is read as the empty string (a flag as false) and an absent group as
    the empty group. *)
Theorem extraction_presence_rule (form : JsObject) (stackCount : Z) (id : string) :
  In id (getStackIdentifiers stackCount) ->
  (let group := group_of form ("stack_group_" +:+ id) in
   List.filter (fun r => String.eqb (sr_identifier r) id)
               (extractStackReplacementsFromForm form stackCount)
   = if Js.truthy (Js.get_prop group ("removed_serial_number_" +:+ id))
        || Js.truthy (Js.get_prop group ("added_serial_number_" +:+ id))
     then [ {| sr_identifier := id;
               sr_removed_serial_number :=
                 Js.to_string (text_of group ("removed_serial_number_" +:+ id));
               sr_added_serial_number :=
                 Js.to_string (text_of group ("added_serial_number_" +:+ id));
               sr_stack_symptom :=
                 Js.to_string (text_of group ("stack_symptom_" +:+ id));
               sr_stack_symptom_confirmed :=
                 flag_of group ("stack_symptom_confirmed_" +:+ id) |} ]
     else [])
  /\ (let group := group_of form ("stack_group_inspection_" +:+ id) in
      List.filter (fun r => String.eqb (si_identifier r) id)
                  (extractStackInspectionsFromForm form stackCount)
      = if Js.truthy (Js.get_prop group ("stack_serial_number_" +:+ id))
           || Js.truthy (Js.get_prop group ("insight_" +:+ id))
        then [ {| si_identifier := id;
                  si_serial_number :=
                    Js.to_string (text_of group ("stack_serial_number_" +:+ id));
                  si_insight := Js.to_string (text_of group ("insight_" +:+ id));
                  si_completed := flag_of group ("stack_completed_" +:+ id) |} ]
        else [])
  /\ (let group := group_of form ("stack_group_tensioning_" +:+ id) in
      List.filter (fun r => String.eqb (st_identifier r) id)
                  (extractStackTensioningFromForm form stackCount)
      = if Js.truthy (Js.get_prop group ("stack_serial_number_" +:+ id))
           || Js.truthy (Js.get_prop group ("insight_" +:+ id))
        then [ {| st_identifier := id;
                  st_serial_number :=
                    Js.to_string (text_of group ("stack_serial_number_" +:+ id));
                  st_insight := Js.to_string (text_of group ("insight_" +:+ id));
                  st_completed := flag_of group ("stack_completed_" +:+ id) |} ]
        else [])
  /\ (let group := group_of form ("stack_group_installs_" +:+ id) in
      List.filter (fun r => String.eqb (sn_identifier r) id)
                  (extractStackInstallsFromForm form stackCount)
      = if Js.truthy (Js.get_prop group ("stack_serial_number_" +:+ id))
        then [ {| sn_identifier := id;
                  sn_serial_number :=
                    Js.to_string (text_of group ("stack_serial_number_" +:+ id)) |} ]
        else [])
  /\ (forall group key,
         Js.get_prop group key = JUndefined ->
         Js.to_string (text_of group key) = EmptyString
         /\ flag_of group key = false)
  /\ (forall key, form !! key = None -> group_of form key = JObj ∅).
Proof.
  intros Hin. pose proof (getStackIdentifiers_NoDup stackCount) as Hnd.
  split; [|split; [|split; [|split; [|split]]]].
  - intros group.
    unfold extractStackReplacementsFromForm.
    rewrite (filter_omap_unique _ _ (replacement_of_form_id form) _ _ Hnd Hin).
    unfold replacement_of_form. fold group. rewrite !truthy_text_of.
    now destruct (_ || _).
  - intros group.
    unfold extractStackInspectionsFromForm.
    rewrite (filter_omap_unique _ _ (inspection_of_form_id form) _ _ Hnd Hin).
    unfold inspection_of_form. fold group. rewrite !truthy_text_of.
    now destruct (_ || _).
  - intros group.
    unfold extractStackTensioningFromForm.
    rewrite (filter_omap_unique _ _ (tensioning_of_form_id form) _ _ Hnd Hin).
    unfold tensioning_of_form. fold group. rewrite !truthy_text_of.
    now destruct (_ || _).
  - intros group.
    unfold extractStackInstallsFromForm.
    rewrite (filter_omap_unique _ _ (install_of_form_id form) _ _ Hnd Hin).
    unfold install_of_form. fold group. rewrite !truthy_text_of.
    now destruct (Js.truthy _).
  - exact text_of_absent.
  - exact (group_of_absent form).
Qed.

Lemma extraction_presence_rule_witness :
  In "a" (getStackIdentifiers 3)
  /\ List.filter (fun r => String.eqb (sn_identifier r) "a")
                 (extractStackInstallsFromForm installs_form 3)
     = [ {| sn_identifier := "a"; sn_serial_number := "SN-5" |} ]
  /\ List.filter (fun r => String.eqb (sn_identifier r) "b")
                 (extractStackInstallsFromForm installs_form 3) = []
  /\ List.filter (fun r => String.eqb (si_identifier r) "c")
                 (extractStackInspectionsFromForm installs_form 3) = [].
Proof.
  assert (Ha : In "a" (getStackIdentifiers 3)) by (simpl; tauto).
  assert (Hb : In "b" (getStackIdentifiers 3)) by (simpl; tauto).
  assert (Hc : In "c" (getStackIdentifiers 3)) by (simpl; tauto).
  split; [exact Ha|].
  destruct (extraction_presence_rule installs_form 3 "a" Ha)
    as (_ & _ & _ & Hna & _).
  destruct (extraction_presence_rule installs_form 3 "b" Hb)
    as (_ & _ & _ & Hnb & _).
  destruct (extraction_presence_rule installs_form 3 "c" Hc)
    as (_ & Hic & _).
  split; [exact Hna | split; [exact Hnb | exact Hic]].
Defined.

(** The serializers themselves are only called on non-empty lists; on
    the empty list they would yield a lone separator, which decodes to the
    empty list as well. *)
Example serializers_on_empty_list :
  serializeStackInstalls [] = ";"
  /\ serializeStackReplacements [] = ";"
  /\ parseStackInstalls (Val ";") = []
  /\ parseStackInstalls (Val EmptyString) = [].
Proof. repeat split; reflexivity. Qed.

(** C6.  For every stack category, serializing a submitted form whose
    extraction yields no sub-record stores null in the category's encoded
    field, and a null or absent encoded field decodes to the empty
    list. *)
Theorem empty_extraction_stores_null (form : JsObject) (helpers : CategoryFormHelpers) :
  (extractStackReplacementsFromForm form (getStackCount helpers) = [] ->
   exists fields, serializeFormValue stackReplacements form helpers = Ok fields
                  /\ fields !! "stack_replacements" = Some JNull)
  /\ (extractStackInspectionsFromForm form (getStackCount helpers) = [] ->
      exists fields, serializeFormValue stackInspection form helpers = Ok fields
                     /\ fields !! "stack_inspections" = Some JNull)
  /\ (extractStackTensioningFromForm form (getStackCount helpers) = [] ->
      exists fields, serializeFormValue stackTensioning form helpers = Ok fields
                     /\ fields !! "stack_tensioning" = Some JNull)
  /\ (extractStackInstallsFromForm form (getStackCount helpers) = [] ->
      exists fields, serializeFormValue stackInstalls form helpers = Ok fields
                     /\ fields !! "stack_installs" = Some JNull)
  /\ (parseStackReplacements Null = [] /\ parseStackReplacements Undefined = [])
  /\ (parseStackInspections Null = [] /\ parseStackInspections Undefined = [])
  /\ (parseStackTensioning Null = [] /\ parseStackTensioning Undefined = [])
  /\ (parseStackInstalls Null = [] /\ parseStackInstalls Undefined = []).
Proof.
  split; [|split; [|split; [|split]]].
  - intros H. eexists. split; [reflexivity|]. simpl. rewrite H.
    rewrite lookup_insert_ne by discriminate. apply lookup_singleton_eq.
  - intros H. eexists. split; [reflexivity|]. simpl. rewrite H.
    apply lookup_singleton_eq.
  - intros H. eexists. split; [reflexivity|]. simpl. rewrite H.
    apply lookup_singleton_eq.
  - intros H. eexists. split; [reflexivity|]. simpl. rewrite H.
    apply lookup_singleton_eq.
  - repeat split; reflexivity.
Qed.

Lemma empty_extraction_stores_null_witness :
  extractStackInstallsFromForm ∅ 5 = []
  /\ exists fields,
       serializeFormValue stackInstalls ∅ {| getStackCount := 5; isEdit := false |}
       = Ok fields
       /\ fields !! "stack_installs" = Some JNull.
Proof.
  assert (H : extractStackInstallsFromForm ∅ 5 = []) by (vm_compute; reflexivity).
  split; [exact H|].
  destruct (empty_extraction_stores_null ∅ {| getStackCount := 5; isEdit := false |})
    as (_ & _ & _ & Hn & _).
  exact (Hn H).
Defined.

(** C9.  With basic access [getCategoryOptions] returns, in registration
    order, exactly the registered categories whose [internalOnly] flag is
    false; with elevated access it returns all eight registered
    categories in registration order. *)
Theorem category_options_by_access :
  getCategoryOptions false
  = map option_of_config
        (List.filter (fun c => negb (internalOnly c)) CATEGORY_CONFIGS)
  /\ getCategoryOptions false
     = [ {| opt_value := "Calibration"; opt_label := "Calibration" |};
         {| opt_value := "Software update"; opt_label := "Software update" |};
         {| opt_value := "Settings change"; opt_label := "Settings change" |};
         {| opt_value := "Other"; opt_label := "Other" |} ]
  /\ getCategoryOptions true = map option_of_config CATEGORY_CONFIGS
  /\ getCategoryOptions true
     = [ {| opt_value := "Calibration"; opt_label := "Calibration" |};
         {| opt_value := "Software update"; opt_label := "Software update" |};
         {| opt_value := "Settings change"; opt_label := "Settings change" |};
         {| opt_value := "Stack replacements"; opt_label := "Stack replacements" |};
         {| opt_value := "Stack inspection"; opt_label := "Stack visual inspection" |};
         {| opt_value := "Stack tensioning"; opt_label := "Stack tensioning" |};
         {| opt_value := "Stack installs"; opt_label := "Stack installs" |};
         {| opt_value := "Other"; opt_label := "Other" |} ]
  /\ length (getCategoryOptions true) = 8.
Proof. repeat split; reflexivity. Qed.

(** ** The handlers *)

Section HandlerFacts.

Lemma assign_lookup (target source : JsObject) (k : string) :
  Js.assign target source !! k
  = match source !! k with Some v => Some v | None => target !! k end.
Proof.
  unfold Js.assign. rewrite lookup_union.
  destruct (source !! k), (target !! k); reflexivity.
Qed.

Lemma nullish_idem (v : JsVal) :
  Js.nullish (Js.nullish v JNull) JNull = Js.nullish v JNull.
Proof. now destruct v. Qed.

Lemma get_insert_eq (o : JsObject) (k : string) (v : JsVal) :
  Js.get (<[k := v]> o) k = v.
Proof. unfold Js.get. now rewrite lookup_insert_eq. Qed.

Lemma get_insert_ne (o : JsObject) (k k' : string) (v : JsVal) :
  k <> k' -> Js.get (<[k := v]> o) k' = Js.get o k'.
Proof. intros H. unfold Js.get. now rewrite lookup_insert_ne. Qed.

(** *** The registry *)

Lemma foldl_insert_lookup (l : list CategoryConfig)
    (m : gmap string CategoryConfig) (k : string) (c : CategoryConfig) :
  foldl (fun m c => <[value c := c]> m) m l !! k = Some c ->
  In c l \/ m !! k = Some c.
Proof.
  revert m; induction l as [|x l IH]; intros m; simpl; [now right|].
  intros H. destruct (IH _ H) as [Hin|Hm]; [now left; right|].
  destruct (decide (value x = k)) as [<-|Hne].
  - rewrite lookup_insert_eq in Hm. injection Hm as ->. now left; left.
  - rewrite lookup_insert_ne in Hm by exact Hne. now right.
Qed.

Lemma getCategoryConfig_registered (category : JsVal) (c : CategoryConfig) :
  getCategoryConfig category = Some c -> In c CATEGORY_CONFIGS.
Proof.
  unfold getCategoryConfig. destruct (Js.truthy category); [|discriminate].
  destruct category; try discriminate.
  intros H. apply foldl_insert_lookup in H as [H|H]; [exact H|].
  now rewrite lookup_empty in H.
Qed.

Lemma getCategoryConfig_truthy (category : JsVal) (c : CategoryConfig) :
  getCategoryConfig category = Some c -> Js.truthy category = true.
Proof.
  unfold getCategoryConfig. now destruct (Js.truthy category).
Qed.

Ltac owned_key H :=
  repeat (apply lookup_insert_Some in H as [[<- _]|[_ H]];
          [simpl; tauto|]);
  first [ apply lookup_singleton_Some in H as [<- _]; simpl; tauto
        | now rewrite lookup_empty in H ].

Lemma serialize_tag_numbers_keys (form fields : JsObject) (k : string) (v : JsVal) :
  serialize_tag_numbers form = Ok fields ->
  fields !! k = Some v -> k = "tag_numbers".
Proof.
  unfold serialize_tag_numbers.
  destruct (Js.get form "tag_numbers") as [| | | | | |items|];
    try (intros [= <-] H; now apply lookup_singleton_Some in H as [<- _]).
  destruct (mapM tag_of_item items); simpl; [|discriminate].
  intros [= <-] H. now apply lookup_singleton_Some in H as [<- _].
Qed.

(** A serialization only yields fields that recategorization resets. *)
Lemma serialized_keys (c : CategoryConfig) (form fields : JsObject)
    (helpers : CategoryFormHelpers) (k : string) (v : JsVal) :
  In c CATEGORY_CONFIGS ->
  serializeFormValue c form helpers = Ok fields ->
  fields !! k = Some v -> In k CLEARED_FIELDS.
Proof.
  unfold CATEGORY_CONFIGS. simpl.
  intros [<-|[<-|[<-|[<-|[<-|[<-|[<-|[<-|[]]]]]]]]]; simpl.
  - intros Hs H. rewrite (serialize_tag_numbers_keys _ _ _ _ Hs H). tauto.
  - intros [= <-] H. owned_key H.
  - intros Hs H. rewrite (serialize_tag_numbers_keys _ _ _ _ Hs H). tauto.
  - intros [= <-] H. owned_key H.
  - intros [= <-] H. owned_key H.
  - intros [= <-] H. owned_key H.
  - intros [= <-] H. owned_key H.
  - intros [= <-] H. owned_key H.
Qed.

Lemma serialized_by_keys (category : JsVal) (form fields : JsObject)
    (helpers : CategoryFormHelpers) (k : string) :
  serialized_by category form helpers = Ok fields ->
  ~ In k CLEARED_FIELDS -> fields !! k = None.
Proof.
  unfold serialized_by. intros Hs Hk.
  destruct (fields !! k) as [v|] eqn:Hf; [|reflexivity]. exfalso. apply Hk.
  destruct (getCategoryConfig category) as [c|] eqn:Hc.
  - exact (serialized_keys c form fields helpers k v
             (getCategoryConfig_registered _ _ Hc) Hs Hf).
  - injection Hs as <-. now rewrite lookup_empty in Hf.
Qed.

Lemma assign_serialized_by (category : JsVal) (target form : JsObject)
    (helpers : CategoryFormHelpers) :
  assign_serialized (getCategoryConfig category) target form helpers
  = (let* fields := serialized_by category form helpers in
     Ok (Js.assign target fields)).
Proof.
  unfold assign_serialized, serialized_by.
  destruct (getCategoryConfig category); [reflexivity|].
  simpl. unfold Js.assign. now rewrite (left_id_L ∅ (∪)).
Qed.

(** *** The steps that build a patch *)

Variable fromISO : JsVal -> option Z.

Lemma set_performed_on_if_valid_other (form target : JsObject) (k : string) :
  k <> "performed_on" ->
  set_performed_on_if_valid fromISO form target !! k = target !! k.
Proof.
  intros Hk. unfold set_performed_on_if_valid.
  destruct (Js.truthy _); [|reflexivity].
  destruct (fromISO _); [|reflexivity].
  now rewrite lookup_insert_ne.
Qed.

Lemma set_performed_on_other (form target : JsObject) (k : string) :
  k <> "performed_on" ->
  set_performed_on fromISO form target !! k = target !! k.
Proof.
  intros Hk. unfold set_performed_on.
  destruct (Js.truthy _); [|reflexivity].
  destruct (fromISO _); now rewrite lookup_insert_ne.
Qed.

Lemma transform_tag_numbers_other (src target result : JsObject) (k : string) :
  transform_tag_numbers src target = Ok result ->
  k <> "tag_numbers" -> result !! k = target !! k.
Proof.
  unfold transform_tag_numbers. intros H Hk.
  destruct (Js.get src "tag_numbers") as [| | | | | |items|];
    try (now injection H as <-).
  destruct (mapM tag_of_item items); simpl in H; [|discriminate].
  injection H as <-. now rewrite lookup_insert_ne.
Qed.

Lemma transform_tag_numbers_tags (src target result : JsObject) :
  transform_tag_numbers src target = Ok result ->
  match Js.get src "tag_numbers" with
  | JArr items => exists tags, mapM tag_of_item items = Ok tags
                               /\ result !! "tag_numbers" = Some (JArr tags)
  | _ => result !! "tag_numbers" = target !! "tag_numbers"
  end.
Proof.
  unfold transform_tag_numbers. intros H.
  destruct (Js.get src "tag_numbers") as [| | | | | |items|];
    try (now injection H as <-).
  destruct (mapM tag_of_item items) as [tags|]; simpl in H; [|discriminate].
  injection H as <-. exists tags. split; [reflexivity|].
  apply lookup_insert_eq.
Qed.

Lemma clear_fields_not_In (l : list string) (u : JsObject) (k : string) :
  ~ In k l -> foldl clear_field u l !! k = u !! k.
Proof.
  revert u; induction l as [|f l IH]; intros u Hk; simpl; [reflexivity|].
  rewrite IH by (intros H; apply Hk; now right).
  unfold clear_field. apply lookup_insert_ne.
  intros ->. apply Hk. now left.
Qed.

Lemma clear_fields_In (l : list string) (u : JsObject) (k : string) :
  In k l ->
  foldl clear_field u l !! k = Some (Js.nullish (Js.get u k) JNull).
Proof.
  revert u; induction l as [|f l IH]; intros u Hk; simpl; [destruct Hk|].
  destruct (in_dec string_dec k l) as [Hin|Hnot].
  - rewrite (IH _ Hin). f_equal. unfold clear_field.
    destruct (string_dec f k) as [->|Hne].
    + rewrite get_insert_eq. apply nullish_idem.
    + now rewrite get_insert_ne.
  - destruct Hk as [->|Hin]; [|contradiction].
    rewrite (clear_fields_not_In _ _ _ Hnot). unfold clear_field.
    apply lookup_insert_eq.
Qed.

Lemma mapM_tag_strings (tags : list string) :
  mapM tag_of_item (map JStr tags) = Ok (map JStr tags).
Proof. induction tags as [|t tags IH]; simpl; [reflexivity | now rewrite IH]. Qed.


Lemma set_text_other (form target : JsObject) (k : string) :
  k <> "text" -> set_text form target !! k = target !! k.
Proof.
  intros Hk. unfold set_text.
  destruct (Js.get form "text"); try reflexivity; now rewrite lookup_insert_ne.
Qed.

(** *** The patch of a recategorization, field by field *)

Lemma recategorize_patch_inv (newCategory : JsVal) (form patch : JsObject)
    (helpers : CategoryFormHelpers) (isPlugPowerUser : bool) :
  recategorize_patch fromISO newCategory form helpers isPlugPowerUser = Ok patch ->
  exists fields tagged,
    serialized_by newCategory form helpers = Ok fields
    /\ transform_tag_numbers form
         (set_performed_on_if_valid fromISO form
            (initial_patch newCategory form isPlugPowerUser)) = Ok tagged
    /\ patch = foldl clear_field (set_text form (Js.assign tagged fields))
                     CLEARED_FIELDS.
Proof.
  unfold recategorize_patch. fold (initial_patch newCategory form isPlugPowerUser).
  destruct (transform_tag_numbers form _) as [tagged|] eqn:Ht; simpl; [|discriminate].
  rewrite assign_serialized_by.
  destruct (serialized_by newCategory form helpers) as [fields|] eqn:Hs; simpl;
    [|discriminate].
  intros [= <-]. now exists fields, tagged.
Qed.

Lemma recategorize_patch_unowned (newCategory : JsVal) (form patch : JsObject)
    (helpers : CategoryFormHelpers) (isPlugPowerUser : bool) (k : string) :
  recategorize_patch fromISO newCategory form helpers isPlugPowerUser = Ok patch ->
  ~ In k CLEARED_FIELDS -> k <> "text" -> k <> "performed_on" ->
  patch !! k = initial_patch newCategory form isPlugPowerUser !! k.
Proof.
  intros H Hk Htext Hperf.
  destruct (recategorize_patch_inv _ _ _ _ _ H) as (fields & tagged & Hs & Ht & ->).
  rewrite (clear_fields_not_In _ _ _ Hk), (set_text_other _ _ _ Htext).
  rewrite assign_lookup, (serialized_by_keys _ _ _ _ _ Hs Hk).
  rewrite (transform_tag_numbers_other _ _ _ k Ht)
    by (intros ->; apply Hk; simpl; tauto).
  now apply set_performed_on_if_valid_other.
Qed.

Lemma recategorize_patch_owned (newCategory : JsVal) (form patch : JsObject)
    (helpers : CategoryFormHelpers) (isPlugPowerUser : bool) (k : string) :
  recategorize_patch fromISO newCategory form helpers isPlugPowerUser = Ok patch ->
  In k CLEARED_FIELDS ->
  exists fields tagged,
    serialized_by newCategory form helpers = Ok fields
    /\ transform_tag_numbers form
         (set_performed_on_if_valid fromISO form
            (initial_patch newCategory form isPlugPowerUser)) = Ok tagged
    /\ patch !! k
       = Some (Js.nullish
                 (match fields !! k with
                  | Some v => v
                  | None => Js.get tagged k
                  end) JNull).
Proof.
  intros H Hk.
  destruct (recategorize_patch_inv _ _ _ _ _ H) as (fields & tagged & Hs & Ht & ->).
  exists fields, tagged. split; [exact Hs|]. split; [exact Ht|].
  rewrite (clear_fields_In _ _ _ Hk). f_equal. f_equal.
  unfold Js.get at 1.
  rewrite set_text_other
    by (intros ->; simpl in Hk; intuition discriminate).
  rewrite assign_lookup. unfold Js.get.
  now destruct (fields !! k).
Qed.

Lemma initial_patch_owned (newCategory : JsVal) (form : JsObject)
    (isPlugPowerUser : bool) (k : string) :
  In k CLEARED_FIELDS ->
  set_performed_on_if_valid fromISO form
    (initial_patch newCategory form isPlugPowerUser) !! k = None.
Proof.
  intros Hk.
  rewrite set_performed_on_if_valid_other
    by (intros ->; simpl in Hk; intuition discriminate).
  unfold initial_patch.
  rewrite lookup_insert_ne by (intros <-; simpl in Hk; intuition discriminate).
  apply lookup_singleton_ne. intros <-; simpl in Hk; intuition discriminate.
Qed.

End HandlerFacts.

Section SubmissionFacts.
Variable fromISO : JsVal -> option Z.

Lemma validation_error_message (category : JsVal) (c : CategoryConfig)
    (check : JsObject -> CategoryFormHelpers -> option string)
    (form : JsObject) (helpers : CategoryFormHelpers) (message : string) :
  getCategoryConfig category = Some c ->
  validate c = Some check ->
  check form helpers = Some message ->
  JsString.truthy message = true ->
  validation_error (getCategoryConfig category) form helpers = Some message.
Proof.
  intros Hc Hv Hm Ht. unfold validation_error. now rewrite Hc, Hv, Hm, Ht.
Qed.

Lemma add_note_submit_persisted (category : JsVal) (form patch : JsObject)
    (helpers : CategoryFormHelpers) (isPlugPowerUser : bool)
    (events : list Event) (st' : AddState) :
  add_note_submit fromISO category form helpers isPlugPowerUser = Ok (events, st') ->
  In patch (persisted_patches events) ->
  add_note_data fromISO category form helpers isPlugPowerUser = Ok patch.
Proof.
  unfold add_note_submit.
  destruct (validation_error _ form helpers).
  - intros [= <- _] [].
  - destruct (add_note_data fromISO category form helpers isPlugPowerUser)
      as [noteData|]; simpl; [|discriminate].
    intros [= <- _] [<-|[]]. reflexivity.
Qed.

Lemma recategorize_submit_persisted (note : Note) (newCategory : JsVal)
    (form patch : JsObject) (helpers : CategoryFormHelpers)
    (isPlugPowerUser : bool) (events : list Event) (st' : RecategorizeState) :
  recategorize_submit fromISO note newCategory form helpers isPlugPowerUser
  = Ok (events, st') ->
  In patch (persisted_patches events) ->
  recategorize_patch fromISO newCategory form helpers isPlugPowerUser = Ok patch.
Proof.
  unfold recategorize_submit.
  destruct (validation_error _ form helpers).
  - intros [= <- _] [].
  - destruct (recategorize_patch fromISO newCategory form helpers isPlugPowerUser)
      as [updatedNote|]; simpl; [|discriminate].
    intros [= <- _] [<-|[]]. reflexivity.
Qed.

Lemma edit_submit_persisted (note : Note) (form patch : JsObject)
    (helpers : CategoryFormHelpers) (events : list Event) :
  edit_submit fromISO note helpers form = Ok events ->
  In patch (persisted_patches events) ->
  exists tagged fields,
    transform_tag_numbers
      (set_performed_on fromISO form (delete "performed_on" form))
      (set_performed_on fromISO form (delete "performed_on" form)) = Ok tagged
    /\ serialized_by (js_of_text (note_category note)) form
         {| getStackCount := getStackCount helpers; isEdit := true |} = Ok fields
    /\ patch = Js.assign tagged fields.
Proof.
  unfold edit_submit.
  destruct (transform_tag_numbers _ _) as [tagged|]; simpl; [|discriminate].
  destruct (validation_error _ form _).
  - intros [= <-] [].
  - rewrite assign_serialized_by.
    destruct (serialized_by _ form _) as [fields|]; simpl; [|discriminate].
    intros [= <-] [<-|[]]. now exists tagged, fields.
Qed.

Lemma add_note_data_inv (category : JsVal) (form patch : JsObject)
    (helpers : CategoryFormHelpers) (isPlugPowerUser : bool) :
  add_note_data fromISO category form helpers isPlugPowerUser = Ok patch ->
  exists fields,
    serialized_by category form helpers = Ok fields
    /\ patch = Js.assign
                 (set_performed_on_if_valid fromISO form
                    (Js.assign (initial_patch category form isPlugPowerUser)
                               fields))
                 (delete "external_note" (delete "performed_on" form)).
Proof.
  unfold add_note_data. fold (initial_patch category form isPlugPowerUser).
  rewrite assign_serialized_by.
  destruct (serialized_by category form helpers) as [fields|]; simpl;
    [|discriminate].
  intros [= <-]. now exists fields.
Qed.

(** *** The performed-on instant in the three flows *)

Lemma add_performed_on (category : JsVal) (form patch : JsObject)
    (helpers : CategoryFormHelpers) (isPlugPowerUser : bool) :
  add_note_data fromISO category form helpers isPlugPowerUser = Ok patch ->
  patch !! "performed_on"
  = if Js.truthy (Js.get form "performed_on")
    then JNum <$> fromISO (Js.get form "performed_on")
    else None.
Proof.
  intros H. destruct (add_note_data_inv _ _ _ _ _ H) as (fields & Hs & ->).
  rewrite assign_lookup, lookup_delete_ne, lookup_delete_eq by discriminate.
  unfold set_performed_on_if_valid.
  assert (Hbase : Js.assign (initial_patch category form isPlugPowerUser) fields
                  !! "performed_on" = None).
  { rewrite assign_lookup.
    rewrite (serialized_by_keys _ _ _ _ "performed_on" Hs)
      by (simpl; intuition discriminate).
    reflexivity. }
  destruct (Js.truthy _); [|exact Hbase].
  destruct (fromISO _); [apply lookup_insert_eq | exact Hbase].
Qed.

Lemma recategorize_performed_on (newCategory : JsVal) (form patch : JsObject)
    (helpers : CategoryFormHelpers) (isPlugPowerUser : bool) :
  recategorize_patch fromISO newCategory form helpers isPlugPowerUser = Ok patch ->
  patch !! "performed_on"
  = if Js.truthy (Js.get form "performed_on")
    then JNum <$> fromISO (Js.get form "performed_on")
    else None.
Proof.
  intros H.
  destruct (recategorize_patch_inv _ _ _ _ _ _ H) as (fields & tagged & Hs & Ht & ->).
  rewrite clear_fields_not_In by (simpl; intuition discriminate).
  rewrite set_text_other by discriminate.
  rewrite assign_lookup.
  rewrite (serialized_by_keys _ _ _ _ "performed_on" Hs)
    by (simpl; intuition discriminate).
  rewrite (transform_tag_numbers_other _ _ _ "performed_on" Ht) by discriminate.
  unfold set_performed_on_if_valid.
  destruct (Js.truthy _); [|reflexivity].
  destruct (fromISO _); [apply lookup_insert_eq | reflexivity].
Qed.

End SubmissionFacts.

(** ** Claims about the handlers *)

(** The Add scenario of a software update, end to end. *)
Example add_software_update_scenario :
  map (fun noteData => (noteData !! "note_category", noteData !! "software_type",
                        noteData !! "version", noteData !! "text"))
      (persisted_patches
         (fst (handleAddNote toy_fromISO three_stacks true 4
                 [Some {[ "category" := JStr "Software update" ]};
                  Some software_update_form])))
  = [(Some (JStr "Software update"), Some (JStr "PLC software"),
      Some (JStr "v2.1.0"), Some (JStr "<p>ok</p>"))]
  /\ snd (handleAddNote toy_fromISO three_stacks true 4
            [Some {[ "category" := JStr "Software update" ]};
             Some software_update_form])
     = Returned.
Proof. split; vm_compute; reflexivity. Qed.

(** A submission that persists hands exactly one patch over. *)
Lemma sole_patch {State : Type} (submitted : Outcome (list Event * State)) :
  match submitted with
  | Ok (events, _) => length (persisted_patches events)
  | Throw => 0
  end = 1 ->
  exists events st' patch,
    submitted = Ok (events, st') /\ In patch (persisted_patches events).
Proof.
  destruct submitted as [[events st']|]; [|discriminate].
  destruct (persisted_patches events) as [|patch rest] eqn:Hp; [discriminate|].
  intros _. exists events, st', patch. split; [reflexivity|].
  rewrite Hp. now left.
Qed.

(** C10.  In the Add and Recategorize flows every patch handed to
    persistence has external_note = true when the acting user lacks
    elevated access, whatever the form holds under external_note; with
    elevated access it has the submitted external_note value when the
    form holds one other than undefined and null (the checkbox value,
    true or false), and false when the form holds none, undefined or
    null. *)
Theorem external_note_by_access (fromISO : JsVal -> option Z) (note : Note)
    (category : JsVal) (form : JsObject) (helpers : CategoryFormHelpers)
    (isPlugPowerUser : bool) (patch : JsObject) :
  (forall events st',
      add_note_submit fromISO category form helpers isPlugPowerUser
      = Ok (events, st') ->
      In patch (persisted_patches events) ->
      (isPlugPowerUser = false -> patch !! "external_note" = Some (JBool true))
      /\ (isPlugPowerUser = true ->
          (forall v, form !! "external_note" = Some v ->
                     v <> JUndefined -> v <> JNull ->
                     patch !! "external_note" = Some v)
          /\ (forall b, form !! "external_note" = Some (JBool b) ->
                        patch !! "external_note" = Some (JBool b))
          /\ (form !! "external_note" = None
              \/ form !! "external_note" = Some JUndefined
              \/ form !! "external_note" = Some JNull ->
              patch !! "external_note" = Some (JBool false))))
  /\ (forall events st',
      recategorize_submit fromISO note category form helpers isPlugPowerUser
      = Ok (events, st') ->
      In patch (persisted_patches events) ->
      (isPlugPowerUser = false -> patch !! "external_note" = Some (JBool true))
      /\ (isPlugPowerUser = true ->
          (forall v, form !! "external_note" = Some v ->
                     v <> JUndefined -> v <> JNull ->
                     patch !! "external_note" = Some v)
          /\ (forall b, form !! "external_note" = Some (JBool b) ->
                        patch !! "external_note" = Some (JBool b))
          /\ (form !! "external_note" = None
              \/ form !! "external_note" = Some JUndefined
              \/ form !! "external_note" = Some JNull ->
              patch !! "external_note" = Some (JBool false)))).
Proof.
  assert (Hcases : forall p : JsObject,
             p !! "external_note"
             = Some (external_note_of isPlugPowerUser form) ->
             (isPlugPowerUser = false -> p !! "external_note" = Some (JBool true))
             /\ (isPlugPowerUser = true ->
                 (forall v, form !! "external_note" = Some v ->
                            v <> JUndefined -> v <> JNull ->
                            p !! "external_note" = Some v)
                 /\ (forall b, form !! "external_note" = Some (JBool b) ->
                               p !! "external_note" = Some (JBool b))
                 /\ (form !! "external_note" = None
                     \/ form !! "external_note" = Some JUndefined
                     \/ form !! "external_note" = Some JNull ->
                     p !! "external_note" = Some (JBool false)))).
  { intros p Hp. rewrite Hp. unfold external_note_of, Js.get.
    split; [now intros ->|]. intros ->. split; [|split].
    - intros v Hv Hu Hn. rewrite Hv. now destruct v.
    - intros b Hb. now rewrite Hb.
    - intros [H|[H|H]]; now rewrite H. }
  split; intros events st' Hsubmit Hin; apply Hcases.
  - pose proof (add_note_submit_persisted _ _ _ _ _ _ _ _ Hsubmit Hin) as Hdata.
    destruct (add_note_data_inv _ _ _ _ _ _ Hdata) as (fields & Hs & ->).
    rewrite assign_lookup, lookup_delete_eq.
    rewrite set_performed_on_if_valid_other by discriminate.
    rewrite assign_lookup.
    rewrite (serialized_by_keys _ _ _ _ "external_note" Hs)
      by (simpl; intuition discriminate).
    unfold initial_patch.
    rewrite lookup_insert_ne by discriminate.
    now rewrite lookup_singleton_eq.
  - pose proof (recategorize_submit_persisted _ _ _ _ _ _ _ _ _ Hsubmit Hin) as Hp.
    rewrite (recategorize_patch_unowned _ _ _ _ _ _ "external_note" Hp)
      by (simpl; intuition discriminate).
    unfold initial_patch.
    rewrite lookup_insert_ne by discriminate.
    now rewrite lookup_singleton_eq.
Qed.

Lemma external_note_by_access_witness :
  (exists events st' patch,
      add_note_submit toy_fromISO (JStr "Other") unchecked_external_form
                      three_stacks false = Ok (events, st')
      /\ In patch (persisted_patches events)
      /\ patch !! "external_note" = Some (JBool true))
  /\ (exists events st' patch,
      add_note_submit toy_fromISO (JStr "Software update") software_update_form
                      three_stacks true = Ok (events, st')
      /\ In patch (persisted_patches events)
      /\ patch !! "external_note" = Some (JBool false))
  /\ (exists events st' patch,
      recategorize_submit toy_fromISO replaced_note (JStr "Other")
                          unchecked_external_form three_stacks true
      = Ok (events, st')
      /\ In patch (persisted_patches events)
      /\ patch !! "external_note" = Some (JBool false))
  /\ (exists events st' patch,
      recategorize_submit toy_fromISO replaced_note (JStr "Calibration")
                          calibration_form three_stacks true = Ok (events, st')
      /\ In patch (persisted_patches events)
      /\ patch !! "external_note" = Some (JBool true)).
Proof.
  split; [|split; [|split]].
  - destruct (sole_patch
                (add_note_submit toy_fromISO (JStr "Other")
                   unchecked_external_form three_stacks false))
      as (events & st' & patch & Hs & Hin); [vm_compute; reflexivity|].
    exists events, st', patch. split; [exact Hs|]. split; [exact Hin|].
    exact (proj1 (proj1 (external_note_by_access toy_fromISO replaced_note
                           (JStr "Other") unchecked_external_form three_stacks
                           false patch) events st' Hs Hin) eq_refl).
  - destruct (sole_patch
                (add_note_submit toy_fromISO (JStr "Software update")
                   software_update_form three_stacks true))
      as (events & st' & patch & Hs & Hin); [vm_compute; reflexivity|].
    exists events, st', patch. split; [exact Hs|]. split; [exact Hin|].
    exact (proj2 (proj2 (proj2 (proj1 (external_note_by_access toy_fromISO
                                         replaced_note (JStr "Software update")
                                         software_update_form three_stacks true
                                         patch) events st' Hs Hin) eq_refl))
                 (or_introl eq_refl)).
  - destruct (sole_patch
                (recategorize_submit toy_fromISO replaced_note (JStr "Other")
                   unchecked_external_form three_stacks true))
      as (events & st' & patch & Hs & Hin); [vm_compute; reflexivity|].
    exists events, st', patch. split; [exact Hs|]. split; [exact Hin|].
    exact (proj1 (proj2 (proj2 (proj2 (external_note_by_access toy_fromISO
                                         replaced_note (JStr "Other")
                                         unchecked_external_form three_stacks true
                                         patch) events st' Hs Hin) eq_refl))
                 false eq_refl).
  - destruct (sole_patch
                (recategorize_submit toy_fromISO replaced_note (JStr "Calibration")
                   calibration_form three_stacks true))
      as (events & st' & patch & Hs & Hin); [vm_compute; reflexivity|].
    exists events, st', patch. split; [exact Hs|]. split; [exact Hin|].
    exact (proj1 (proj2 (proj2 (proj2 (external_note_by_access toy_fromISO
                                         replaced_note (JStr "Calibration")
                                         calibration_form three_stacks true
                                         patch) events st' Hs Hin) eq_refl))
                 true eq_refl).
Defined.

(** What a recategorization patch holds in the fields that the reset
    lines assign, for any form value: null where the serialization of the
    new category yields nothing, except that tag_numbers holds the mapped
    tag list of a form value that has a tag_numbers array. *)
Lemma recategorize_patch_fields (fromISO : JsVal -> option Z) (note : Note)
    (newCategory : JsVal) (form : JsObject) (helpers : CategoryFormHelpers)
    (isPlugPowerUser : bool) (events : list Event) (st' : RecategorizeState)
    (patch : JsObject) :
  recategorize_submit fromISO note newCategory form helpers isPlugPowerUser
  = Ok (events, st') ->
  In patch (persisted_patches events) ->
  patch !! "note_category" = Some newCategory
  /\ (exists fields,
         serialized_by newCategory form helpers = Ok fields
         /\ (forall field,
                In field CLEARED_FIELDS -> fields !! field = None ->
                field <> "tag_numbers" -> patch !! field = Some JNull)
         /\ (fields !! "tag_numbers" = None ->
             match Js.get form "tag_numbers" with
             | JArr items =>
                 exists tags, mapM tag_of_item items = Ok tags
                              /\ patch !! "tag_numbers" = Some (JArr tags)
             | _ => patch !! "tag_numbers" = Some JNull
             end))
  /\ (newCategory = JStr "Calibration" ->
      patch !! "stack_replacements" = Some JNull
      /\ patch !! "workorder_id" = Some JNull
      /\ patch !! "stack_inspections" = Some JNull
      /\ patch !! "stack_installs" = Some JNull
      /\ patch !! "stack_tensioning" = Some JNull
      /\ match Js.get form "tag_numbers" with
         | JArr items =>
             exists tags, mapM tag_of_item items = Ok tags
                          /\ patch !! "tag_numbers" = Some (JArr tags)
         | _ => patch !! "tag_numbers" = Some JNull
         end).
Proof.
  intros Hsubmit Hin.
  pose proof (recategorize_submit_persisted _ _ _ _ _ _ _ _ _ Hsubmit Hin) as Hp.
  assert (Hother : forall field fields tagged,
             serialized_by newCategory form helpers = Ok fields ->
             transform_tag_numbers form
               (set_performed_on_if_valid fromISO form
                  (initial_patch newCategory form isPlugPowerUser)) = Ok tagged ->
             In field CLEARED_FIELDS -> field <> "tag_numbers" ->
             Js.get tagged field = JUndefined).
  { intros field fields tagged _ Ht Hf Hne. unfold Js.get.
    rewrite (transform_tag_numbers_other _ _ _ field Ht Hne).
    now rewrite initial_patch_owned. }
  assert (Htags : forall tagged,
             transform_tag_numbers form
               (set_performed_on_if_valid fromISO form
                  (initial_patch newCategory form isPlugPowerUser)) = Ok tagged ->
             match Js.get form "tag_numbers" with
             | JArr items =>
                 exists tags, mapM tag_of_item items = Ok tags
                              /\ tagged !! "tag_numbers" = Some (JArr tags)
             | _ => tagged !! "tag_numbers" = None
             end).
  { intros tagged Ht. pose proof (transform_tag_numbers_tags _ _ _ Ht) as H.
    destruct (Js.get form "tag_numbers") as [| | | | | |items|];
      try (rewrite H; apply initial_patch_owned; simpl; tauto).
    exact H. }
  split; [|split].
  - rewrite (recategorize_patch_unowned _ _ _ _ _ _ "note_category" Hp)
      by (simpl; intuition discriminate).
    apply lookup_insert_eq.
  - destruct (recategorize_patch_owned _ _ _ _ _ _ "tag_numbers" Hp)
      as (fields & tagged & Hs & Ht & Htag); [simpl; tauto|].
    exists fields. split; [exact Hs|]. split.
    + intros field Hf Hnone Hne.
      destruct (recategorize_patch_owned _ _ _ _ _ _ field Hp Hf)
        as (fields' & tagged' & Hs' & Ht' & Hl).
      rewrite Hs in Hs'. injection Hs' as <-.
      rewrite Hl, Hnone, (Hother field fields tagged' Hs Ht' Hf Hne). reflexivity.
    + intros Hnone. rewrite Htag, Hnone. specialize (Htags tagged Ht).
      destruct (Js.get form "tag_numbers") as [| | | | | |items|];
        try (unfold Js.get; now rewrite Htags).
      destruct Htags as (tags & Hm & Hl). exists tags.
      unfold Js.get. now rewrite Hl.
  - intros ->.
    assert (Hser : serialized_by (JStr "Calibration") form helpers
                   = serialize_tag_numbers form) by reflexivity.
    assert (Hnull : forall field,
               In field CLEARED_FIELDS -> field <> "tag_numbers" ->
               patch !! field = Some JNull).
    { intros field Hf Hne.
      destruct (recategorize_patch_owned _ _ _ _ _ _ field Hp Hf)
        as (fields & tagged & Hs & Ht & Hl).
      rewrite Hl, (Hother field fields tagged Hs Ht Hf Hne).
      destruct (fields !! field) as [v|] eqn:Hv; [|reflexivity].
      rewrite Hser in Hs.
      now rewrite (serialize_tag_numbers_keys _ _ _ _ Hs Hv) in Hne. }
    repeat (split; [apply Hnull; [simpl; tauto | discriminate]|]).
    destruct (recategorize_patch_owned _ _ _ _ _ _ "tag_numbers" Hp)
      as (fields & tagged & Hs & Ht & Hl); [simpl; tauto|].
    rewrite Hser in Hs. unfold serialize_tag_numbers in Hs. rewrite Hl.
    destruct (Js.get form "tag_numbers") as [| | | | | |items|];
      try (injection Hs as <-; now rewrite lookup_singleton_eq).
    destruct (mapM tag_of_item items) as [tags|]; simpl in Hs; [|discriminate].
    injection Hs as <-. exists tags. now rewrite lookup_singleton_eq.
Qed.

(** *** Category-owned fields and the inputs that offer them *)

(** The category-owned fields are the eight fields the serializations of
    the registry yield. *)
Lemma category_owned_fields (field : string) :
  category_owned field
  <-> In field ["tag_numbers"; "software_type"; "version"; "stack_replacements";
                "workorder_id"; "stack_inspections"; "stack_installs";
                "stack_tensioning"].
Proof.
  split.
  - intros (c & form & helpers & fields & Hc & Hs & Hf).
    destruct (fields !! field) as [v|] eqn:Hv; [|congruence].
    exact (serialized_keys c form fields helpers field v Hc Hs Hv).
  - pose (helpers := {| getStackCount := 0; isEdit := false |}).
    intros [<-|[<-|[<-|[<-|[<-|[<-|[<-|[<-|[]]]]]]]]].
    + exists calibration, ∅, helpers. eexists.
      split; [simpl; tauto|]. split; [reflexivity | vm_compute; discriminate].
    + exists softwareUpdate, ∅, helpers. eexists.
      split; [simpl; tauto|]. split; [reflexivity | vm_compute; discriminate].
    + exists softwareUpdate, ∅, helpers. eexists.
      split; [simpl; tauto|]. split; [reflexivity | vm_compute; discriminate].
    + exists stackReplacements, ∅, helpers. eexists.
      split; [simpl; tauto|]. split; [reflexivity | vm_compute; discriminate].
    + exists stackReplacements, ∅, helpers. eexists.
      split; [simpl; tauto|]. split; [reflexivity | vm_compute; discriminate].
    + exists stackInspection, ∅, helpers. eexists.
      split; [simpl; tauto|]. split; [reflexivity | vm_compute; discriminate].
    + exists stackInstalls, ∅, helpers. eexists.
      split; [simpl; tauto|]. split; [reflexivity | vm_compute; discriminate].
    + exists stackTensioning, ∅, helpers. eexists.
      split; [simpl; tauto|]. split; [reflexivity | vm_compute; discriminate].
Qed.

Lemma group_input_keys (prefix k : string) (ids : list string)
    (children : string -> list ComponentInput) :
  In k (map input_key (buildStackGroupInputs prefix ids children)) ->
  exists id, k = prefix +:+ "_" +:+ id.
Proof.
  unfold buildStackGroupInputs. rewrite List.map_map.
  intros H. apply in_map_iff in H as (id & <- & _). now exists id.
Qed.

(** Only Calibration and Settings change have a tag_numbers input. *)
Lemma tag_input_offered (category : JsVal) (helpers : CategoryFormHelpers)
    (latestSerials : gmap string string) (isPlugPowerUser : bool) :
  In "tag_numbers"
     (map input_key (buildFullInputs category helpers latestSerials isPlugPowerUser)) ->
  getCategoryConfig category = Some calibration
  \/ getCategoryConfig category = Some settingsChange.
Proof.
  unfold buildFullInputs. rewrite !List.map_app, !in_app_iff.
  intros [H|[H|H]].
  - simpl in H. destruct H as [H|[]]. discriminate H.
  - destruct (getCategoryConfig category) as [c|] eqn:Hc; [|destruct H].
    pose proof (getCategoryConfig_registered _ _ Hc) as Hreg.
    unfold CATEGORY_CONFIGS in Hreg. simpl in Hreg.
    destruct Hreg as [<-|[<-|[<-|[<-|[<-|[<-|[<-|[<-|[]]]]]]]]];
      try (left; reflexivity); try (right; reflexivity); exfalso.
    + simpl in H. destruct H as [H|[H|[]]]; discriminate H.
    + change (getFormInputs stackReplacements helpers latestSerials)
        with (stackReplacements_getFormInputs helpers) in H.
      unfold stackReplacements_getFormInputs in H. simpl map in H.
      destruct H as [H|H]; [discriminate H|].
      apply group_input_keys in H as (id & H). simpl in H. discriminate H.
    + change (getFormInputs stackInspection helpers latestSerials)
        with (stackInspection_getFormInputs helpers latestSerials) in H.
      apply group_input_keys in H as (id & H). simpl in H. discriminate H.
    + change (getFormInputs stackTensioning helpers latestSerials)
        with (stackTensioning_getFormInputs helpers latestSerials) in H.
      apply group_input_keys in H as (id & H). simpl in H. discriminate H.
    + change (getFormInputs stackInstalls helpers latestSerials)
        with (stackInstalls_getFormInputs helpers) in H.
      apply group_input_keys in H as (id & H). simpl in H. discriminate H.
    + destruct H.
  - unfold buildCommonInputs in H. destruct isPlugPowerUser; simpl in H;
      intuition discriminate.
Qed.

(** C4.  Every update patch that a recategorization hands to persistence
    sets note_category to the new category key and sets to null every
    category-owned field that the new category's serialization does not
    produce, for every submitted form value that holds a category-owned
    field only where the new category's inputs of the fill dialog offer
    it (the dialog is built from [buildFullInputs] and read-only inputs
    whose keys start with current_ or separator_, and it is opened
    without an initial value).  The category-owned fields are
    tag_numbers, software_type, version, stack_replacements, workorder_id,
    stack_inspections, stack_installs and stack_tensioning.  In
    particular, recategorizing to "Calibration" yields a patch in which
    stack_replacements, workorder_id, stack_inspections, stack_installs,
    stack_tensioning, software_type and version are null and tag_numbers
    holds the submitted tag numbers (null when no list was submitted). *)
Theorem recategorize_resets_fields (fromISO : JsVal -> option Z) (note : Note)
    (newCategory : JsVal) (form : JsObject) (helpers : CategoryFormHelpers)
    (latestSerials : gmap string string) (isPlugPowerUser : bool)
    (events : list Event) (st' : RecategorizeState) (patch : JsObject) :
  (forall field,
      category_owned field -> form !! field <> None ->
      In field (map input_key
                    (buildFullInputs newCategory helpers latestSerials
                                     isPlugPowerUser))) ->
  recategorize_submit fromISO note newCategory form helpers isPlugPowerUser
  = Ok (events, st') ->
  In patch (persisted_patches events) ->
  patch !! "note_category" = Some newCategory
  /\ (exists fields,
         serialized_by newCategory form helpers = Ok fields
         /\ forall field,
              category_owned field -> fields !! field = None ->
              patch !! field = Some JNull)
  /\ (forall field,
         category_owned field
         <-> In field ["tag_numbers"; "software_type"; "version";
                       "stack_replacements"; "workorder_id";
                       "stack_inspections"; "stack_installs";
                       "stack_tensioning"])
  /\ (newCategory = JStr "Calibration" ->
      patch !! "stack_replacements" = Some JNull
      /\ patch !! "workorder_id" = Some JNull
      /\ patch !! "stack_inspections" = Some JNull
      /\ patch !! "stack_installs" = Some JNull
      /\ patch !! "stack_tensioning" = Some JNull
      /\ patch !! "software_type" = Some JNull
      /\ patch !! "version" = Some JNull
      /\ match Js.get form "tag_numbers" with
         | JArr items =>
             exists tags, mapM tag_of_item items = Ok tags
                          /\ patch !! "tag_numbers" = Some (JArr tags)
         | _ => patch !! "tag_numbers" = Some JNull
         end).
Proof.
  intros Hoffered Hsubmit Hin.
  destruct (recategorize_patch_fields fromISO note newCategory form helpers
              isPlugPowerUser events st' patch Hsubmit Hin)
    as (Hcat & (fields & Hs & Hnull & Htag) & Hcal).
  assert (Hreset : forall field,
             category_owned field -> fields !! field = None ->
             patch !! field = Some JNull).
  { intros field Hown Hnone.
    destruct (string_dec field "tag_numbers") as [->|Hne];
      [|apply Hnull; [now apply category_owned_fields | exact Hnone | exact Hne]].
    specialize (Htag Hnone).
    destruct (Js.get form "tag_numbers") as [| | | | | |items|] eqn:Hget;
      try exact Htag.
    exfalso.
    assert (Hform : form !! "tag_numbers" <> None).
    { unfold Js.get in Hget. destruct (form !! "tag_numbers"); [discriminate|].
      discriminate Hget. }
    pose proof (tag_input_offered _ _ _ _ (Hoffered _ Hown Hform)) as Hconfig.
    assert (Hser : serialized_by newCategory form helpers
                   = serialize_tag_numbers form)
      by (unfold serialized_by; destruct Hconfig as [-> | ->]; reflexivity).
    rewrite Hser in Hs. unfold serialize_tag_numbers in Hs. rewrite Hget in Hs.
    destruct (mapM tag_of_item items) as [tags|]; simpl in Hs; [|discriminate].
    injection Hs as <-. now rewrite lookup_singleton_eq in Hnone. }
  split; [exact Hcat|]. split; [now exists fields|].
  split; [exact category_owned_fields|].
  intros ->. destruct (Hcal eq_refl) as (H1 & H2 & H3 & H4 & H5 & H6).
  repeat (split; [assumption|]).
  assert (Hkeys : forall k, k <> "tag_numbers" -> fields !! k = None).
  { intros k Hk. destruct (fields !! k) as [v|] eqn:Hv; [|reflexivity].
    now rewrite (serialize_tag_numbers_keys _ _ _ _ Hs Hv) in Hk. }
  split; [apply Hreset; [apply category_owned_fields; simpl; tauto
                        | now apply Hkeys]|].
  split; [apply Hreset; [apply category_owned_fields; simpl; tauto
                        | now apply Hkeys]|].
  exact H6.
Qed.

Lemma recategorize_resets_fields_witness :
  (forall field,
      category_owned field -> calibration_form !! field <> None ->
      In field (map input_key
                    (buildFullInputs (JStr "Calibration") three_stacks ∅ true)))
  /\ exists events st' patch,
       recategorize_submit toy_fromISO replaced_note (JStr "Calibration")
                           calibration_form three_stacks true = Ok (events, st')
       /\ In patch (persisted_patches events)
       /\ patch !! "note_category" = Some (JStr "Calibration")
       /\ patch !! "stack_replacements" = Some JNull
       /\ patch !! "workorder_id" = Some JNull
       /\ patch !! "stack_inspections" = Some JNull
       /\ patch !! "stack_installs" = Some JNull
       /\ patch !! "stack_tensioning" = Some JNull
       /\ patch !! "software_type" = Some JNull
       /\ patch !! "version" = Some JNull
       /\ patch !! "tag_numbers" = Some (JArr [JStr "PT-101"; JStr "TT-204"]).
Proof.
  assert (Hoffered : forall field,
             category_owned field -> calibration_form !! field <> None ->
             In field (map input_key
                           (buildFullInputs (JStr "Calibration") three_stacks ∅
                                            true))).
  { intros field Hown Hform. apply category_owned_fields in Hown.
    destruct Hown as [<-|[<-|[<-|[<-|[<-|[<-|[<-|[<-|[]]]]]]]]];
      try (exfalso; apply Hform; reflexivity).
    right. left. reflexivity. }
  split; [exact Hoffered|].
  destruct (sole_patch
              (recategorize_submit toy_fromISO replaced_note (JStr "Calibration")
                 calibration_form three_stacks true))
    as (events & st' & patch & Hs & Hin); [vm_compute; reflexivity|].
  exists events, st', patch. split; [exact Hs|]. split; [exact Hin|].
  destruct (recategorize_resets_fields toy_fromISO replaced_note
              (JStr "Calibration") calibration_form three_stacks ∅ true
              events st' patch Hoffered Hs Hin)
    as (Hcat & _ & _ & Hcal).
  split; [exact Hcat|].
  destruct (Hcal eq_refl) as (H1 & H2 & H3 & H4 & H5 & H6 & H7 & H8).
  repeat (split; [assumption|]).
  destruct H8 as (tags & Hm & Htags). injection Hm as <-. exact Htags.
Defined.

(** The condition on the form value is needed.  A form value with a
    tag_numbers array for "Other", whose fill dialog has no input of that
    key: the serialization of "Other" produces no field at all, yet the
    patch holds the mapped tag list in tag_numbers instead of null. *)
Example recategorize_keeps_submitted_tags :
  serialized_by (JStr "Other") stray_tags_form three_stacks = Ok ∅
  /\ map (fun patch => patch !! "tag_numbers")
         (persisted_patches
            (fst (handleRecategorizeNote toy_fromISO replaced_note three_stacks
                    true 4
                    [Some {[ "new_category" := JStr "Other" ]};
                     Some stray_tags_form])))
     = [Some (JArr [JStr "PT-101"])]
  /\ map (fun patch => patch !! "tag_numbers")
         (persisted_patches
            (fst (handleRecategorizeNote toy_fromISO replaced_note three_stacks
                    true 4
                    [Some {[ "new_category" := JStr "Other" ]};
                     Some stray_tags_form])))
     <> [Some JNull].
Proof.
  split; [vm_compute; reflexivity|].
  split; [vm_compute; reflexivity | vm_compute; discriminate].
Qed.

(** C3, the Edit flow.  When the submitted performed_on is present and
    is not a parseable instant, the patch that the Edit flow hands to
    persistence does hold a performed_on entry: NaN, the [toMillis()] of
    the invalid [DateTime].  (The Add and Recategorize flows test
    [isValid] and omit the entry: [add_performed_on],
    [recategorize_performed_on].) *)
Theorem edit_keeps_unparseable_performed_on (fromISO : JsVal -> option Z)
    (note : Note) (helpers : CategoryFormHelpers) (form : JsObject)
    (events : list Event) (patch : JsObject) :
  Js.truthy (Js.get form "performed_on") = true ->
  fromISO (Js.get form "performed_on") = None ->
  edit_submit fromISO note helpers form = Ok events ->
  In patch (persisted_patches events) ->
  patch !! "performed_on" = Some JNaN.
Proof.
  intros Htruthy Hinvalid Hsubmit Hin.
  destruct (edit_submit_persisted _ _ _ _ _ _ Hsubmit Hin)
    as (tagged & fields & Ht & Hs & ->).
  rewrite assign_lookup.
  rewrite (serialized_by_keys _ _ _ _ "performed_on" Hs)
    by (simpl; intuition discriminate).
  rewrite (transform_tag_numbers_other _ _ _ "performed_on" Ht) by discriminate.
  unfold set_performed_on. rewrite Htruthy, Hinvalid.
  apply lookup_insert_eq.
Qed.

Lemma edit_keeps_unparseable_performed_on_witness :
  Js.truthy (Js.get unparseable_date_form "performed_on") = true
  /\ toy_fromISO (Js.get unparseable_date_form "performed_on") = None
  /\ exists events patch,
       edit_submit toy_fromISO other_note three_stacks unparseable_date_form
       = Ok events
       /\ In patch (persisted_patches events)
       /\ patch !! "performed_on" = Some JNaN.
Proof.
  split; [reflexivity|]. split; [reflexivity|].
  eexists _, _.
  split; [vm_compute; reflexivity|].
  split; [left; reflexivity|].
  eapply (edit_keeps_unparseable_performed_on toy_fromISO other_note three_stacks
            unparseable_date_form);
    [reflexivity | reflexivity | vm_compute; reflexivity | left; reflexivity].
Defined.

(** The same submission in the two sibling flows: no performed_on entry. *)
Example siblings_omit_unparseable_performed_on :
  map (fun patch => patch !! "performed_on")
      (persisted_patches
         (fst (handleAddNote toy_fromISO three_stacks true 4
                 [Some {[ "category" := JStr "Other" ]};
                  Some unparseable_date_form])))
  = [None]
  /\ map (fun patch => patch !! "performed_on")
         (persisted_patches
            (fst (handleRecategorizeNote toy_fromISO replaced_note three_stacks
                    true 4
                    [Some {[ "new_category" := JStr "Other" ]};
                     Some unparseable_date_form])))
     = [None]
  /\ map (fun patch => patch !! "performed_on")
         (persisted_patches
            (fst (handleEditNote toy_fromISO other_note three_stacks
                    [Some unparseable_date_form])))
     = [Some JNaN].
Proof. repeat split; vm_compute; reflexivity. Qed.

(** A parseable instant is converted to epoch milliseconds in all three
    flows. *)
Lemma edit_performed_on_parsed (fromISO : JsVal -> option Z)
    (note : Note) (helpers : CategoryFormHelpers) (form : JsObject)
    (events : list Event) (patch : JsObject) (millis : Z) :
  Js.truthy (Js.get form "performed_on") = true ->
  fromISO (Js.get form "performed_on") = Some millis ->
  edit_submit fromISO note helpers form = Ok events ->
  In patch (persisted_patches events) ->
  patch !! "performed_on" = Some (JNum millis).
Proof.
  intros Htruthy Hvalid Hsubmit Hin.
  destruct (edit_submit_persisted _ _ _ _ _ _ Hsubmit Hin)
    as (tagged & fields & Ht & Hs & ->).
  rewrite assign_lookup.
  rewrite (serialized_by_keys _ _ _ _ "performed_on" Hs)
    by (simpl; intuition discriminate).
  rewrite (transform_tag_numbers_other _ _ _ "performed_on" Ht) by discriminate.
  unfold set_performed_on. rewrite Htruthy, Hvalid.
  apply lookup_insert_eq.
Qed.

Section RunFacts.
Context {State : Type} (iteration : State -> Iteration State).

Lemma run_prompt (fuel : nat) (st st' : State) (d : Dialog) (initialValue : bool)
    (resume : DialogResult -> Outcome (list Event * State))
    (answer : DialogResult) (script : list DialogResult) (events : list Event) :
  iteration st = Prompt d initialValue resume ->
  resume answer = Ok (events, st') ->
  run iteration (S fuel) st (answer :: script)
  = (OpenFormDialog d initialValue
       :: events ++ fst (run iteration fuel st' script),
     snd (run iteration fuel st' script)).
Proof.
  intros Hit Hres. simpl. rewrite Hit, Hres.
  now destruct (run iteration fuel st' script).
Qed.

Lemma run_awaiting (fuel : nat) (st : State) (d : Dialog) (initialValue : bool)
    (resume : DialogResult -> Outcome (list Event * State)) :
  iteration st = Prompt d initialValue resume ->
  run iteration (S fuel) st [] = ([OpenFormDialog d initialValue], Awaiting st).
Proof. intros Hit. simpl. now rewrite Hit. Qed.
End RunFacts.

Section RunTermination.
Context {State : Type} (iteration : State -> Iteration State).
Hypothesis silent_once :
  forall st st', iteration st = Silent st' ->
                 forall st'', iteration st' <> Silent st''.

Lemma run_unfold (fuel : nat) (st : State) (script : list DialogResult) :
  run iteration (S fuel) st script
  = match iteration st with
    | LoopEnd => ([], Returned)
    | Silent st' => run iteration fuel st' script
    | Prompt d initialValue resume =>
        match script with
        | [] => ([OpenFormDialog d initialValue], Awaiting st)
        | answer :: script' =>
            match resume answer with
            | Throw => ([OpenFormDialog d initialValue], Threw)
            | Ok (events, st') =>
                let (trace, final) := run iteration fuel st' script' in
                (OpenFormDialog d initialValue :: events ++ trace, final)
            end
        end
    end.
Proof. reflexivity. Qed.

(** Two turns of the loop per dialog answer are enough fuel. *)
Lemma run_enough_fuel (script : list DialogResult) :
  forall (fuel : nat) (st : State),
    2 * length script + 2 <= fuel ->
    snd (run iteration fuel st script) <> OutOfFuel.
Proof.
  induction script as [|answer script IH]; intros fuel st Hfuel.
  - destruct fuel as [|[|fuel]]; [simpl in Hfuel; lia | simpl in Hfuel; lia |].
    rewrite run_unfold.
    destruct (iteration st) as [|st'|d iv resume] eqn:Hit;
      [discriminate | | discriminate].
    rewrite run_unfold.
    destruct (iteration st') as [|st''|d iv resume] eqn:Hit';
      [discriminate | | discriminate].
    now destruct (silent_once _ _ Hit _ Hit').
  - destruct fuel as [|[|fuel]]; [simpl in Hfuel; lia | simpl in Hfuel; lia |].
    assert (Hrest : 2 * length script + 2 <= fuel) by (simpl in Hfuel; lia).
    rewrite run_unfold.
    destruct (iteration st) as [|st'|d iv resume] eqn:Hit; [discriminate | |].
    + rewrite run_unfold.
      destruct (iteration st') as [|st''|d iv resume] eqn:Hit'; [discriminate | |].
      * now destruct (silent_once _ _ Hit _ Hit').
      * destruct (resume answer) as [[events st'']|]; [|discriminate].
        specialize (IH fuel st'' Hrest).
        now destruct (run iteration fuel st'' script).
    + destruct (resume answer) as [[events st'']|]; [|discriminate].
      assert (Hmore : 2 * length script + 2 <= S fuel) by lia.
      specialize (IH (S fuel) st'' Hmore).
      now destruct (run iteration (S fuel) st'' script).
Qed.
End RunTermination.

(** The Add and the Recategorize handler run to an end, to a throw or to
    the next dialog on every script of answers. *)
Lemma handlers_enough_fuel (fromISO : JsVal -> option Z) (note : Note)
    (helpers : CategoryFormHelpers) (isPlugPowerUser : bool)
    (script : list DialogResult) (fuel : nat) :
  2 * length script + 2 <= fuel ->
  snd (handleAddNote fromISO helpers isPlugPowerUser fuel script) <> OutOfFuel
  /\ snd (handleRecategorizeNote fromISO note helpers isPlugPowerUser fuel script)
     <> OutOfFuel.
Proof.
  intros Hfuel. split; apply run_enough_fuel; try exact Hfuel.
  - intros [step cat] st'. unfold add_iteration. cbn [add_step add_category].
    destruct step; try discriminate.
    destruct (negb (Js.truthy cat)); [|discriminate].
    intros [= <-] st''. discriminate.
  - intros [step cat] st'. unfold recategorize_iteration.
    cbn [rec_step rec_newCategory].
    destruct step; try discriminate.
    destruct (negb (Js.truthy cat)); [|discriminate].
    intros [= <-] st''. discriminate.
Qed.

Lemma mapM_tag_throws (items : list JsVal) :
  mapM tag_of_item items = Throw
  <-> Exists (fun item => item = JNull \/ item = JUndefined) items.
Proof.
  induction items as [|item items IH]; simpl.
  - split; [discriminate | intros H; inversion H].
  - split.
    + destruct item; simpl;
        try (destruct (mapM tag_of_item items); simpl; [discriminate|];
             intros _; apply Exists_cons_tl; now apply IH);
        intros _; apply Exists_cons_hd; tauto.
    + intros H. inversion H as [? ? [->| ->]|? ? Hrest]; subst; try reflexivity.
      apply IH in Hrest.
      destruct (tag_of_item item); simpl; [now rewrite Hrest | reflexivity].
Qed.

(** In the Edit flow the tag transform, which runs before the validation,
    throws exactly when the submitted tag_numbers is an array that holds a
    null or undefined item. *)
Lemma edit_tag_transform_throws (fromISO : JsVal -> option Z) (form : JsObject) :
  transform_tag_numbers
    (set_performed_on fromISO form (delete "performed_on" form))
    (set_performed_on fromISO form (delete "performed_on" form)) = Throw
  <-> exists items, Js.get form "tag_numbers" = JArr items
                    /\ Exists (fun item => item = JNull \/ item = JUndefined) items.
Proof.
  assert (Hget : Js.get (set_performed_on fromISO form (delete "performed_on" form))
                        "tag_numbers" = Js.get form "tag_numbers").
  { unfold Js.get. rewrite set_performed_on_other by discriminate.
    now rewrite lookup_delete_ne by discriminate. }
  unfold transform_tag_numbers. rewrite Hget.
  destruct (Js.get form "tag_numbers") as [| | | | | |items|];
    try (split; [discriminate | intros (items & Hi & _); discriminate]).
  split.
  - destruct (mapM tag_of_item items) eqn:Hm; simpl; [discriminate|].
    intros _. exists items. split; [reflexivity | now apply mapM_tag_throws].
  - intros (items' & [= <-] & Hex). apply mapM_tag_throws in Hex. now rewrite Hex.
Qed.

(** C5, as amended.  In every flow, when the active category's validate
    returns a (non-empty) error message for the submitted form value, no
    persistence call is made for that submission.  In the Add and
    Recategorize flows the message is shown in an alert dialog and the
    handler then opens the same fill dialog again, without an initial
    value (the values entered are not passed back to the dialog), and
    waits.  In the Edit flow the message is shown in an alert dialog and
    the handler returns without showing its dialog again, unless the
    submitted tag_numbers is an array that holds a null or undefined item:
    then the tag transform, which runs before the validation, throws, and
    the handler ends without alert and without persistence. *)
Theorem validation_failure_blocks_persistence (fromISO : JsVal -> option Z)
    (note : Note) (category : JsVal) (c : CategoryConfig)
    (check : JsObject -> CategoryFormHelpers -> option string)
    (form : JsObject) (helpers : CategoryFormHelpers) (isPlugPowerUser : bool)
    (message : string) (fuel : nat) :
  getCategoryConfig category = Some c ->
  validate c = Some check ->
  JsString.truthy message = true ->
  (check form helpers = Some message ->
   let alert := OpenAlertDialog "Validation Error" message in
   let filling := {| add_step := AddNote; add_category := category |} in
   let refilling := {| rec_step := FillNewFields; rec_newCategory := category |} in
   (add_note_submit fromISO category form helpers isPlugPowerUser
    = Ok ([alert], filling)
    /\ persisted_patches [alert] = []
    /\ run (add_iteration fromISO helpers isPlugPowerUser) (S (S fuel)) filling
           [Some form]
       = ([OpenFormDialog (AddNoteDialog category) false; alert;
           OpenFormDialog (AddNoteDialog category) false],
          Awaiting filling))
   /\ (recategorize_submit fromISO note category form helpers isPlugPowerUser
       = Ok ([alert], refilling)
       /\ run (recategorize_iteration fromISO note helpers isPlugPowerUser)
              (S (S fuel)) refilling [Some form]
          = ([OpenFormDialog (RecategorizeDialog category) false; alert;
              OpenFormDialog (RecategorizeDialog category) false],
             Awaiting refilling)))
  /\ (js_of_text (note_category note) = category ->
      check form {| getStackCount := getStackCount helpers; isEdit := true |}
      = Some message ->
      forall script,
        persisted_patches
          (fst (handleEditNote fromISO note helpers (Some form :: script))) = []
        /\ ((forall items,
                Js.get form "tag_numbers" = JArr items ->
                Forall (fun item => item <> JNull /\ item <> JUndefined) items) ->
            handleEditNote fromISO note helpers (Some form :: script)
            = ([OpenFormDialog (EditNoteDialog category) true;
                OpenAlertDialog "Validation Error" message], Returned))
        /\ ((exists items,
                Js.get form "tag_numbers" = JArr items
                /\ Exists (fun item => item = JNull \/ item = JUndefined) items) ->
            handleEditNote fromISO note helpers (Some form :: script)
            = ([OpenFormDialog (EditNoteDialog category) true], Threw))).
Proof.
  intros Hc Hv Hmsg.
  pose proof (getCategoryConfig_truthy _ _ Hc) as Htruthy.
  split.
  - intros Hcheck alert filling refilling.
    pose proof (validation_error_message _ _ _ _ _ _ Hc Hv Hcheck Hmsg) as Herr.
    assert (Hadd : add_note_submit fromISO category form helpers isPlugPowerUser
                   = Ok ([alert], filling))
      by (unfold add_note_submit; now rewrite Herr).
    assert (Hrec : recategorize_submit fromISO note category form helpers
                     isPlugPowerUser = Ok ([alert], refilling))
      by (unfold recategorize_submit; now rewrite Herr).
    assert (Hit : exists resume,
               add_iteration fromISO helpers isPlugPowerUser filling
               = Prompt (AddNoteDialog category) false resume
               /\ resume (Some form) = Ok ([alert], filling)).
    { eexists. unfold add_iteration, filling. cbn [add_step add_category].
      rewrite Htruthy. cbn [negb]. split; [reflexivity | exact Hadd]. }
    assert (Hit' : exists resume,
               recategorize_iteration fromISO note helpers isPlugPowerUser refilling
               = Prompt (RecategorizeDialog category) false resume
               /\ resume (Some form) = Ok ([alert], refilling)).
    { eexists. unfold recategorize_iteration, refilling.
      cbn [rec_step rec_newCategory].
      rewrite Htruthy. cbn [negb]. split; [reflexivity | exact Hrec]. }
    destruct Hit as (resume & Hprompt & Hresume).
    destruct Hit' as (resume' & Hprompt' & Hresume').
    repeat split; try assumption.
    + rewrite (run_prompt _ _ _ _ _ _ _ _ _ _ Hprompt Hresume).
      now rewrite (run_awaiting _ _ _ _ _ _ Hprompt).
    + rewrite (run_prompt _ _ _ _ _ _ _ _ _ _ Hprompt' Hresume').
      now rewrite (run_awaiting _ _ _ _ _ _ Hprompt').
  - intros Hcat Hcheck script.
    pose proof (edit_tag_transform_throws fromISO form) as Hthrows.
    unfold handleEditNote. rewrite Hcat.
    unfold Js.or. rewrite Htruthy.
    unfold edit_submit. rewrite Hcat.
    destruct (transform_tag_numbers _ _) as [tagged|]; simpl.
    + rewrite (validation_error_message _ _ _ _ _ _ Hc Hv Hcheck Hmsg).
      split; [reflexivity|]. split; [reflexivity|].
      intros Hex. apply Hthrows in Hex. discriminate Hex.
    + split; [reflexivity|]. split; [|reflexivity].
      intros Hall. exfalso.
      destruct (proj1 Hthrows eq_refl) as (items & Hitems & Hex).
      specialize (Hall items Hitems).
      apply List.Exists_exists in Hex as (item & Hin & Hbad).
      rewrite List.Forall_forall in Hall. specialize (Hall item Hin).
      destruct Hbad as [->| ->]; tauto.
Qed.

Lemma validation_failure_blocks_persistence_witness :
  run (add_iteration toy_fromISO three_stacks true) 2
      {| add_step := AddNote; add_category := JStr "Stack installs" |}
      [Some installs_blank_form]
  = ([OpenFormDialog (AddNoteDialog (JStr "Stack installs")) false;
      OpenAlertDialog "Validation Error"
                      "At least one stack install must be filled in.";
      OpenFormDialog (AddNoteDialog (JStr "Stack installs")) false],
     Awaiting {| add_step := AddNote; add_category := JStr "Stack installs" |})
  /\ handleEditNote toy_fromISO installs_note three_stacks
                    [Some installs_blank_form]
     = ([OpenFormDialog (EditNoteDialog (JStr "Stack installs")) true;
         OpenAlertDialog "Validation Error"
                         "At least one stack install must be filled in."],
        Returned)
  /\ handleEditNote toy_fromISO installs_note three_stacks
                    [Some null_tag_installs_form]
     = ([OpenFormDialog (EditNoteDialog (JStr "Stack installs")) true], Threw).
Proof.
  destruct (validation_failure_blocks_persistence toy_fromISO installs_note
              (JStr "Stack installs") stackInstalls
              (fun form helpers =>
                 require_items
                   (extractStackInstallsFromForm form (getStackCount helpers))
                   "At least one stack install must be filled in.")
              installs_blank_form three_stacks true
              "At least one stack install must be filled in." 0)
    as [Hloop Hedit]; [reflexivity | reflexivity | reflexivity |].
  destruct (validation_failure_blocks_persistence toy_fromISO installs_note
              (JStr "Stack installs") stackInstalls
              (fun form helpers =>
                 require_items
                   (extractStackInstallsFromForm form (getStackCount helpers))
                   "At least one stack install must be filled in.")
              null_tag_installs_form three_stacks true
              "At least one stack install must be filled in." 0)
    as [_ Hthrow]; [reflexivity | reflexivity | reflexivity |].
  split; [|split].
  - destruct (Hloop eq_refl) as ((_ & _ & Hrun) & _). exact Hrun.
  - destruct (Hedit eq_refl eq_refl []) as (_ & Halert & _).
    apply Halert. intros items Hitems. discriminate Hitems.
  - destruct (Hthrow eq_refl eq_refl []) as (_ & _ & Hthrew).
    apply Hthrew. exists [JNull]. split; [reflexivity|].
    apply Exists_cons_hd. now left.
Defined.

(** C5, counterexample.  In the Edit flow a validation error ends the
    handler: the trace is the edit dialog and the alert, and the handler
    has returned; the fill step is not shown again. *)
Lemma edit_validation_failure_returns :
  handleEditNote toy_fromISO installs_note three_stacks
                 [Some installs_blank_form; Some installs_blank_form]
  = ([OpenFormDialog (EditNoteDialog (JStr "Stack installs")) true;
      OpenAlertDialog "Validation Error"
                      "At least one stack install must be filled in."],
     Returned).
Proof. vm_compute. reflexivity. Qed.

(* ================================================================== *)
(** * Further properties                                               *)
(* ================================================================== *)

(** ** Decoding, segment by segment *)

Section DecodingFacts.
Import JsString.

Lemma split_nonempty sep (s : string) : split sep s <> [].
Proof.
  destruct s as [|c s]; simpl; [discriminate|].
  destruct (Ascii.eqb c sep); [discriminate|].
  destruct (split sep s); discriminate.
Qed.

Lemma split_app sep (a b : string) :
  split sep (a +:+ String sep b) = (split sep a ++ split sep b)%list.
Proof.
  induction a as [|c a IH]; simpl.
  - now rewrite Ascii.eqb_refl.
  - destruct (Ascii.eqb c sep); [now rewrite IH|].
    rewrite IH. pose proof (split_nonempty sep a) as Hne.
    destruct (split sep a) as [|piece pieces]; [contradiction | reflexivity].
Qed.

Lemma split_pieces_free sep (s : string) :
  Forall (fun piece => has_char sep piece = false) (split sep s).
Proof.
  induction s as [|c s IH]; simpl; [repeat constructor|].
  destruct (Ascii.eqb c sep) eqn:Hc; [constructor; [reflexivity | exact IH]|].
  destruct (split sep s) as [|piece pieces]; [repeat constructor; simpl; now rewrite Hc|].
  inversion IH as [|? ? Hp Hps]; subst.
  constructor; [simpl; now rewrite Hc | exact Hps].
Qed.

Lemma parse_with_segments {A : Type} (of_segment : string -> option A) (s : string) :
  parse_with of_segment (Val s) = omap of_segment (segments s).
Proof. unfold parse_with. destruct s; reflexivity. Qed.

Lemma segments_app (a b : string) :
  segments (a +:+ ";" +:+ b) = (segments a ++ segments b)%list.
Proof.
  unfold segments. change (a +:+ ";" +:+ b) with (a +:+ String SEMICOLON b).
  now rewrite split_app, List.filter_app.
Qed.

Lemma parse_with_app {A : Type} (of_segment : string -> option A) (a b : string) :
  parse_with of_segment (Val (a +:+ ";" +:+ b))
  = (parse_with of_segment (Val a) ++ parse_with of_segment (Val b))%list.
Proof. now rewrite !parse_with_segments, segments_app, omap_app. Qed.

Lemma segments_free (s : string) : Forall semicolon_free (segments s).
Proof.
  unfold segments. apply List.Forall_forall. intros piece Hin.
  apply List.filter_In in Hin as [Hin _].
  pose proof (split_pieces_free SEMICOLON s) as Hall.
  rewrite List.Forall_forall in Hall. now apply Hall.
Qed.

(** *** What a match can capture *)

Lemma has_char_app_l c (g rest : string) :
  has_char c (g +:+ rest) = false -> has_char c g = false.
Proof. rewrite has_char_app. now destruct (has_char c g). Qed.

Lemma has_char_app_r c (g rest : string) :
  has_char c (g +:+ rest) = false -> has_char c rest = false.
Proof. rewrite has_char_app. destruct (has_char c g); [discriminate | now simpl]. Qed.

Lemma greedy_star_class c k (s g : string) caps :
  greedy_star c k s = Some (g, caps) -> has_char c g = false.
Proof.
  revert g; induction s as [|x s IH]; intros g; simpl.
  - destruct (k EmptyString); simpl; [|discriminate]. now intros [= <- _].
  - assert (Hstop : option_map (fun caps0 => (EmptyString, caps0)) (k (String x s))
                    = Some (g, caps) -> has_char c g = false).
    { destruct (k (String x s)); simpl; [|discriminate]. now intros [= <- _]. }
    unfold in_class. destruct (Ascii.eqb x c) eqn:Hx; simpl; [exact Hstop|].
    destruct (greedy_star c k s) as [[g' caps']|] eqn:Hrec; [|exact Hstop].
    intros [= <- <-]. simpl. rewrite Hx. now apply IH.
Qed.

Lemma greedy_plus_class c k (s g : string) caps :
  greedy_plus c k s = Some (g, caps) -> has_char c g = false /\ truthy g = true.
Proof.
  destruct s as [|x s]; simpl; [discriminate|].
  unfold in_class. destruct (Ascii.eqb x c) eqn:Hx; simpl; [discriminate|].
  destruct (greedy_star c k s) as [[g' caps']|] eqn:Hrec; [|discriminate].
  intros [= <- _]. simpl. rewrite Hx. split; [|reflexivity].
  exact (greedy_star_class _ _ _ _ _ Hrec).
Qed.

(** Every group of a match is free of the character its class excludes,
    and of every character that does not occur in the subject. *)
Lemma match_here_groups c d p : forall (s : string) caps,
  Forall (fun item => match item with Cap x _ => x = c | Lit _ => True end) p ->
  has_char d s = false ->
  match_here p s = Some caps ->
  Forall (fun g => has_char c g = false /\ has_char d g = false) caps.
Proof.
  induction p as [|item p IH]; intros s caps Hp Hd; simpl.
  - intros [= <-]. constructor.
  - inversion Hp as [|? ? Hitem Hp']; subst.
    destruct item as [lit|x [|]].
    + destruct (strip_prefix lit s) as [rest|] eqn:Hpre; [|discriminate].
      apply strip_prefix_inv in Hpre as ->. intros Hm.
      exact (IH _ _ Hp' (has_char_app_r _ _ _ Hd) Hm).
    + subst x.
      destruct (greedy_star c (match_here p) s) as [[g caps']|] eqn:Hg;
        [|discriminate].
      intros [= <-]. simpl.
      destruct (greedy_star_inv _ _ _ _ _ Hg) as (rest & -> & Hm).
      constructor.
      * split; [exact (greedy_star_class _ _ _ _ _ Hg)
               | exact (has_char_app_l _ _ _ Hd)].
      * exact (IH _ _ Hp' (has_char_app_r _ _ _ Hd) Hm).
    + subst x.
      destruct (greedy_plus c (match_here p) s) as [[g caps']|] eqn:Hg;
        [|discriminate].
      intros [= <-]. simpl.
      destruct (greedy_plus_inv _ _ _ _ _ Hg) as (rest & -> & Hm).
      constructor.
      * split; [exact (proj1 (greedy_plus_class _ _ _ _ _ Hg))
               | exact (has_char_app_l _ _ _ Hd)].
      * exact (IH _ _ Hp' (has_char_app_r _ _ _ Hd) Hm).
Qed.

Lemma js_match_groups c d p (s : string) caps :
  Forall (fun item => match item with Cap x _ => x = c | Lit _ => True end) p ->
  has_char d s = false ->
  js_match p s = Some caps ->
  Forall (fun g => has_char c g = false /\ has_char d g = false) caps.
Proof.
  intros Hp. induction s as [|x s IH]; intros Hd; cbn [js_match].
  - destruct (match_here p EmptyString) eqn:Hm; [|discriminate].
    intros [= <-]. exact (match_here_groups c d p _ _ Hp Hd Hm).
  - destruct (match_here p (String x s)) eqn:Hm.
    + intros [= <-]. exact (match_here_groups c d p _ _ Hp Hd Hm).
    + apply IH. simpl in Hd. destruct (Ascii.eqb x d); [discriminate | exact Hd].
Qed.

(** The first group of the four patterns takes at least one character. *)
Lemma match_here_first_group lit c p (s : string) caps :
  match_here (Lit lit :: Cap c Plus :: p) s = Some caps ->
  exists g caps', caps = g :: caps' /\ truthy g = true.
Proof.
  simpl. destruct (strip_prefix lit s) as [rest|]; [|discriminate].
  destruct (greedy_plus c (match_here p) rest) as [[g caps']|] eqn:Hg;
    [|discriminate].
  intros [= <-]. exists g, caps'. split; [reflexivity|].
  exact (proj2 (greedy_plus_class _ _ _ _ _ Hg)).
Qed.

Lemma js_match_first_group lit c p (s : string) caps :
  js_match (Lit lit :: Cap c Plus :: p) s = Some caps ->
  exists g caps', caps = g :: caps' /\ truthy g = true.
Proof.
  induction s as [|x s IH]; cbn [js_match].
  - destruct (match_here _ EmptyString) eqn:Hm; [|discriminate].
    intros [= <-]. exact (match_here_first_group _ _ _ _ _ Hm).
  - destruct (match_here _ (String x s)) eqn:Hm.
    + intros [= <-]. exact (match_here_first_group _ _ _ _ _ Hm).
    + exact IH.
Qed.

End DecodingFacts.

Section DecodedRecords.
Import JsString.

Lemma groups_exclude_quote_replacement :
  Forall (fun item => match item with Cap x _ => x = QUOTE | Lit _ => True end)
         REPLACEMENT_RE.
Proof. repeat constructor. Qed.

Lemma groups_exclude_quote_tuple4 :
  Forall (fun item => match item with Cap x _ => x = QUOTE | Lit _ => True end)
         TUPLE4_RE.
Proof. repeat constructor. Qed.

Lemma groups_exclude_quote_tuple3 :
  Forall (fun item => match item with Cap x _ => x = QUOTE | Lit _ => True end)
         TUPLE3_RE.
Proof. repeat constructor. Qed.

Lemma groups_exclude_quote_tuple2 :
  Forall (fun item => match item with Cap x _ => x = QUOTE | Lit _ => True end)
         TUPLE2_RE.
Proof. repeat constructor. Qed.

Ltac groups_inv H :=
  repeat match type of H with
         | Forall _ (_ :: _) =>
             let Hq := fresh "Hq" in
             let Hs := fresh "Hs" in
             let Hr := fresh "Hr" in
             inversion H as [|? ? [Hq Hs] Hr]; subst; clear H; rename Hr into H
         end.

Lemma replacement_of_segment_wf (seg : string) (r : StackReplacement) :
  semicolon_free seg ->
  replacement_of_segment seg = Some r ->
  well_formed_record sr_identifier replacement_texts r.
Proof.
  intros Hseg. unfold replacement_of_segment.
  destruct (js_match REPLACEMENT_RE seg) as [caps|] eqn:Hm; [|discriminate].
  pose proof (js_match_groups QUOTE SEMICOLON _ _ _
                groups_exclude_quote_replacement Hseg Hm) as Hg.
  destruct (js_match_first_group _ _ _ _ _ Hm) as (g & caps' & -> & Hne).
  destruct caps' as [|m2 [|m3 [|m4 [|m5 [|]]]]]; try discriminate.
  intros [= <-]. groups_inv Hg.
  unfold well_formed_record, plain_identifier, replacement_texts,
    quote_free, semicolon_free. simpl.
  repeat split; try assumption; repeat constructor; assumption.
Qed.

Lemma inspection_of_segment_wf (seg : string) (i : StackInspection) :
  semicolon_free seg ->
  inspection_of_segment seg = Some i ->
  well_formed_record si_identifier inspection_texts i.
Proof.
  intros Hseg. unfold inspection_of_segment.
  assert (Hold : match js_match TUPLE3_RE seg with
                 | Some [m1; m2; m3] =>
                     Some {| si_identifier := m1; si_serial_number := m2;
                             si_insight := m3; si_completed := false |}
                 | _ => None
                 end = Some i ->
                 well_formed_record si_identifier inspection_texts i).
  { destruct (js_match TUPLE3_RE seg) as [caps|] eqn:Hm; [|discriminate].
    pose proof (js_match_groups QUOTE SEMICOLON _ _ _
                  groups_exclude_quote_tuple3 Hseg Hm) as Hg.
    destruct (js_match_first_group _ _ _ _ _ Hm) as (g & caps' & -> & Hne).
    destruct caps' as [|m2 [|m3 [|]]]; try discriminate.
    intros [= <-]. groups_inv Hg.
    unfold well_formed_record, plain_identifier, inspection_texts,
      quote_free, semicolon_free. simpl.
    repeat split; try assumption; repeat constructor; assumption. }
  destruct (js_match TUPLE4_RE seg) as [caps|] eqn:Hm; [|exact Hold].
  pose proof (js_match_groups QUOTE SEMICOLON _ _ _
                groups_exclude_quote_tuple4 Hseg Hm) as Hg.
  destruct (js_match_first_group _ _ _ _ _ Hm) as (g & caps' & -> & Hne).
  destruct caps' as [|m2 [|m3 [|m4 [|]]]]; try exact Hold.
  intros [= <-]. groups_inv Hg.
  unfold well_formed_record, plain_identifier, inspection_texts,
    quote_free, semicolon_free. simpl.
  repeat split; try assumption; repeat constructor; assumption.
Qed.

Lemma tensioning_of_segment_wf (seg : string) (t : StackTensioning) :
  semicolon_free seg ->
  tensioning_of_segment seg = Some t ->
  well_formed_record st_identifier tensioning_texts t.
Proof.
  intros Hseg. unfold tensioning_of_segment.
  destruct (js_match TUPLE4_RE seg) as [caps|] eqn:Hm; [|discriminate].
  pose proof (js_match_groups QUOTE SEMICOLON _ _ _
                groups_exclude_quote_tuple4 Hseg Hm) as Hg.
  destruct (js_match_first_group _ _ _ _ _ Hm) as (g & caps' & -> & Hne).
  destruct caps' as [|m2 [|m3 [|m4 [|]]]]; try discriminate.
  intros [= <-]. groups_inv Hg.
  unfold well_formed_record, plain_identifier, tensioning_texts,
    quote_free, semicolon_free. simpl.
  repeat split; try assumption; repeat constructor; assumption.
Qed.

Lemma install_of_segment_wf (seg : string) (i : StackInstall) :
  semicolon_free seg ->
  install_of_segment seg = Some i ->
  well_formed_record sn_identifier install_texts i.
Proof.
  intros Hseg. unfold install_of_segment.
  destruct (js_match TUPLE2_RE seg) as [caps|] eqn:Hm; [|discriminate].
  pose proof (js_match_groups QUOTE SEMICOLON _ _ _
                groups_exclude_quote_tuple2 Hseg Hm) as Hg.
  destruct (js_match_first_group _ _ _ _ _ Hm) as (g & caps' & -> & Hne).
  destruct caps' as [|m2 [|]]; try discriminate.
  intros [= <-]. groups_inv Hg.
  unfold well_formed_record, plain_identifier, install_texts,
    quote_free, semicolon_free. simpl.
  repeat split; try assumption; repeat constructor; assumption.
Qed.

Lemma parse_with_wf {A : Type} (of_segment : string -> option A)
    (P : A -> Prop) (raw : Nullable string) :
  (forall seg r, semicolon_free seg -> of_segment seg = Some r -> P r) ->
  Forall P (parse_with of_segment raw).
Proof.
  intros Hseg. destruct raw as [| |s]; try constructor.
  rewrite parse_with_segments. pose proof (segments_free s) as Hfree.
  induction Hfree as [|seg segs Hs _ IH]; [constructor|].
  change (omap of_segment (seg :: segs))
    with (match of_segment seg with
          | Some y => y :: omap of_segment segs
          | None => omap of_segment segs
          end).
  destruct (of_segment seg) as [r|] eqn:Hr; [|exact IH].
  constructor; [exact (Hseg _ _ Hs Hr) | exact IH].
Qed.

Lemma parse_with_normal {A : Type} (id : A -> string) (texts : A -> list string)
    (tuple : A -> string) (of_segment : string -> option A)
    (raw : Nullable string) :
  (forall seg r, semicolon_free seg -> of_segment seg = Some r ->
                 well_formed_record id texts r) ->
  (forall r, well_formed_record id texts r ->
             semicolon_free (tuple r) /\ nonblank (tuple r) = true
             /\ of_segment (tuple r) = Some r) ->
  parse_with of_segment (Val (serialize_with tuple (parse_with of_segment raw)))
  = parse_with of_segment raw.
Proof.
  intros Hwf Hok. apply parse_serialize.
  pose proof (parse_with_wf of_segment _ raw Hwf) as Hall.
  induction Hall as [|r l Hr _ IH]; constructor; [now apply Hok | exact IH].
Qed.

End DecodedRecords.

(** X1.  Decoding distributes over the separator: for any two strings,
    the list decoded from their concatenation with a semicolon in between
    is the list decoded from the first followed by the list decoded from
    the second. *)
Theorem decoding_is_segment_wise (a b : string) :
  parseStackReplacements (Val (a +:+ ";" +:+ b))
  = (parseStackReplacements (Val a) ++ parseStackReplacements (Val b))%list
  /\ parseStackInspections (Val (a +:+ ";" +:+ b))
     = (parseStackInspections (Val a) ++ parseStackInspections (Val b))%list
  /\ parseStackTensioning (Val (a +:+ ";" +:+ b))
     = (parseStackTensioning (Val a) ++ parseStackTensioning (Val b))%list
  /\ parseStackInstalls (Val (a +:+ ";" +:+ b))
     = (parseStackInstalls (Val a) ++ parseStackInstalls (Val b))%list.
Proof. repeat split; apply parse_with_app. Qed.

(** X2.  Whatever the input, every sub-record a parser returns has a
    non-empty identifier, and neither its identifier nor any of its text
    fields contains a single quote or a semicolon. *)
Theorem decoded_records_are_well_formed (raw : Nullable string) :
  (forall r, In r (parseStackReplacements raw) ->
             well_formed_record sr_identifier replacement_texts r)
  /\ (forall i, In i (parseStackInspections raw) ->
                well_formed_record si_identifier inspection_texts i)
  /\ (forall t, In t (parseStackTensioning raw) ->
                well_formed_record st_identifier tensioning_texts t)
  /\ (forall i, In i (parseStackInstalls raw) ->
                well_formed_record sn_identifier install_texts i).
Proof.
  split; [|split; [|split]]; intros r Hin.
  - pose proof (parse_with_wf _ _ raw replacement_of_segment_wf) as H.
    rewrite List.Forall_forall in H. now apply H.
  - pose proof (parse_with_wf _ _ raw inspection_of_segment_wf) as H.
    rewrite List.Forall_forall in H. now apply H.
  - pose proof (parse_with_wf _ _ raw tensioning_of_segment_wf) as H.
    rewrite List.Forall_forall in H. now apply H.
  - pose proof (parse_with_wf _ _ raw install_of_segment_wf) as H.
    rewrite List.Forall_forall in H. now apply H.
Qed.

Lemma decoded_records_are_well_formed_witness :
  In {| si_identifier := "zz"; si_serial_number := "S(1)";
        si_insight := EmptyString; si_completed := false |}
     (parseStackInspections (Val "junk('zz','S(1)','','no')x; ('q','2"))
  /\ well_formed_record si_identifier inspection_texts
       {| si_identifier := "zz"; si_serial_number := "S(1)";
          si_insight := EmptyString; si_completed := false |}.
Proof.
  assert (Hin : In {| si_identifier := "zz"; si_serial_number := "S(1)";
                      si_insight := EmptyString; si_completed := false |}
                   (parseStackInspections
                      (Val "junk('zz','S(1)','','no')x; ('q','2")))
    by (vm_compute; left; reflexivity).
  split; [exact Hin|].
  exact (proj1 (proj2 (decoded_records_are_well_formed _)) _ Hin).
Defined.

(** X3.  Re-encoding normalises: for every stored string, decoding the
    encoding of the decoded list gives the decoded list again (legacy
    tuples come back in the four-field format, junk is gone). *)
Theorem reencoding_preserves_decoded_list (raw : Nullable string) :
  parseStackReplacements (Val (serializeStackReplacements (parseStackReplacements raw)))
  = parseStackReplacements raw
  /\ parseStackInspections (Val (serializeStackInspections (parseStackInspections raw)))
     = parseStackInspections raw
  /\ parseStackTensioning (Val (serializeStackTensioning (parseStackTensioning raw)))
     = parseStackTensioning raw
  /\ parseStackInstalls (Val (serializeStackInstalls (parseStackInstalls raw)))
     = parseStackInstalls raw.
Proof.
  split; [|split; [|split]].
  - exact (parse_with_normal _ _ _ _ raw replacement_of_segment_wf
             replacement_record_ok).
  - exact (parse_with_normal _ _ _ _ raw inspection_of_segment_wf
             inspection_record_ok).
  - exact (parse_with_normal _ _ _ _ raw tensioning_of_segment_wf
             tensioning_record_ok).
  - exact (parse_with_normal _ _ _ _ raw install_of_segment_wf
             install_record_ok).
Qed.

(** ** Tag lists *)

Lemma mapM_length {A B : Type} (f : A -> Outcome B) (l : list A) (r : list B) :
  mapM f l = Ok r -> length r = length l.
Proof.
  revert r; induction l as [|a l IH]; intros r; simpl.
  - now intros [= <-].
  - destruct (f a); simpl; [|discriminate].
    destruct (mapM f l) as [bs|]; simpl; [|discriminate].
    intros [= <-]. simpl. now rewrite (IH bs).
Qed.

(** X4.  Serializing the tag list of a Calibration or Settings change
    form throws exactly when the submitted tag_numbers is an array that
    holds a null or undefined item; otherwise it yields the single field
    tag_numbers: null when the form has no array, else a list with one
    entry per submitted item, strings unchanged and the tag_number of
    each object. *)
Theorem tag_list_serialization (form : JsObject) (helpers : CategoryFormHelpers) :
  serializeFormValue settingsChange form helpers
  = serializeFormValue calibration form helpers
  /\ (serializeFormValue calibration form helpers = Throw
      <-> exists items, Js.get form "tag_numbers" = JArr items
                        /\ Exists (fun item => item = JNull \/ item = JUndefined) items)
  /\ (Js.is_array (Js.get form "tag_numbers") = false ->
      serializeFormValue calibration form helpers = Ok {[ "tag_numbers" := JNull ]})
  /\ (forall items fields,
         Js.get form "tag_numbers" = JArr items ->
         serializeFormValue calibration form helpers = Ok fields ->
         exists tags, fields = {[ "tag_numbers" := JArr tags ]}
                      /\ length tags = length items
                      /\ forall n item, items !! n = Some item ->
                           tags !! n = Some (match item with
                                             | JStr s => JStr s
                                             | other => Js.get_prop other "tag_number"
                                             end)).
Proof.
  split; [reflexivity|]. simpl. unfold serialize_tag_numbers.
  split; [|split].
  - split.
    + destruct (Js.get form "tag_numbers") as [| | | | | |items|]; try discriminate.
      destruct (mapM tag_of_item items) eqn:Hm; simpl; [discriminate|].
      intros _. exists items. split; [reflexivity | now apply mapM_tag_throws].
    + intros (items & -> & Hex). apply mapM_tag_throws in Hex. now rewrite Hex.
  - now destruct (Js.get form "tag_numbers").
  - intros items fields ->.
    destruct (mapM tag_of_item items) as [tags|] eqn:Hm; simpl; [|discriminate].
    intros [= <-]. exists tags. split; [reflexivity|].
    split; [exact (mapM_length _ _ _ Hm)|].
    clear form. revert tags Hm.
    induction items as [|x items IH]; intros tags Hm n item Hn; [discriminate|].
    simpl in Hm. destruct (tag_of_item x) as [t|] eqn:Ht; simpl in Hm; [|discriminate].
    destruct (mapM tag_of_item items) as [ts|] eqn:Hts; simpl in Hm; [|discriminate].
    injection Hm as <-. destruct n as [|n]; simpl in *.
    + injection Hn as <-. f_equal.
      destruct x; simpl in Ht; try discriminate; now injection Ht as <-.
    + exact (IH ts eq_refl n item Hn).
Qed.

(** ** The registry *)

Lemma foldl_insert_lookup_key (l : list CategoryConfig)
    (m : gmap string CategoryConfig) (k : string) (c : CategoryConfig) :
  (forall k' c', m !! k' = Some c' -> value c' = k') ->
  foldl (fun m c => <[value c := c]> m) m l !! k = Some c -> value c = k.
Proof.
  revert m; induction l as [|x l IH]; intros m Hm; simpl; [apply Hm|].
  apply IH. intros k' c'. destruct (decide (value x = k')) as [<-|Hne].
  - rewrite lookup_insert_eq. now intros [= <-].
  - rewrite lookup_insert_ne by exact Hne. apply Hm.
Qed.

Lemma foldl_insert_lookup_fresh (l : list CategoryConfig)
    (m : gmap string CategoryConfig) (k : string) :
  ~ In k (map value l) ->
  foldl (fun m c => <[value c := c]> m) m l !! k = m !! k.
Proof.
  revert m; induction l as [|x l IH]; intros m Hk; simpl; [reflexivity|].
  rewrite IH by (intros Hin; apply Hk; now right).
  apply lookup_insert_ne. intros He. apply Hk. now left.
Qed.

Lemma foldl_insert_lookup_In (l : list CategoryConfig)
    (m : gmap string CategoryConfig) (c : CategoryConfig) :
  List.NoDup (map value l) -> In c l ->
  foldl (fun m c => <[value c := c]> m) m l !! value c = Some c.
Proof.
  revert m; induction l as [|x l IH]; intros m Hnd Hin; [destruct Hin|].
  simpl in Hnd. inversion Hnd as [|? ? Hx Hl]; subst.
  destruct Hin as [->|Hin]; simpl.
  - rewrite foldl_insert_lookup_fresh by exact Hx. apply lookup_insert_eq.
  - now apply IH.
Qed.

Lemma registered_values_NoDup : List.NoDup (map value CATEGORY_CONFIGS).
Proof.
  apply NoDup_ListNoDup. vm_compute. repeat (apply NoDup_cons_2; [|]).
  all: try apply NoDup_nil_2.
  all: rewrite ?list_elem_of_In; simpl; intros H;
    repeat (destruct H as [H|H]; [discriminate H|]); exact H.
Qed.

Lemma registered_value_truthy (c : CategoryConfig) :
  In c CATEGORY_CONFIGS -> JsString.truthy (value c) = true.
Proof.
  unfold CATEGORY_CONFIGS. simpl.
  intros [<-|[<-|[<-|[<-|[<-|[<-|[<-|[<-|[]]]]]]]]]; reflexivity.
Qed.

Lemma registered_lookup (c : CategoryConfig) :
  In c CATEGORY_CONFIGS -> getCategoryConfig (JStr (value c)) = Some c.
Proof.
  intros Hin. unfold getCategoryConfig. cbn [Js.truthy].
  rewrite (registered_value_truthy c Hin).
  exact (foldl_insert_lookup_In _ _ _ registered_values_NoDup Hin).
Qed.

Lemma registered_label_truthy (c : CategoryConfig) :
  In c CATEGORY_CONFIGS -> JsString.truthy (label c) = true.
Proof.
  unfold CATEGORY_CONFIGS. simpl.
  intros [<-|[<-|[<-|[<-|[<-|[<-|[<-|[<-|[]]]]]]]]]; reflexivity.
Qed.

Lemma display_label_registered (noteCategory : JsVal) (c : CategoryConfig) :
  getCategoryConfig noteCategory = Some c ->
  getCategoryDisplayLabel noteCategory = JStr (label c).
Proof.
  intros Hc. unfold getCategoryDisplayLabel. rewrite Hc.
  pose proof (registered_label_truthy c (getCategoryConfig_registered _ _ Hc)) as Ht.
  unfold Js.or. simpl. rewrite Ht. simpl. now rewrite Ht.
Qed.

(** X5.  [getCategoryConfig] finds a configuration exactly for the
    eight registered keys: a configuration it returns is registered and its
    value is the key asked for, every registered configuration is found
    under its own value, and null, undefined and the empty string find
    nothing. *)
Theorem category_lookup_is_exact :
  (forall category c,
      getCategoryConfig category = Some c ->
      category = JStr (value c) /\ In c CATEGORY_CONFIGS)
  /\ (forall c, In c CATEGORY_CONFIGS -> getCategoryConfig (JStr (value c)) = Some c)
  /\ getCategoryConfig JNull = None
  /\ getCategoryConfig JUndefined = None
  /\ getCategoryConfig (JStr EmptyString) = None.
Proof.
  split; [|split; [|repeat split; reflexivity]].
  - intros category c H. split; [|exact (getCategoryConfig_registered _ _ H)].
    unfold getCategoryConfig in H. destruct (Js.truthy category); [|discriminate].
    destruct category; try discriminate. f_equal. symmetry.
    refine (foldl_insert_lookup_key _ _ _ _ _ H).
    intros k' c' Hl. now rewrite lookup_empty in Hl.
  - exact registered_lookup.
Qed.

(** X6.  [getCategoryDisplayLabel] never fails and never returns an
    empty label: it gives the label of a registered category, the raw key
    of an unregistered one, and "Uncategorized" for null, undefined or the
    empty string. *)
Theorem display_label_fallbacks (noteCategory : JsVal) :
  (forall c, getCategoryConfig noteCategory = Some c ->
             getCategoryDisplayLabel noteCategory = JStr (label c))
  /\ (getCategoryConfig noteCategory = None -> Js.truthy noteCategory = true ->
      getCategoryDisplayLabel noteCategory = noteCategory)
  /\ (Js.truthy noteCategory = false ->
      getCategoryDisplayLabel noteCategory = JStr "Uncategorized")
  /\ Js.truthy (getCategoryDisplayLabel noteCategory) = true.
Proof.
  assert (H1 : forall c, getCategoryConfig noteCategory = Some c ->
                         getCategoryDisplayLabel noteCategory = JStr (label c)).
  { exact (display_label_registered noteCategory). }
  assert (H2 : getCategoryConfig noteCategory = None -> Js.truthy noteCategory = true ->
               getCategoryDisplayLabel noteCategory = noteCategory).
  { intros Hc Ht. unfold getCategoryDisplayLabel. rewrite Hc.
    unfold Js.or. simpl. now rewrite Ht. }
  assert (H3 : Js.truthy noteCategory = false ->
               getCategoryDisplayLabel noteCategory = JStr "Uncategorized").
  { intros Ht. unfold getCategoryDisplayLabel, getCategoryConfig. rewrite Ht.
    unfold Js.or. simpl. now rewrite Ht. }
  repeat split; try assumption.
  destruct (getCategoryConfig noteCategory) as [c|] eqn:Hc.
  - rewrite (H1 c eq_refl). simpl.
    exact (registered_label_truthy c (getCategoryConfig_registered _ _ Hc)).
  - destruct (Js.truthy noteCategory) eqn:Ht.
    + now rewrite (H2 eq_refl eq_refl).
    + now rewrite (H3 eq_refl).
Qed.

(** X7.  Every option that [getCategoryOptions] offers resolves through
    [getCategoryConfig] to a registered configuration with the same label,
    which is not internal-only when the user has basic access; and the
    options of basic access are those of elevated access with some left
    out, in the same order. *)
Theorem category_options_resolve (isPlugPowerUser : bool) (o : CategoryOption) :
  In o (getCategoryOptions isPlugPowerUser) ->
  (exists c, getCategoryConfig (JStr (opt_value o)) = Some c
             /\ In c CATEGORY_CONFIGS
             /\ opt_label o = label c
             /\ getCategoryDisplayLabel (JStr (opt_value o)) = JStr (opt_label o)
             /\ (isPlugPowerUser = false -> internalOnly c = false))
  /\ In o (getCategoryOptions true)
  /\ sublist (getCategoryOptions false) (getCategoryOptions true).
Proof.
  intros Hin. split; [|split].
  - unfold getCategoryOptions in Hin. apply in_map_iff in Hin as (c & <- & Hc).
    apply List.filter_In in Hc as (Hc & Hvisible).
    exists c. cbn [opt_value opt_label].
    pose proof (registered_lookup c Hc) as Hlookup.
    split; [exact Hlookup|]. split; [exact Hc|]. split; [reflexivity|].
    split; [exact (display_label_registered _ c Hlookup)|].
    intros ->. simpl in Hvisible. now destruct (internalOnly c).
  - unfold getCategoryOptions in *. apply in_map_iff in Hin as (c & <- & Hc).
    apply List.filter_In in Hc as (Hc & _).
    apply in_map_iff. exists c. split; [reflexivity|].
    apply List.filter_In. split; [exact Hc | reflexivity].
  - unfold getCategoryOptions. apply fmap_sublist.
    generalize CATEGORY_CONFIGS. intros l.
    induction l as [|c l IH]; simpl; [constructor|].
    destruct (internalOnly c); simpl.
    + now apply sublist_cons.
    + now apply sublist_skip.
Qed.

Lemma category_options_resolve_witness :
  In {| opt_value := "Stack inspection"; opt_label := "Stack visual inspection" |}
     (getCategoryOptions true)
  /\ getCategoryDisplayLabel (JStr "Stack inspection")
     = JStr "Stack visual inspection".
Proof.
  assert (Hin : In {| opt_value := "Stack inspection";
                      opt_label := "Stack visual inspection" |}
                   (getCategoryOptions true)) by (simpl; tauto).
  split; [exact Hin|].
  destruct (category_options_resolve true _ Hin) as ((c & _ & _ & _ & Hl & _) & _).
  exact Hl.
Defined.

(** ** Stack identifiers and extraction *)

Lemma getStackIdentifiers_prefix (stackCount : Z) :
  exists rest, ALL_STACK_IDENTIFIERS = (getStackIdentifiers stackCount ++ rest)%list.
Proof.
  unfold getStackIdentifiers, slice_to. eexists. symmetry. apply firstn_skipn.
Qed.

(** X8.  [getStackIdentifiers] always returns a prefix of a..e, never
    more than five identifiers: the first [stackCount] of them for a count
    between 0 and 5, all five for a larger count, and, a negative count
    being counted from the end, all but the last [-stackCount] for a
    negative one. *)
Theorem stack_identifiers_are_a_prefix (stackCount : Z) :
  (exists rest, ALL_STACK_IDENTIFIERS = (getStackIdentifiers stackCount ++ rest)%list)
  /\ length (getStackIdentifiers stackCount) <= 5
  /\ ((0 <= stackCount <= 5)%Z ->
      length (getStackIdentifiers stackCount) = Z.to_nat stackCount)
  /\ ((5 <= stackCount)%Z -> getStackIdentifiers stackCount = ALL_STACK_IDENTIFIERS)
  /\ ((-5 <= stackCount < 0)%Z ->
      length (getStackIdentifiers stackCount) = Z.to_nat (5 + stackCount))
  /\ ((stackCount <= -5)%Z -> getStackIdentifiers stackCount = []).
Proof.
  unfold getStackIdentifiers, slice_to.
  change (Z.of_nat (length ALL_STACK_IDENTIFIERS)) with 5%Z.
  split; [|split; [|split; [|split; [|split]]]].
  - eexists. symmetry. apply firstn_skipn.
  - rewrite length_firstn. simpl length. lia.
  - intros H. rewrite length_firstn.
    destruct (Z.ltb_spec stackCount 0); [lia|]. simpl length. lia.
  - intros H. destruct (Z.ltb_spec stackCount 0); [lia|].
    rewrite Z.min_r by lia. reflexivity.
  - intros H. rewrite length_firstn.
    destruct (Z.ltb_spec stackCount 0); [|lia]. simpl length. lia.
  - intros H. destruct (Z.ltb_spec stackCount 0); [|lia].
    rewrite Z.max_r by lia. reflexivity.
Qed.

Section ExtractionShape.
Context {A : Type} (of_form : string -> option A) (idf : A -> string).
Hypothesis of_form_id : forall x r, of_form x = Some r -> idf r = x.

Lemma omap_ids_sublist (l : list string) :
  sublist (map idf (omap of_form l)) l.
Proof.
  induction l as [|x l IH]; [constructor|].
  change (omap of_form (x :: l))
    with (match of_form x with
          | Some y => y :: omap of_form l
          | None => omap of_form l
          end).
  destruct (of_form x) as [r|] eqn:Hr.
  - simpl. rewrite (of_form_id _ _ Hr). now apply sublist_skip.
  - now apply sublist_cons.
Qed.
End ExtractionShape.

(** X9.  Whatever the form holds, the identifiers of the extracted
    sub-records are active stack identifiers, each at most once and in the
    order a..e: their list is a sublist of [getStackIdentifiers]. *)
Theorem extracted_identifiers_are_ordered (form : JsObject) (stackCount : Z) :
  sublist (map sr_identifier (extractStackReplacementsFromForm form stackCount))
          (getStackIdentifiers stackCount)
  /\ sublist (map si_identifier (extractStackInspectionsFromForm form stackCount))
             (getStackIdentifiers stackCount)
  /\ sublist (map st_identifier (extractStackTensioningFromForm form stackCount))
             (getStackIdentifiers stackCount)
  /\ sublist (map sn_identifier (extractStackInstallsFromForm form stackCount))
             (getStackIdentifiers stackCount).
Proof.
  split; [|split; [|split]].
  - exact (omap_ids_sublist _ _ (replacement_of_form_id form) _).
  - exact (omap_ids_sublist _ _ (inspection_of_form_id form) _).
  - exact (omap_ids_sublist _ _ (tensioning_of_form_id form) _).
  - exact (omap_ids_sublist _ _ (install_of_form_id form) _).
Qed.

Lemma extracted_identifiers_unique {A : Type} (idf : A -> string) (items : list A)
    (stackCount : Z) :
  sublist (map idf items) (getStackIdentifiers stackCount) ->
  List.NoDup (map idf items)
  /\ Forall (fun r => is_stack_identifier (idf r)) items.
Proof.
  intros Hsub. split.
  - apply NoDup_ListNoDup. eapply sublist_NoDup; [|exact Hsub].
    apply NoDup_ListNoDup. apply getStackIdentifiers_NoDup.
  - apply List.Forall_forall. intros r Hr. unfold is_stack_identifier.
    destruct (getStackIdentifiers_prefix stackCount) as (rest & Hrest).
    rewrite Hrest. apply List.in_or_app. left.
    apply list_elem_of_In. eapply elem_of_sublist; [|exact Hsub].
    apply list_elem_of_In. now apply List.in_map.
Qed.

Lemma extracted_well_formed {A : Type} (idf : A -> string)
    (texts : A -> list string) (items : list A) (stackCount : Z) :
  sublist (map idf items) (getStackIdentifiers stackCount) ->
  clean_texts texts items ->
  well_formed idf texts items.
Proof.
  intros Hsub Hclean.
  destruct (extracted_identifiers_unique idf items stackCount Hsub) as [Hnd Hids].
  unfold well_formed, well_formed_as_stated, clean_texts in *.
  rewrite List.Forall_forall in Hclean, Hids.
  repeat split; try exact Hnd; apply List.Forall_forall; intros r Hr.
  - split; [now apply Hids | now apply Hclean].
  - now apply Hclean.
Qed.

Lemma validation_error_require {A : Type} (c : CategoryConfig)
    (check : JsObject -> CategoryFormHelpers -> option string)
    (items : list A) (message : string) (form : JsObject)
    (helpers : CategoryFormHelpers) :
  validate c = Some check ->
  check form helpers = require_items items message ->
  JsString.truthy message = true ->
  (validation_error (Some c) form helpers = None <-> items <> [])
  /\ (items = [] -> validation_error (Some c) form helpers = Some message).
Proof.
  intros Hv Hc Hm. unfold validation_error. rewrite Hv, Hc.
  destruct items; simpl; [rewrite Hm|]; split; try split;
    try discriminate; try reflexivity; try congruence.
Qed.

(** X10.  For each stack category, validation rejects exactly the forms
    from which no sub-record is extracted; and when validation passes and
    the extracted text fields hold no single quote and no semicolon, the
    category stores a string that decodes to exactly the extracted
    sub-records. *)
Theorem stored_field_decodes_to_extraction (form : JsObject)
    (helpers : CategoryFormHelpers) :
  ((validation_error (Some stackReplacements) form helpers = None
    <-> extractStackReplacementsFromForm form (getStackCount helpers) <> [])
   /\ (validation_error (Some stackReplacements) form helpers = None ->
       clean_texts replacement_texts
         (extractStackReplacementsFromForm form (getStackCount helpers)) ->
       exists fields s,
         serializeFormValue stackReplacements form helpers = Ok fields
         /\ fields !! "stack_replacements" = Some (JStr s)
         /\ parseStackReplacements (Val s)
            = extractStackReplacementsFromForm form (getStackCount helpers)))
  /\ ((validation_error (Some stackInspection) form helpers = None
       <-> extractStackInspectionsFromForm form (getStackCount helpers) <> [])
      /\ (validation_error (Some stackInspection) form helpers = None ->
          clean_texts inspection_texts
            (extractStackInspectionsFromForm form (getStackCount helpers)) ->
          exists fields s,
            serializeFormValue stackInspection form helpers = Ok fields
            /\ fields !! "stack_inspections" = Some (JStr s)
            /\ parseStackInspections (Val s)
               = extractStackInspectionsFromForm form (getStackCount helpers)))
  /\ ((validation_error (Some stackTensioning) form helpers = None
       <-> extractStackTensioningFromForm form (getStackCount helpers) <> [])
      /\ (validation_error (Some stackTensioning) form helpers = None ->
          clean_texts tensioning_texts
            (extractStackTensioningFromForm form (getStackCount helpers)) ->
          exists fields s,
            serializeFormValue stackTensioning form helpers = Ok fields
            /\ fields !! "stack_tensioning" = Some (JStr s)
            /\ parseStackTensioning (Val s)
               = extractStackTensioningFromForm form (getStackCount helpers)))
  /\ ((validation_error (Some stackInstalls) form helpers = None
       <-> extractStackInstallsFromForm form (getStackCount helpers) <> [])
      /\ (validation_error (Some stackInstalls) form helpers = None ->
          clean_texts install_texts
            (extractStackInstallsFromForm form (getStackCount helpers)) ->
          exists fields s,
            serializeFormValue stackInstalls form helpers = Ok fields
            /\ fields !! "stack_installs" = Some (JStr s)
            /\ parseStackInstalls (Val s)
               = extractStackInstallsFromForm form (getStackCount helpers))).
Proof.
  pose proof (omap_ids_sublist _ _ (replacement_of_form_id form)
                (getStackIdentifiers (getStackCount helpers))) as Sr.
  pose proof (omap_ids_sublist _ _ (inspection_of_form_id form)
                (getStackIdentifiers (getStackCount helpers))) as Si.
  pose proof (omap_ids_sublist _ _ (tensioning_of_form_id form)
                (getStackIdentifiers (getStackCount helpers))) as St.
  pose proof (omap_ids_sublist _ _ (install_of_form_id form)
                (getStackIdentifiers (getStackCount helpers))) as Sn.
  split; [|split; [|split]].
  - destruct (validation_error_require stackReplacements _
                (extractStackReplacementsFromForm form (getStackCount helpers))
                _ form helpers eq_refl eq_refl eq_refl) as [Hiff _].
    split; [exact Hiff|]. intros Hv Hclean. apply Hiff in Hv.
    assert (Hrt : parseStackReplacements
                    (Val (serializeStackReplacements
                            (extractStackReplacementsFromForm form (getStackCount helpers))))
                  = extractStackReplacementsFromForm form (getStackCount helpers))
      by exact (roundtrip_with _ _ _ _ replacement_record_ok _
                  (extracted_well_formed _ _ _ _ Sr Hclean)).
    cbn [serializeFormValue stackReplacements].
    destruct (extractStackReplacementsFromForm form (getStackCount helpers))
      as [|r items]; [contradiction|].
    eexists _, _. split; [reflexivity|].
    split; [rewrite lookup_insert_ne by discriminate; apply lookup_singleton_eq | exact Hrt].
  - destruct (validation_error_require stackInspection _
                (extractStackInspectionsFromForm form (getStackCount helpers))
                _ form helpers eq_refl eq_refl eq_refl) as [Hiff _].
    split; [exact Hiff|]. intros Hv Hclean. apply Hiff in Hv.
    assert (Hrt : parseStackInspections
                    (Val (serializeStackInspections
                            (extractStackInspectionsFromForm form (getStackCount helpers))))
                  = extractStackInspectionsFromForm form (getStackCount helpers))
      by exact (roundtrip_with _ _ _ _ inspection_record_ok _
                  (extracted_well_formed _ _ _ _ Si Hclean)).
    cbn [serializeFormValue stackInspection].
    destruct (extractStackInspectionsFromForm form (getStackCount helpers))
      as [|r items]; [contradiction|].
    eexists _, _. split; [reflexivity|].
    split; [apply lookup_singleton_eq | exact Hrt].
  - destruct (validation_error_require stackTensioning _
                (extractStackTensioningFromForm form (getStackCount helpers))
                _ form helpers eq_refl eq_refl eq_refl) as [Hiff _].
    split; [exact Hiff|]. intros Hv Hclean. apply Hiff in Hv.
    assert (Hrt : parseStackTensioning
                    (Val (serializeStackTensioning
                            (extractStackTensioningFromForm form (getStackCount helpers))))
                  = extractStackTensioningFromForm form (getStackCount helpers))
      by exact (roundtrip_with _ _ _ _ tensioning_record_ok _
                  (extracted_well_formed _ _ _ _ St Hclean)).
    cbn [serializeFormValue stackTensioning].
    destruct (extractStackTensioningFromForm form (getStackCount helpers))
      as [|r items]; [contradiction|].
    eexists _, _. split; [reflexivity|].
    split; [apply lookup_singleton_eq | exact Hrt].
  - destruct (validation_error_require stackInstalls _
                (extractStackInstallsFromForm form (getStackCount helpers))
                _ form helpers eq_refl eq_refl eq_refl) as [Hiff _].
    split; [exact Hiff|]. intros Hv Hclean. apply Hiff in Hv.
    assert (Hrt : parseStackInstalls
                    (Val (serializeStackInstalls
                            (extractStackInstallsFromForm form (getStackCount helpers))))
                  = extractStackInstallsFromForm form (getStackCount helpers))
      by exact (roundtrip_with _ _ _ _ install_record_ok _
                  (extracted_well_formed _ _ _ _ Sn Hclean)).
    cbn [serializeFormValue stackInstalls].
    destruct (extractStackInstallsFromForm form (getStackCount helpers))
      as [|r items]; [contradiction|].
    eexists _, _. split; [reflexivity|].
    split; [apply lookup_singleton_eq | exact Hrt].
Qed.

Lemma stored_field_decodes_to_extraction_witness :
  validation_error (Some stackInstalls) installs_form three_stacks = None
  /\ clean_texts install_texts (extractStackInstallsFromForm installs_form 3)
  /\ exists fields s,
       serializeFormValue stackInstalls installs_form three_stacks = Ok fields
       /\ fields !! "stack_installs" = Some (JStr s)
       /\ parseStackInstalls (Val s) = extractStackInstallsFromForm installs_form 3.
Proof.
  assert (Hv : validation_error (Some stackInstalls) installs_form three_stacks = None)
    by reflexivity.
  assert (Hc : clean_texts install_texts (extractStackInstallsFromForm installs_form 3))
    by (vm_compute; repeat constructor).
  split; [exact Hv|]. split; [exact Hc|].
  destruct (stored_field_decodes_to_extraction installs_form three_stacks)
    as (_ & _ & _ & _ & Hn).
  exact (Hn Hv Hc).
Defined.

(** ** Edit initial values *)

Section FillGroups.
Context {A : Type} (prefix : string) (idf : A -> string) (group : A -> JsObject).

Lemma fill_groups_other (initial : JsObject) (records : list A) (k : string) :
  (forall r, In r records -> prefix +:+ idf r <> k) ->
  fill_groups prefix idf group initial records !! k = initial !! k.
Proof.
  unfold fill_groups. revert initial.
  induction records as [|x records IH]; intros initial Hk; simpl; [reflexivity|].
  rewrite IH by (intros r Hr; apply Hk; now right).
  apply lookup_insert_ne. apply Hk. now left.
Qed.

Lemma fill_groups_absent (initial : JsObject) (records : list A) (id : string) :
  ~ In id (map idf records) ->
  fill_groups prefix idf group initial records !! (prefix +:+ id)
  = initial !! (prefix +:+ id).
Proof.
  intros Hid. apply fill_groups_other. intros r Hr Heq.
  apply (inj (String.app prefix)) in Heq. apply Hid. rewrite <- Heq.
  now apply List.in_map.
Qed.

Lemma fill_groups_member (initial : JsObject) (records : list A) (r : A) :
  List.NoDup (map idf records) ->
  In r records ->
  fill_groups prefix idf group initial records !! (prefix +:+ idf r)
  = Some (JObj (group r)).
Proof.
  unfold fill_groups. revert initial.
  induction records as [|x records IH]; intros initial Hnd Hin; [destruct Hin|].
  simpl in Hnd. inversion Hnd as [|? ? Hx Hnd']; subst. simpl.
  destruct Hin as [->|Hin].
  - pose proof (fill_groups_absent (<[prefix +:+ idf r := JObj (group r)]> initial)
                  records (idf r) Hx) as H.
    unfold fill_groups in H. rewrite H. apply lookup_insert_eq.
  - now apply IH.
Qed.

Context (of_form : JsObject -> string -> option A) (present : A -> bool).
Hypothesis read_group :
  forall form r, form !! (prefix +:+ idf r) = Some (JObj (group r)) ->
                 of_form form (idf r) = if present r then Some r else None.
Hypothesis read_nothing :
  forall form id, form !! (prefix +:+ id) = None -> of_form form id = None.

Lemma omap_selects (g : string -> option A) (ids : list string) :
  forall records,
    sublist (map idf records) ids ->
    List.NoDup ids ->
    (forall r, In r records -> g (idf r) = Some r) ->
    (forall id, In id ids -> ~ In id (map idf records) -> g id = None) ->
    omap g ids = records.
Proof.
  induction ids as [|y ids IH]; intros records Hsub Hnd Hsome Hnone.
  - apply sublist_nil_r in Hsub. now destruct records.
  - inversion Hnd as [|? ? Hy Hnd']; subst.
    change (omap g (y :: ids))
      with (match g y with Some r => r :: omap g ids | None => omap g ids end).
    apply sublist_cons_r in Hsub as [Hsub|(l' & Heq & Hsub)].
    + assert (Hyr : ~ In y (map idf records)).
      { intros Hin. apply Hy. apply list_elem_of_In.
        eapply elem_of_sublist; [|exact Hsub]. now apply list_elem_of_In. }
      rewrite (Hnone y (or_introl eq_refl) Hyr).
      apply IH; try assumption. intros id Hid. apply Hnone. now right.
    + destruct records as [|r records]; [discriminate|].
      simpl in Heq. injection Heq as Hr <-.
      rewrite <- Hr, (Hsome r (or_introl eq_refl)). f_equal.
      apply IH; try assumption.
      * intros r' Hr'. apply Hsome. now right.
      * intros id Hid Hnot. apply Hnone; [now right|].
        simpl. intros [Heq|Hin]; [|contradiction].
        apply Hy. now rewrite <- Hr, Heq.
Qed.

(** Extracting from the groups that [fill_groups] wrote gives the records
    back. *)
Lemma extract_filled_groups (initial : JsObject) (records : list A)
    (ids : list string) :
  (forall id, initial !! (prefix +:+ id) = None) ->
  List.NoDup ids ->
  sublist (map idf records) ids ->
  Forall (fun r => present r = true) records ->
  omap (of_form (fill_groups prefix idf group initial records)) ids = records.
Proof.
  intros Hinit Hnd Hsub Hpresent.
  assert (Hndr : List.NoDup (map idf records)).
  { apply NoDup_ListNoDup. eapply sublist_NoDup; [|exact Hsub].
    now apply NoDup_ListNoDup. }
  apply omap_selects; try assumption.
  - intros r Hr. rewrite (read_group _ r (fill_groups_member initial records r Hndr Hr)).
    rewrite List.Forall_forall in Hpresent. now rewrite (Hpresent r Hr).
  - intros id _ Hnot. apply read_nothing.
    rewrite (fill_groups_absent initial records id Hnot). apply Hinit.
Qed.

End FillGroups.

Section GroupReading.

Lemma append_length (a b : string) :
  String.length (a +:+ b) = String.length a + String.length b.
Proof. induction a as [|x a IH]; simpl; [reflexivity | now rewrite IH]. Qed.

Lemma text_of_stored (o : JsObject) (k s : string) :
  o !! k = Some (JStr s) ->
  Js.truthy (text_of (JObj o) k) = JsString.truthy s
  /\ Js.to_string (text_of (JObj o) k) = s.
Proof.
  intros H. unfold text_of, Js.get_prop, Js.get, Js.or. rewrite H. simpl.
  now destruct s.
Qed.

Lemma flag_of_stored (o : JsObject) (k : string) (b : bool) :
  o !! k = Some (JBool b) -> flag_of (JObj o) k = b.
Proof. intros H. unfold flag_of, Js.get_prop, Js.get. now rewrite H. Qed.

Lemma group_of_stored (form o : JsObject) (k : string) :
  form !! k = Some (JObj o) -> group_of form k = JObj o.
Proof. intros H. unfold group_of, Js.get, Js.or. now rewrite H. Qed.

Lemma symptom_keys_differ (id : string) :
  "stack_symptom_confirmed_" +:+ id <> "stack_symptom_" +:+ id.
Proof.
  change ("stack_symptom_confirmed_" +:+ id)
    with ("stack_symptom_" +:+ "confirmed_" +:+ id).
  intros H. apply (inj (String.app "stack_symptom_")) in H.
  apply (f_equal String.length) in H. rewrite append_length in H. simpl in H. lia.
Qed.

Lemma replacement_read_group (form : JsObject) (r : StackReplacement) :
  form !! ("stack_group_" +:+ sr_identifier r) = Some (JObj (replacement_group r)) ->
  replacement_of_form form (sr_identifier r)
  = if JsString.truthy (sr_removed_serial_number r)
       || JsString.truthy (sr_added_serial_number r)
    then Some r else None.
Proof.
  intros H. unfold replacement_of_form. rewrite (group_of_stored _ _ _ H).
  clear H. cbv zeta.
  assert (Hrem : replacement_group r
                 !! ("removed_serial_number_" +:+ sr_identifier r)
                 = Some (JStr (sr_removed_serial_number r))).
  { unfold replacement_group.
    rewrite !lookup_insert_ne by (simpl; discriminate).
    apply lookup_singleton_eq. }
  assert (Hadd : replacement_group r
                 !! ("added_serial_number_" +:+ sr_identifier r)
                 = Some (JStr (sr_added_serial_number r))).
  { unfold replacement_group.
    rewrite !lookup_insert_ne by (simpl; discriminate).
    apply lookup_insert_eq. }
  assert (Hsym : replacement_group r !! ("stack_symptom_" +:+ sr_identifier r)
                 = Some (JStr (sr_stack_symptom r))).
  { unfold replacement_group.
    rewrite lookup_insert_ne by apply symptom_keys_differ.
    apply lookup_insert_eq. }
  assert (Hcon : replacement_group r
                 !! ("stack_symptom_confirmed_" +:+ sr_identifier r)
                 = Some (JBool (sr_stack_symptom_confirmed r))).
  { unfold replacement_group. apply lookup_insert_eq. }
  destruct (text_of_stored _ _ _ Hrem) as [-> ->].
  destruct (text_of_stored _ _ _ Hadd) as [-> ->].
  destruct (text_of_stored _ _ _ Hsym) as [_ ->].
  rewrite (flag_of_stored _ _ _ Hcon). now destruct r.
Qed.

Lemma inspection_read_group (form : JsObject) (i : StackInspection) :
  form !! ("stack_group_inspection_" +:+ si_identifier i)
  = Some (JObj (inspection_group i)) ->
  inspection_of_form form (si_identifier i)
  = if JsString.truthy (si_serial_number i) || JsString.truthy (si_insight i)
    then Some i else None.
Proof.
  intros H. unfold inspection_of_form. rewrite (group_of_stored _ _ _ H).
  clear H. cbv zeta.
  assert (Hser : inspection_group i !! ("stack_serial_number_" +:+ si_identifier i)
                 = Some (JStr (si_serial_number i))).
  { unfold inspection_group.
    rewrite !lookup_insert_ne by (simpl; discriminate).
    apply lookup_singleton_eq. }
  assert (Hins : inspection_group i !! ("insight_" +:+ si_identifier i)
                 = Some (JStr (si_insight i))).
  { unfold inspection_group.
    rewrite lookup_insert_ne by (simpl; discriminate).
    apply lookup_insert_eq. }
  assert (Hcom : inspection_group i !! ("stack_completed_" +:+ si_identifier i)
                 = Some (JBool (si_completed i))).
  { unfold inspection_group. apply lookup_insert_eq. }
  destruct (text_of_stored _ _ _ Hser) as [-> ->].
  destruct (text_of_stored _ _ _ Hins) as [-> ->].
  rewrite (flag_of_stored _ _ _ Hcom). now destruct i.
Qed.

Lemma tensioning_read_group (form : JsObject) (t : StackTensioning) :
  form !! ("stack_group_tensioning_" +:+ st_identifier t)
  = Some (JObj (tensioning_group t)) ->
  tensioning_of_form form (st_identifier t)
  = if JsString.truthy (st_serial_number t) || JsString.truthy (st_insight t)
    then Some t else None.
Proof.
  intros H. unfold tensioning_of_form. rewrite (group_of_stored _ _ _ H).
  clear H. cbv zeta.
  assert (Hser : tensioning_group t !! ("stack_serial_number_" +:+ st_identifier t)
                 = Some (JStr (st_serial_number t))).
  { unfold tensioning_group.
    rewrite !lookup_insert_ne by (simpl; discriminate).
    apply lookup_singleton_eq. }
  assert (Hins : tensioning_group t !! ("insight_" +:+ st_identifier t)
                 = Some (JStr (st_insight t))).
  { unfold tensioning_group.
    rewrite lookup_insert_ne by (simpl; discriminate).
    apply lookup_insert_eq. }
  assert (Hcom : tensioning_group t !! ("stack_completed_" +:+ st_identifier t)
                 = Some (JBool (st_completed t))).
  { unfold tensioning_group. apply lookup_insert_eq. }
  destruct (text_of_stored _ _ _ Hser) as [-> ->].
  destruct (text_of_stored _ _ _ Hins) as [-> ->].
  rewrite (flag_of_stored _ _ _ Hcom). now destruct t.
Qed.

Lemma install_read_group (form : JsObject) (i : StackInstall) :
  form !! ("stack_group_installs_" +:+ sn_identifier i)
  = Some (JObj (install_group i)) ->
  install_of_form form (sn_identifier i)
  = if JsString.truthy (sn_serial_number i) then Some i else None.
Proof.
  intros H. unfold install_of_form. rewrite (group_of_stored _ _ _ H).
  clear H. cbv zeta.
  assert (Hser : install_group i !! ("stack_serial_number_" +:+ sn_identifier i)
                 = Some (JStr (sn_serial_number i))).
  { unfold install_group. apply lookup_singleton_eq. }
  destruct (text_of_stored _ _ _ Hser) as [-> ->]. now destruct i.
Qed.

Lemma of_form_no_group (form : JsObject) (id : string) :
  (form !! ("stack_group_" +:+ id) = None -> replacement_of_form form id = None)
  /\ (form !! ("stack_group_inspection_" +:+ id) = None ->
      inspection_of_form form id = None)
  /\ (form !! ("stack_group_tensioning_" +:+ id) = None ->
      tensioning_of_form form id = None)
  /\ (form !! ("stack_group_installs_" +:+ id) = None ->
      install_of_form form id = None).
Proof.
  repeat split; intros H.
  - unfold replacement_of_form. now rewrite (group_of_absent _ _ H).
  - unfold inspection_of_form. now rewrite (group_of_absent _ _ H).
  - unfold tensioning_of_form. now rewrite (group_of_absent _ _ H).
  - unfold install_of_form. now rewrite (group_of_absent _ _ H).
Qed.

End GroupReading.

Lemma prefill_replacements (note : Note) (stackCount : Z) :
  sublist (map sr_identifier (parseStackReplacements (stack_replacements note)))
          (getStackIdentifiers stackCount) ->
  Forall (fun r => JsString.truthy (sr_removed_serial_number r)
                   || JsString.truthy (sr_added_serial_number r) = true)
         (parseStackReplacements (stack_replacements note)) ->
  extractStackReplacementsFromForm (stackReplacements_getEditInitialValue note)
                                   stackCount
  = parseStackReplacements (stack_replacements note).
Proof.
  intros Hsub Hpresent.
  unfold extractStackReplacementsFromForm, stackReplacements_getEditInitialValue.
  apply (extract_filled_groups "stack_group_" sr_identifier replacement_group
           (fun form id => replacement_of_form form id)
           (fun r => JsString.truthy (sr_removed_serial_number r)
                     || JsString.truthy (sr_added_serial_number r)));
    try assumption.
  - exact replacement_read_group.
  - intros form id. exact (proj1 (of_form_no_group form id)).
  - intros id. now apply lookup_singleton_ne.
  - apply getStackIdentifiers_NoDup.
Qed.

Lemma prefill_inspections (note : Note) (stackCount : Z) :
  sublist (map si_identifier (parseStackInspections (stack_inspections note)))
          (getStackIdentifiers stackCount) ->
  Forall (fun i => JsString.truthy (si_serial_number i)
                   || JsString.truthy (si_insight i) = true)
         (parseStackInspections (stack_inspections note)) ->
  extractStackInspectionsFromForm (stackInspection_getEditInitialValue note)
                                  stackCount
  = parseStackInspections (stack_inspections note).
Proof.
  intros Hsub Hpresent.
  unfold extractStackInspectionsFromForm, stackInspection_getEditInitialValue.
  apply (extract_filled_groups "stack_group_inspection_" si_identifier
           inspection_group (fun form id => inspection_of_form form id)
           (fun i => JsString.truthy (si_serial_number i)
                     || JsString.truthy (si_insight i)));
    try assumption.
  - exact inspection_read_group.
  - intros form id. exact (proj1 (proj2 (of_form_no_group form id))).
  - intros id. apply lookup_empty.
  - apply getStackIdentifiers_NoDup.
Qed.

Lemma prefill_tensionings (note : Note) (stackCount : Z) :
  sublist (map st_identifier (parseStackTensioning (stack_tensioning note)))
          (getStackIdentifiers stackCount) ->
  Forall (fun t => JsString.truthy (st_serial_number t)
                   || JsString.truthy (st_insight t) = true)
         (parseStackTensioning (stack_tensioning note)) ->
  extractStackTensioningFromForm (stackTensioning_getEditInitialValue note)
                                 stackCount
  = parseStackTensioning (stack_tensioning note).
Proof.
  intros Hsub Hpresent.
  unfold extractStackTensioningFromForm, stackTensioning_getEditInitialValue.
  apply (extract_filled_groups "stack_group_tensioning_" st_identifier
           tensioning_group (fun form id => tensioning_of_form form id)
           (fun t => JsString.truthy (st_serial_number t)
                     || JsString.truthy (st_insight t)));
    try assumption.
  - exact tensioning_read_group.
  - intros form id. exact (proj1 (proj2 (proj2 (of_form_no_group form id)))).
  - intros id. apply lookup_empty.
  - apply getStackIdentifiers_NoDup.
Qed.

Lemma prefill_installs (note : Note) (stackCount : Z) :
  sublist (map sn_identifier (parseStackInstalls (stack_installs note)))
          (getStackIdentifiers stackCount) ->
  Forall (fun i => JsString.truthy (sn_serial_number i) = true)
         (parseStackInstalls (stack_installs note)) ->
  extractStackInstallsFromForm (stackInstalls_getEditInitialValue note) stackCount
  = parseStackInstalls (stack_installs note).
Proof.
  intros Hsub Hpresent.
  unfold extractStackInstallsFromForm, stackInstalls_getEditInitialValue.
  apply (extract_filled_groups "stack_group_installs_" sn_identifier
           install_group (fun form id => install_of_form form id)
           (fun i => JsString.truthy (sn_serial_number i)));
    try assumption.
  - exact install_read_group.
  - intros form id. exact (proj2 (proj2 (proj2 (of_form_no_group form id)))).
  - intros id. apply lookup_empty.
  - apply getStackIdentifiers_NoDup.
Qed.

(** X11.  Pre-filling an edit dialog gives the stored sub-records back:
    when the identifiers of the sub-records decoded from a note's stored
    string are active stack identifiers in the order a..e, each at most
    once, and every sub-record has a non-empty presence-determining field,
    extracting from the edit initial value of the note yields exactly the
    decoded sub-records. *)
Theorem edit_prefill_gives_stored_records (note : Note) (stackCount : Z) :
  (sublist (map sr_identifier (parseStackReplacements (stack_replacements note)))
           (getStackIdentifiers stackCount) ->
   Forall (fun r => JsString.truthy (sr_removed_serial_number r)
                    || JsString.truthy (sr_added_serial_number r) = true)
          (parseStackReplacements (stack_replacements note)) ->
   extractStackReplacementsFromForm (stackReplacements_getEditInitialValue note)
                                    stackCount
   = parseStackReplacements (stack_replacements note))
  /\ (sublist (map si_identifier (parseStackInspections (stack_inspections note)))
              (getStackIdentifiers stackCount) ->
      Forall (fun i => JsString.truthy (si_serial_number i)
                       || JsString.truthy (si_insight i) = true)
             (parseStackInspections (stack_inspections note)) ->
      extractStackInspectionsFromForm (stackInspection_getEditInitialValue note)
                                      stackCount
      = parseStackInspections (stack_inspections note))
  /\ (sublist (map st_identifier (parseStackTensioning (stack_tensioning note)))
              (getStackIdentifiers stackCount) ->
      Forall (fun t => JsString.truthy (st_serial_number t)
                       || JsString.truthy (st_insight t) = true)
             (parseStackTensioning (stack_tensioning note)) ->
      extractStackTensioningFromForm (stackTensioning_getEditInitialValue note)
                                     stackCount
      = parseStackTensioning (stack_tensioning note))
  /\ (sublist (map sn_identifier (parseStackInstalls (stack_installs note)))
              (getStackIdentifiers stackCount) ->
      Forall (fun i => JsString.truthy (sn_serial_number i) = true)
             (parseStackInstalls (stack_installs note)) ->
      extractStackInstallsFromForm (stackInstalls_getEditInitialValue note)
                                   stackCount
      = parseStackInstalls (stack_installs note)).
Proof.
  split; [|split; [|split]]; intros Hsub Hpresent.
  - now apply prefill_replacements.
  - now apply prefill_inspections.
  - now apply prefill_tensionings.
  - now apply prefill_installs.
Qed.

Lemma edit_prefill_gives_stored_records_witness :
  extractStackReplacementsFromForm
    (stackReplacements_getEditInitialValue replaced_note) 3
  = [ {| sr_identifier := "a"; sr_removed_serial_number := "SN-1";
         sr_added_serial_number := "SN-2"; sr_stack_symptom := "H2 leak";
         sr_stack_symptom_confirmed := true |} ]
  /\ extractStackInstallsFromForm
       (stackInstalls_getEditInitialValue installs_note) 3
     = [ {| sn_identifier := "a"; sn_serial_number := "SN-5" |} ].
Proof.
  split.
  - refine (proj1 (edit_prefill_gives_stored_records replaced_note 3) _ _).
    + vm_compute. apply sublist_skip. do 2 apply sublist_cons. apply sublist_nil.
    + vm_compute. repeat constructor.
  - refine (proj2 (proj2 (proj2 (edit_prefill_gives_stored_records installs_note 3)))
                  _ _).
    + vm_compute. apply sublist_skip. do 2 apply sublist_cons. apply sublist_nil.
    + vm_compute. repeat constructor.
Defined.

(** X12.  An edit that changes nothing keeps the sub-records: under the
    conditions of X11, serializing the edit initial value of a note stores
    null when the note's stored string decodes to no sub-record, and
    otherwise a string that decodes to the same sub-records as the stored
    one (a legacy or damaged string is rewritten in the current
    format). *)
Theorem unchanged_edit_keeps_the_records (note : Note)
    (helpers : CategoryFormHelpers) :
  (sublist (map sr_identifier (parseStackReplacements (stack_replacements note)))
           (getStackIdentifiers (getStackCount helpers)) ->
   Forall (fun r => JsString.truthy (sr_removed_serial_number r)
                    || JsString.truthy (sr_added_serial_number r) = true)
          (parseStackReplacements (stack_replacements note)) ->
   exists fields,
     serializeFormValue stackReplacements
       (stackReplacements_getEditInitialValue note) helpers = Ok fields
     /\ match parseStackReplacements (stack_replacements note) with
        | [] => fields !! "stack_replacements" = Some JNull
        | _ :: _ => exists s, fields !! "stack_replacements" = Some (JStr s)
                              /\ parseStackReplacements (Val s)
                                 = parseStackReplacements (stack_replacements note)
        end)
  /\ (sublist (map si_identifier (parseStackInspections (stack_inspections note)))
              (getStackIdentifiers (getStackCount helpers)) ->
      Forall (fun i => JsString.truthy (si_serial_number i)
                       || JsString.truthy (si_insight i) = true)
             (parseStackInspections (stack_inspections note)) ->
      exists fields,
        serializeFormValue stackInspection
          (stackInspection_getEditInitialValue note) helpers = Ok fields
        /\ match parseStackInspections (stack_inspections note) with
           | [] => fields !! "stack_inspections" = Some JNull
           | _ :: _ => exists s, fields !! "stack_inspections" = Some (JStr s)
                                 /\ parseStackInspections (Val s)
                                    = parseStackInspections (stack_inspections note)
           end)
  /\ (sublist (map st_identifier (parseStackTensioning (stack_tensioning note)))
              (getStackIdentifiers (getStackCount helpers)) ->
      Forall (fun t => JsString.truthy (st_serial_number t)
                       || JsString.truthy (st_insight t) = true)
             (parseStackTensioning (stack_tensioning note)) ->
      exists fields,
        serializeFormValue stackTensioning
          (stackTensioning_getEditInitialValue note) helpers = Ok fields
        /\ match parseStackTensioning (stack_tensioning note) with
           | [] => fields !! "stack_tensioning" = Some JNull
           | _ :: _ => exists s, fields !! "stack_tensioning" = Some (JStr s)
                                 /\ parseStackTensioning (Val s)
                                    = parseStackTensioning (stack_tensioning note)
           end)
  /\ (sublist (map sn_identifier (parseStackInstalls (stack_installs note)))
              (getStackIdentifiers (getStackCount helpers)) ->
      Forall (fun i => JsString.truthy (sn_serial_number i) = true)
             (parseStackInstalls (stack_installs note)) ->
      exists fields,
        serializeFormValue stackInstalls
          (stackInstalls_getEditInitialValue note) helpers = Ok fields
        /\ match parseStackInstalls (stack_installs note) with
           | [] => fields !! "stack_installs" = Some JNull
           | _ :: _ => exists s, fields !! "stack_installs" = Some (JStr s)
                                 /\ parseStackInstalls (Val s)
                                    = parseStackInstalls (stack_installs note)
           end).
Proof.
  split; [|split; [|split]]; intros Hsub Hpresent.
  - cbn [serializeFormValue stackReplacements].
    rewrite (prefill_replacements note _ Hsub Hpresent).
    assert (Hn : parseStackReplacements
                   (Val (serializeStackReplacements (parseStackReplacements (stack_replacements note))))
                 = parseStackReplacements (stack_replacements note))
      by exact (parse_with_normal _ _ _ _ (stack_replacements note)
                  replacement_of_segment_wf replacement_record_ok).
    eexists. split; [reflexivity|]. rewrite lookup_insert_ne by discriminate. rewrite lookup_singleton_eq.
    destruct (parseStackReplacements (stack_replacements note)) as [|r l];
      [reflexivity|].
    eexists. split; [reflexivity | exact Hn].
  - cbn [serializeFormValue stackInspection].
    rewrite (prefill_inspections note _ Hsub Hpresent).
    assert (Hn : parseStackInspections
                   (Val (serializeStackInspections (parseStackInspections (stack_inspections note))))
                 = parseStackInspections (stack_inspections note))
      by exact (parse_with_normal _ _ _ _ (stack_inspections note)
                  inspection_of_segment_wf inspection_record_ok).
    eexists. split; [reflexivity|]. rewrite lookup_singleton_eq.
    destruct (parseStackInspections (stack_inspections note)) as [|r l];
      [reflexivity|].
    eexists. split; [reflexivity | exact Hn].
  - cbn [serializeFormValue stackTensioning].
    rewrite (prefill_tensionings note _ Hsub Hpresent).
    assert (Hn : parseStackTensioning
                   (Val (serializeStackTensioning (parseStackTensioning (stack_tensioning note))))
                 = parseStackTensioning (stack_tensioning note))
      by exact (parse_with_normal _ _ _ _ (stack_tensioning note)
                  tensioning_of_segment_wf tensioning_record_ok).
    eexists. split; [reflexivity|]. rewrite lookup_singleton_eq.
    destruct (parseStackTensioning (stack_tensioning note)) as [|r l];
      [reflexivity|].
    eexists. split; [reflexivity | exact Hn].
  - cbn [serializeFormValue stackInstalls].
    rewrite (prefill_installs note _ Hsub Hpresent).
    assert (Hn : parseStackInstalls
                   (Val (serializeStackInstalls (parseStackInstalls (stack_installs note))))
                 = parseStackInstalls (stack_installs note))
      by exact (parse_with_normal _ _ _ _ (stack_installs note)
                  install_of_segment_wf install_record_ok).
    eexists. split; [reflexivity|]. rewrite lookup_singleton_eq.
    destruct (parseStackInstalls (stack_installs note)) as [|r l];
      [reflexivity|].
    eexists. split; [reflexivity | exact Hn].
Qed.

Lemma unchanged_edit_keeps_the_records_witness :
  sublist ["b"] (getStackIdentifiers 3)
  /\ exists fields,
       serializeFormValue stackInspection
         (stackInspection_getEditInitialValue legacy_inspection_note) three_stacks
       = Ok fields
       /\ exists s,
            fields !! "stack_inspections" = Some (JStr s)
            /\ parseStackInspections (Val s)
               = [ {| si_identifier := "b"; si_serial_number := "SN-7";
                      si_insight := "hairline crack"; si_completed := false |} ].
Proof.
  assert (Hsub : sublist ["b"] (getStackIdentifiers 3)).
  { apply sublist_cons. apply sublist_skip. apply sublist_nil_l. }
  split; [exact Hsub|].
  destruct (proj1 (proj2 (unchanged_edit_keeps_the_records legacy_inspection_note
                            three_stacks)))
    as (fields & Hs & Hm).
  - exact Hsub.
  - repeat constructor.
  - exists fields. split; [exact Hs | exact Hm].
Defined.

(** ** The latest serial numbers (service-logbook component) *)


Lemma first_serial_app (k : string) (a b : list (string * string)) :
  first_serial k (a ++ b)%list
  = match first_serial k a with
    | Some v => Some v
    | None => first_serial k b
    end.
Proof.
  induction a as [|[id serial] a IH]; simpl; [reflexivity|].
  now destruct (String.eqb id k && JsString.truthy serial).
Qed.

Lemma first_serial_Some (k v : string) (pairs : list (string * string)) :
  first_serial k pairs = Some v -> In (k, v) pairs /\ JsString.truthy v = true.
Proof.
  induction pairs as [|[id serial] pairs IH]; simpl; [discriminate|].
  destruct (String.eqb id k) eqn:Hid; simpl.
  - apply String.eqb_eq in Hid as ->.
    destruct (JsString.truthy serial) eqn:Ht.
    + intros [= <-]. split; [now left | exact Ht].
    + intros H. destruct (IH H) as [Hin Hv]. split; [now right | exact Hv].
  - intros H. destruct (IH H) as [Hin Hv]. split; [now right | exact Hv].
Qed.

Lemma first_serial_flat_map (k : string) (notes : list Note) :
  first_serial k (flat_map serial_candidates notes) <> None
  <-> exists note, In note notes /\ first_serial k (serial_candidates note) <> None.
Proof.
  induction notes as [|n notes IH]; simpl.
  - split; [congruence | intros (note & [] & _)].
  - rewrite first_serial_app.
    destruct (first_serial k (serial_candidates n)) as [v|] eqn:Hn.
    + split; [|discriminate]. intros _. exists n. split; [now left|].
      now rewrite Hn.
    + rewrite IH. split.
      * intros (note & Hin & Hs). exists note. split; [now right | exact Hs].
      * intros (note & [<-|Hin] & Hs); [now rewrite Hn in Hs|].
        now exists note.
Qed.

Lemma scan_note_candidates (st : Component.Scan) (note : Note) :
  Component.scan_note st note
  = foldl (fun st p => Component.take_serial st (fst p) (snd p)) st
          (serial_candidates note).
Proof.
  unfold Component.scan_note, serial_candidates.
  destruct (Component.has_category note "Stack installs"
            && Component.text_truthy (stack_installs note)).
  - generalize (parseStackInstalls (stack_installs note)). intros l. revert st.
    induction l as [|x l IH]; intros st; simpl; [reflexivity | apply IH].
  - destruct (Component.has_category note "Stack replacements"
              && Component.text_truthy (stack_replacements note)); [|reflexivity].
    generalize (parseStackReplacements (stack_replacements note)). intros l.
    revert st.
    induction l as [|x l IH]; intros st; simpl; [reflexivity | apply IH].
Qed.

Section Scanning.
Variable ids : gset string.

Lemma take_serial_inv (st : Component.Scan) (id serial : string) :
  scan_inv ids st -> scan_inv ids (Component.take_serial st id serial).
Proof.
  intros Hinv. unfold Component.take_serial.
  destruct (bool_decide (id ∈ Component.neededIdentifiers st)) eqn:Hd;
    simpl; [|exact Hinv].
  destruct (JsString.truthy serial); [|exact Hinv].
  intros k. simpl. rewrite elem_of_difference, elem_of_singleton, (Hinv k).
  destruct (decide (k = id)) as [->|Hne].
  - rewrite lookup_insert_eq. split; [tauto | intros [_ H]; discriminate].
  - rewrite lookup_insert_ne by congruence. tauto.
Qed.

Lemma take_serial_lookup (st : Component.Scan) (id serial k : string) :
  scan_inv ids st ->
  Component.serialNumbers (Component.take_serial st id serial) !! k
  = match Component.serialNumbers st !! k with
    | Some v => Some v
    | None => if decide (k ∈ ids)
              then (if String.eqb id k && JsString.truthy serial
                    then Some serial else None)
              else None
    end.
Proof.
  intros Hinv. unfold Component.take_serial.
  destruct (bool_decide (id ∈ Component.neededIdentifiers st)) eqn:Hd; simpl.
  - apply bool_decide_eq_true in Hd. apply Hinv in Hd as [Hid Hnone].
    destruct (JsString.truthy serial); simpl.
    + destruct (String.eqb_spec id k) as [<-|Hne].
      * rewrite lookup_insert_eq, Hnone. now rewrite decide_True.
      * rewrite lookup_insert_ne by exact Hne.
        destruct (Component.serialNumbers st !! k); [reflexivity|].
        now destruct (decide (k ∈ ids)).
    + rewrite andb_false_r.
      destruct (Component.serialNumbers st !! k); [reflexivity|].
      now destruct (decide (k ∈ ids)).
  - apply bool_decide_eq_false in Hd.
    destruct (Component.serialNumbers st !! k) as [v|] eqn:Hk; [reflexivity|].
    destruct (decide (k ∈ ids)) as [Hin|Hout]; [|reflexivity].
    destruct (String.eqb_spec id k) as [<-|Hne]; [|reflexivity].
    exfalso. apply Hd. apply Hinv. now split.
Qed.

Lemma take_serials (pairs : list (string * string)) :
  forall st,
    scan_inv ids st ->
    scan_inv ids (foldl (fun st p => Component.take_serial st (fst p) (snd p))
                        st pairs)
    /\ forall k,
         Component.serialNumbers
           (foldl (fun st p => Component.take_serial st (fst p) (snd p)) st pairs)
         !! k
         = match Component.serialNumbers st !! k with
           | Some v => Some v
           | None => if decide (k ∈ ids) then first_serial k pairs else None
           end.
Proof.
  induction pairs as [|[id serial] pairs IH]; intros st Hinv.
  - split; [exact Hinv|]. intros k. simpl.
    destruct (Component.serialNumbers st !! k); [reflexivity|].
    now destruct (decide (k ∈ ids)).
  - simpl foldl. simpl fst. simpl snd.
    destruct (IH _ (take_serial_inv st id serial Hinv)) as [Hinv' Hlook].
    split; [exact Hinv'|]. intros k.
    rewrite Hlook, (take_serial_lookup st id serial k Hinv). simpl first_serial.
    destruct (Component.serialNumbers st !! k); [reflexivity|].
    destruct (decide (k ∈ ids)); [|reflexivity].
    now destruct (String.eqb id k && JsString.truthy serial).
Qed.

Lemma scan_notes_lookup (notes : list Note) :
  forall st,
    scan_inv ids st ->
    forall k,
      Component.serialNumbers (Component.scan_notes st notes) !! k
      = match Component.serialNumbers st !! k with
        | Some v => Some v
        | None => if decide (k ∈ ids)
                  then first_serial k (flat_map serial_candidates notes)
                  else None
        end.
Proof.
  induction notes as [|note notes IH]; intros st Hinv k.
  - simpl. destruct (Component.serialNumbers st !! k); [reflexivity|].
    now destruct (decide (k ∈ ids)).
  - simpl Component.scan_notes.
    destruct (Nat.eqb_spec (size (Component.neededIdentifiers st)) 0) as [Hz|Hnz].
    + apply size_empty_inv in Hz.
      destruct (Component.serialNumbers st !! k) as [v|] eqn:Hk; [reflexivity|].
      destruct (decide (k ∈ ids)) as [Hin|Hout]; [|reflexivity].
      exfalso. assert (Hneeded : k ∈ Component.neededIdentifiers st)
        by (apply Hinv; now split).
      rewrite (Hz k) in Hneeded. now apply not_elem_of_empty in Hneeded.
    + rewrite scan_note_candidates.
      destruct (take_serials (serial_candidates note) st Hinv) as [Hinv' Hlook].
      rewrite (IH _ Hinv' k), Hlook. simpl flat_map. rewrite first_serial_app.
      destruct (Component.serialNumbers st !! k); [reflexivity|].
      destruct (decide (k ∈ ids)); [|reflexivity].
      now destruct (first_serial k (serial_candidates note)).
Qed.
End Scanning.

Lemma insert_by_date_In (n x : Note) (l : list Note) :
  In x (Component.insert_by_date n l) <-> x = n \/ In x l.
Proof.
  induction l as [|m l IH]; simpl.
  - split; [intros [<-|[]]; now left | intros [->|[]]; now left].
  - destruct (Component.note_date m <=? Component.note_date n)%Z; simpl.
    + split; [intros [<-|H]; [now left | now right]
             | intros [->|H]; [now left | now right]].
    + rewrite IH. split.
      * intros [<-|[->|H]]; [right; now left | now left | right; now right].
      * intros [->|[<-|H]]; [right; now left | now left | right; now right].
Qed.

Lemma sort_by_date_desc_In (x : Note) (l : list Note) :
  In x (Component.sort_by_date_desc l) <-> In x l.
Proof.
  unfold Component.sort_by_date_desc.
  induction l as [|n l IH]; simpl; [reflexivity|].
  rewrite insert_by_date_In, IH. split; intros [H|H]; auto.
Qed.

Lemma insert_by_date_sorted (n : Note) (l : list Note) :
  StronglySorted by_date_desc l ->
  StronglySorted by_date_desc (Component.insert_by_date n l).
Proof.
  unfold by_date_desc.
  induction 1 as [|m l Hs IH Hm]; simpl.
  - constructor; constructor.
  - destruct (Z.leb_spec (Component.note_date m) (Component.note_date n)) as [Hle|Hgt].
    + constructor; [now constructor|].
      constructor; [exact Hle|].
      rewrite List.Forall_forall in Hm |- *. intros x Hx.
      specialize (Hm x Hx). simpl in Hm. lia.
    + constructor; [exact IH|].
      rewrite List.Forall_forall in Hm |- *. intros x Hx.
      apply insert_by_date_In in Hx as [->|Hx]; [lia | now apply Hm].
Qed.

Lemma sort_by_date_desc_sorted (l : list Note) :
  StronglySorted by_date_desc (Component.sort_by_date_desc l).
Proof.
  unfold Component.sort_by_date_desc.
  induction l as [|n l IH]; simpl; [constructor | now apply insert_by_date_sorted].
Qed.

Lemma requested_identifiers_inv (stackCount : Z) :
  scan_inv (list_to_set (getStackIdentifiers stackCount))
           {| Component.neededIdentifiers :=
                list_to_set (getStackIdentifiers stackCount);
              Component.serialNumbers := ∅ |}.
Proof. intros k. simpl. rewrite lookup_empty. tauto. Qed.

Lemma latest_serials_lookup (agentOrAssetName : Nullable string)
    (allNotes : list Note) (k : string) :
  Component.getLatestStackSerialNumbers agentOrAssetName allNotes !! k
  = if decide (k ∈ getStackIdentifiers (Component.getStackCount agentOrAssetName))
    then first_serial k
           (flat_map serial_candidates
              (Component.sort_by_date_desc
                 (List.filter Component.is_relevant allNotes)))
    else None.
Proof.
  unfold Component.getLatestStackSerialNumbers.
  destruct (List.filter Component.is_relevant allNotes) as [|n l] eqn:Hf.
  - rewrite lookup_empty. simpl. now destruct (decide _).
  - cbv zeta.
    change (slice_to (Component.getStackCount agentOrAssetName)
              ["a"; "b"; "c"; "d"; "e"])
      with (getStackIdentifiers (Component.getStackCount agentOrAssetName)).
    rewrite (scan_notes_lookup _ _ _
               (requested_identifiers_inv _) k).
    simpl Component.serialNumbers. rewrite lookup_empty.
    destruct (decide (k ∈ getStackIdentifiers _)) as [Hin|Hout].
    + rewrite decide_True by (now apply elem_of_list_to_set). reflexivity.
    + rewrite decide_False by (now rewrite elem_of_list_to_set). reflexivity.
Qed.

Lemma candidates_relevant (note : Note) (k : string) :
  first_serial k (serial_candidates note) <> None ->
  Component.is_relevant note = true.
Proof.
  unfold serial_candidates, Component.is_relevant.
  destruct (Component.has_category note "Stack installs"); simpl; [reflexivity|].
  destruct (Component.has_category note "Stack replacements"); simpl;
    [reflexivity | congruence].
Qed.

(** X13.  [getLatestStackSerialNumbers] gives every requested stack
    identifier the first non-empty serial number that the install and
    replacement notes, taken from the most recent to the oldest, hold for
    it, and gives nothing else: a key of the result is a requested
    identifier, its value is a non-empty serial number (or added serial
    number) decoded from an install (or replacement) note of the list, and
    a requested identifier for which some such note holds a non-empty
    serial number has an entry. *)
Theorem latest_serials_first_candidate (agentOrAssetName : Nullable string)
    (allNotes : list Note) (k : string) :
  Component.getLatestStackSerialNumbers agentOrAssetName allNotes !! k
  = (if decide (k ∈ getStackIdentifiers (Component.getStackCount agentOrAssetName))
     then first_serial k
            (flat_map serial_candidates
               (Component.sort_by_date_desc
                  (List.filter Component.is_relevant allNotes)))
     else None)
  /\ (forall v,
         Component.getLatestStackSerialNumbers agentOrAssetName allNotes !! k
         = Some v ->
         In k (getStackIdentifiers (Component.getStackCount agentOrAssetName))
         /\ JsString.truthy v = true
         /\ exists note, In note allNotes
                         /\ Component.is_relevant note = true
                         /\ In (k, v) (serial_candidates note))
  /\ (In k (getStackIdentifiers (Component.getStackCount agentOrAssetName)) ->
      (exists note, In note allNotes
                    /\ first_serial k (serial_candidates note) <> None) ->
      Component.getLatestStackSerialNumbers agentOrAssetName allNotes !! k <> None).
Proof.
  split; [apply latest_serials_lookup|]. rewrite latest_serials_lookup. split.
  - intros v H. destruct (decide _) as [Hk|Hk]; [|discriminate].
    split; [now apply list_elem_of_In|].
    assert (Hsome : first_serial k
                      (flat_map serial_candidates
                         (Component.sort_by_date_desc
                            (List.filter Component.is_relevant allNotes)))
                    <> None) by (rewrite H; discriminate).
    apply first_serial_flat_map in Hsome as (note & Hin & Hnote).
    apply first_serial_Some in H as [Hpair Hv]. split; [exact Hv|].
    apply in_flat_map in Hpair as (n & Hn & Hp).
    apply (proj1 (sort_by_date_desc_In _ _)) in Hn.
    apply List.filter_In in Hn as [Hn Hrel].
    now exists n.
  - intros Hk (note & Hin & Hnote).
    rewrite decide_True by (now apply list_elem_of_In).
    apply first_serial_flat_map. exists note. split; [|exact Hnote].
    apply (proj2 (sort_by_date_desc_In _ _)). apply List.filter_In.
    split; [exact Hin | exact (candidates_relevant note k Hnote)].
Qed.

Lemma most_recent_first (k v : string) (n : Note) (sorted : list Note) :
  StronglySorted by_date_desc sorted ->
  In n sorted ->
  first_serial k (serial_candidates n) = Some v ->
  (forall m, In m sorted -> first_serial k (serial_candidates m) <> None ->
             m = n \/ (Component.note_date m < Component.note_date n)%Z) ->
  first_serial k (flat_map serial_candidates sorted) = Some v.
Proof.
  intros Hsorted. induction Hsorted as [|m l Hs IH Hm]; intros Hin Hn Hothers.
  - destruct Hin.
  - simpl. rewrite first_serial_app.
    destruct (first_serial k (serial_candidates m)) as [w|] eqn:Hw.
    + destruct (Hothers m (or_introl eq_refl)) as [->|Hlt];
        [now rewrite Hw | congruence |].
      exfalso. destruct Hin as [->|Hin]; [lia|].
      rewrite List.Forall_forall in Hm. specialize (Hm n Hin).
      unfold by_date_desc in Hm. lia.
    + destruct Hin as [->|Hin]; [congruence|].
      apply IH; try assumption. intros x Hx. apply Hothers. now right.
Qed.

(** X14.  The most recent note wins: when a note of the list holds a
    non-empty serial number for a requested stack identifier, and every
    other note of the list that holds one for this identifier is strictly
    older, [getLatestStackSerialNumbers] maps the identifier to the first
    non-empty serial number this note holds for it. *)
Theorem most_recent_note_wins (agentOrAssetName : Nullable string)
    (allNotes : list Note) (n : Note) (k v : string) :
  In n allNotes ->
  In k (getStackIdentifiers (Component.getStackCount agentOrAssetName)) ->
  first_serial k (serial_candidates n) = Some v ->
  (forall m, In m allNotes -> first_serial k (serial_candidates m) <> None ->
             m = n \/ (Component.note_date m < Component.note_date n)%Z) ->
  Component.getLatestStackSerialNumbers agentOrAssetName allNotes !! k = Some v.
Proof.
  intros Hin Hk Hn Hothers. rewrite latest_serials_lookup.
  rewrite decide_True by (now apply list_elem_of_In).
  apply (most_recent_first k v n).
  - apply sort_by_date_desc_sorted.
  - apply (proj2 (sort_by_date_desc_In _ _)). apply List.filter_In.
    split; [exact Hin|].
    apply (candidates_relevant n k). now rewrite Hn.
  - exact Hn.
  - intros m Hm. apply Hothers.
    apply (proj1 (sort_by_date_desc_In _ _)) in Hm.
    now apply List.filter_In in Hm as [Hm _].
Qed.

Lemma most_recent_note_wins_witness :
  Component.getLatestStackSerialNumbers (Val "EX2125D unit 7")
    [installs_note; replaced_note; later_installs_note; other_note] !! "a"
  = Some "SN-9".
Proof.
  apply (most_recent_note_wins _ _ later_installs_note).
  - simpl. tauto.
  - vm_compute. tauto.
  - reflexivity.
  - intros m [<-|[<-|[<-|[<-|[]]]]] Hm.
    + right. vm_compute. reflexivity.
    + right. vm_compute. reflexivity.
    + now left.
    + exfalso. apply Hm. reflexivity.
Defined.

(** ** What the flows hand to persistence *)

Section RunPersistence.
Context {State : Type} (iteration : State -> Iteration State).
Variable final_event : Event -> Prop.
Hypothesis resume_cases :
  forall st d initialValue resume answer events st',
    iteration st = Prompt d initialValue resume ->
    resume answer = Ok (events, st') ->
    persisted_patches events = []
    \/ exists e, events = [e] /\ final_event e /\ iteration st' = LoopEnd.

Lemma run_persists_last (fuel : nat) :
  forall (st : State) (script : list DialogResult),
    persisted_patches (fst (run iteration fuel st script)) = []
    \/ exists pre e,
         fst (run iteration fuel st script) = (pre ++ [e])%list
         /\ persisted_patches pre = []
         /\ final_event e
         /\ (snd (run iteration fuel st script) = Returned
             \/ snd (run iteration fuel st script) = OutOfFuel).
Proof.
  induction fuel as [|fuel IH]; intros st script; [now left|].
  rewrite run_unfold.
  destruct (iteration st) as [|st'|d iv resume] eqn:Hit; [now left | apply IH |].
  destruct script as [|answer script]; [now left|].
  destruct (resume answer) as [[events st']|] eqn:Hres; [|now left].
  destruct (resume_cases _ _ _ _ _ _ _ Hit Hres) as [Hquiet|(e & -> & He & Hend)].
  - specialize (IH st' script).
    destruct (run iteration fuel st' script) as [trace final]. simpl in *.
    unfold persisted_patches in *. simpl. rewrite omap_app, Hquiet. simpl.
    destruct IH as [Hrest|(pre & e & -> & Hpre & He & Hfinal)]; [now left|].
    right. exists (OpenFormDialog d iv :: events ++ pre)%list, e.
    split; [simpl; now rewrite List.app_assoc|].
    split; [|now split].
    simpl. now rewrite omap_app, Hquiet, Hpre.
  - right. exists [OpenFormDialog d iv], e.
    destruct fuel as [|fuel].
    + simpl. repeat split; try assumption. now right.
    + rewrite run_unfold, Hend. simpl. repeat split; try assumption. now left.
Qed.
End RunPersistence.

Lemma add_resume_cases (fromISO : JsVal -> option Z)
    (helpers : CategoryFormHelpers) (isPlugPowerUser : bool)
    (st : AddState) (d : Dialog) (initialValue : bool)
    (resume : DialogResult -> Outcome (list Event * AddState))
    (answer : DialogResult) (events : list Event) (st' : AddState) :
  add_iteration fromISO helpers isPlugPowerUser st = Prompt d initialValue resume ->
  resume answer = Ok (events, st') ->
  persisted_patches events = []
  \/ exists e, events = [e]
               /\ (exists noteData, e = NotesAdd noteData)
               /\ add_iteration fromISO helpers isPlugPowerUser st' = LoopEnd.
Proof.
  destruct st as [step cat]. unfold add_iteration. cbn [add_step add_category].
  destruct step; [| |discriminate].
  - intros [= <- <- <-]. destruct answer; intros [= <- <-]; now left.
  - destruct (negb (Js.truthy cat)); [discriminate|].
    intros [= <- <- <-]. destruct answer as [form|]; [|intros [= <- <-]; now left].
    unfold add_note_submit.
    destruct (validation_error _ form helpers); [intros [= <- <-]; now left|].
    destruct (add_note_data fromISO cat form helpers isPlugPowerUser)
      as [noteData|]; simpl; [|discriminate].
    intros [= <- <-]. right. exists (NotesAdd noteData).
    split; [reflexivity|]. split; [now exists noteData | reflexivity].
Qed.

Lemma recategorize_resume_cases (fromISO : JsVal -> option Z) (note : Note)
    (helpers : CategoryFormHelpers) (isPlugPowerUser : bool)
    (st : RecategorizeState) (d : Dialog) (initialValue : bool)
    (resume : DialogResult -> Outcome (list Event * RecategorizeState))
    (answer : DialogResult) (events : list Event) (st' : RecategorizeState) :
  recategorize_iteration fromISO note helpers isPlugPowerUser st
  = Prompt d initialValue resume ->
  resume answer = Ok (events, st') ->
  persisted_patches events = []
  \/ exists e, events = [e]
               /\ (exists patch, e = NotesEdit (_id note) patch)
               /\ recategorize_iteration fromISO note helpers isPlugPowerUser st'
                  = LoopEnd.
Proof.
  destruct st as [step cat]. unfold recategorize_iteration.
  cbn [rec_step rec_newCategory].
  destruct step; [| |discriminate].
  - intros [= <- <- <-]. destruct answer; intros [= <- <-]; now left.
  - destruct (negb (Js.truthy cat)); [discriminate|].
    intros [= <- <- <-]. destruct answer as [form|]; [|intros [= <- <-]; now left].
    unfold recategorize_submit.
    destruct (validation_error _ form helpers); [intros [= <- <-]; now left|].
    destruct (recategorize_patch fromISO cat form helpers isPlugPowerUser)
      as [patch|]; simpl; [|discriminate].
    intros [= <- <-]. right. exists (NotesEdit (_id note) patch).
    split; [reflexivity|]. split; [now exists patch | reflexivity].
Qed.

(** X15.  Each flow hands at most one patch to persistence and stops
    there.  On every script of dialog answers (with two loop turns of
    fuel per answer) the Add and the Recategorize handler do not loop
    without a dialog; the trace of a flow either holds no persistence call,
    or ends with its only one, after which the handler has returned.  The
    Add flow persists through add only, the Recategorize and the Edit flow
    through an edit of the note they were opened for. *)
Theorem flows_persist_once_and_stop (fromISO : JsVal -> option Z) (note : Note)
    (helpers : CategoryFormHelpers) (isPlugPowerUser : bool)
    (script : list DialogResult) (fuel : nat) :
  2 * length script + 2 <= fuel ->
  (snd (handleAddNote fromISO helpers isPlugPowerUser fuel script) <> OutOfFuel
   /\ (persisted_patches
         (fst (handleAddNote fromISO helpers isPlugPowerUser fuel script)) = []
       \/ exists pre noteData,
            fst (handleAddNote fromISO helpers isPlugPowerUser fuel script)
            = (pre ++ [NotesAdd noteData])%list
            /\ persisted_patches pre = []
            /\ snd (handleAddNote fromISO helpers isPlugPowerUser fuel script)
               = Returned))
  /\ (snd (handleRecategorizeNote fromISO note helpers isPlugPowerUser fuel script)
      <> OutOfFuel
      /\ (persisted_patches
            (fst (handleRecategorizeNote fromISO note helpers isPlugPowerUser
                    fuel script)) = []
          \/ exists pre patch,
               fst (handleRecategorizeNote fromISO note helpers isPlugPowerUser
                      fuel script)
               = (pre ++ [NotesEdit (_id note) patch])%list
               /\ persisted_patches pre = []
               /\ snd (handleRecategorizeNote fromISO note helpers isPlugPowerUser
                         fuel script)
                  = Returned))
  /\ (persisted_patches (fst (handleEditNote fromISO note helpers script)) = []
      \/ exists pre patch,
           fst (handleEditNote fromISO note helpers script)
           = (pre ++ [NotesEdit (_id note) patch])%list
           /\ persisted_patches pre = []
           /\ snd (handleEditNote fromISO note helpers script) = Returned).
Proof.
  intros Hfuel.
  destruct (handlers_enough_fuel fromISO note helpers isPlugPowerUser script fuel
              Hfuel) as [Hadd Hrec].
  split; [|split].
  - split; [exact Hadd|]. unfold handleAddNote in *.
    destruct (run_persists_last _ _
                (add_resume_cases fromISO helpers isPlugPowerUser) fuel
                {| add_step := AddCategory; add_category := JNull |} script)
      as [Hquiet|(pre & e & Htrace & Hpre & (noteData & ->) & [Hfinal|Hfinal])].
    + now left.
    + right. now exists pre, noteData.
    + contradiction.
  - split; [exact Hrec|]. unfold handleRecategorizeNote in *.
    destruct (run_persists_last _ _
                (recategorize_resume_cases fromISO note helpers isPlugPowerUser)
                fuel
                {| rec_step := SelectCategoryStep; rec_newCategory := JNull |}
                script)
      as [Hquiet|(pre & e & Htrace & Hpre & (patch & ->) & [Hfinal|Hfinal])].
    + now left.
    + right. now exists pre, patch.
    + contradiction.
  - unfold handleEditNote. destruct script as [|[form|] script]; try now left.
    destruct (edit_submit fromISO note helpers form) as [events|] eqn:He;
      [|now left].
    unfold edit_submit in He.
    destruct (transform_tag_numbers _ _) as [tagged|]; simpl in He; [|discriminate].
    destruct (validation_error _ form _).
    + injection He as <-. now left.
    + destruct (assign_serialized _ tagged form _) as [patch|]; simpl in He;
        [|discriminate].
      injection He as <-. right.
      exists [OpenFormDialog
                (EditNoteDialog (Js.or (js_of_text (note_category note))
                                       (JStr "Other"))) true], patch.
      repeat split.
Qed.

Lemma flows_persist_once_and_stop_witness :
  exists pre noteData,
    fst (handleAddNote toy_fromISO three_stacks true 6
           [Some {[ "category" := JStr "Software update" ]};
            Some software_update_form])
    = (pre ++ [NotesAdd noteData])%list
    /\ persisted_patches pre = []
    /\ snd (handleAddNote toy_fromISO three_stacks true 6
              [Some {[ "category" := JStr "Software update" ]};
               Some software_update_form])
       = Returned.
Proof.
  destruct (proj1 (flows_persist_once_and_stop toy_fromISO other_note three_stacks
                     true
                     [Some {[ "category" := JStr "Software update" ]};
                      Some software_update_form] 6 ltac:(simpl; lia)))
    as [_ [Hquiet|H]].
  - apply (f_equal (@length JsObject)) in Hquiet. vm_compute in Hquiet.
    discriminate Hquiet.
  - exact H.
Defined.

(** ** Which value a patch holds for a key *)

Lemma lookup_initial_patch (newCategory : JsVal) (form : JsObject)
    (isPlugPowerUser : bool) (k : string) :
  k <> "external_note" ->
  initial_patch newCategory form isPlugPowerUser !! k
  = if String.eqb k "note_category" then Some newCategory else None.
Proof.
  intros Hk. unfold initial_patch.
  destruct (String.eqb_spec k "note_category") as [->|Hne].
  - apply lookup_insert_eq.
  - rewrite lookup_insert_ne by congruence. apply lookup_singleton_ne. congruence.
Qed.

(** X16.  In the Add flow the submitted form wins: apart from
    performed_on and external_note, every key of the submitted form reaches
    the note data with the submitted value, also where the category's
    serialization yields a value for that key (a submitted tag_numbers is
    stored as submitted, not as the mapped list); a key the form lacks
    holds what the serialization yields for it, and note_category holds
    the category. *)
Theorem add_patch_keeps_submitted_values (fromISO : JsVal -> option Z)
    (category : JsVal) (form patch : JsObject) (helpers : CategoryFormHelpers)
    (isPlugPowerUser : bool) :
  add_note_data fromISO category form helpers isPlugPowerUser = Ok patch ->
  exists fields,
    serialized_by category form helpers = Ok fields
    /\ (forall k, k <> "performed_on" -> k <> "external_note" ->
          patch !! k
          = match form !! k with
            | Some v => Some v
            | None =>
                match fields !! k with
                | Some w => Some w
                | None => if String.eqb k "note_category" then Some category
                          else None
                end
            end)
    /\ (forall v, form !! "tag_numbers" = Some v ->
                  patch !! "tag_numbers" = Some v).
Proof.
  intros H. destruct (add_note_data_inv _ _ _ _ _ _ H) as (fields & Hs & ->).
  exists fields. split; [exact Hs|].
  assert (Hkey : forall k, k <> "performed_on" -> k <> "external_note" ->
            Js.assign
              (set_performed_on_if_valid fromISO form
                 (Js.assign (initial_patch category form isPlugPowerUser) fields))
              (delete "external_note" (delete "performed_on" form)) !! k
            = match form !! k with
              | Some v => Some v
              | None =>
                  match fields !! k with
                  | Some w => Some w
                  | None => if String.eqb k "note_category" then Some category
                            else None
                  end
              end).
  { intros k Hp He. rewrite assign_lookup.
    rewrite lookup_delete_ne by congruence.
    rewrite lookup_delete_ne by congruence.
    destruct (form !! k); [reflexivity|].
    rewrite set_performed_on_if_valid_other by exact Hp.
    rewrite assign_lookup. destruct (fields !! k); [reflexivity|].
    now apply lookup_initial_patch. }
  split; [exact Hkey|].
  intros v Hv. rewrite Hkey by discriminate. now rewrite Hv.
Qed.

Lemma add_patch_keeps_submitted_values_witness :
  exists patch,
    add_note_data toy_fromISO (JStr "Calibration") calibration_form three_stacks true
    = Ok patch
    /\ patch !! "tag_numbers"
       = Some (JArr [JObj {[ "tag_number" := JStr "PT-101" ]};
                     JObj {[ "tag_number" := JStr "TT-204" ]}]).
Proof.
  destruct (add_note_data toy_fromISO (JStr "Calibration") calibration_form
              three_stacks true) as [patch|] eqn:H.
  - exists patch. split; [reflexivity|].
    destruct (add_patch_keeps_submitted_values _ _ _ _ _ _ H)
      as (fields & _ & _ & Htags).
    apply Htags. reflexivity.
  - apply (f_equal (fun o => match o with Ok _ => true | Throw => false end)) in H.
    vm_compute in H. discriminate H.
Defined.

(** X17.  In the Edit flow the category's serialization wins: a key
    for which the serialization yields a value holds that value in the
    patch; any other key than performed_on and tag_numbers holds the
    submitted value, the input groups of the form included; and where the
    serialization yields no tag_numbers, a submitted tag array is stored as
    the mapped list. *)
Theorem edit_patch_precedence (fromISO : JsVal -> option Z) (note : Note)
    (form patch : JsObject) (helpers : CategoryFormHelpers)
    (events : list Event) :
  edit_submit fromISO note helpers form = Ok events ->
  In patch (persisted_patches events) ->
  exists fields,
    serialized_by (js_of_text (note_category note)) form
      {| getStackCount := getStackCount helpers; isEdit := true |} = Ok fields
    /\ (forall k v, fields !! k = Some v -> patch !! k = Some v)
    /\ (forall k, k <> "performed_on" -> k <> "tag_numbers" ->
                  fields !! k = None -> patch !! k = form !! k)
    /\ (fields !! "tag_numbers" = None ->
        match Js.get form "tag_numbers" with
        | JArr items => exists tags, mapM tag_of_item items = Ok tags
                                     /\ patch !! "tag_numbers" = Some (JArr tags)
        | _ => patch !! "tag_numbers" = form !! "tag_numbers"
        end).
Proof.
  intros Hsubmit Hin.
  destruct (edit_submit_persisted _ _ _ _ _ _ Hsubmit Hin)
    as (tagged & fields & Ht & Hs & ->).
  exists fields. split; [exact Hs|].
  assert (Hform : forall k, k <> "performed_on" ->
            set_performed_on fromISO form (delete "performed_on" form) !! k
            = form !! k).
  { intros k Hk. rewrite set_performed_on_other by exact Hk.
    apply lookup_delete_ne. congruence. }
  split; [|split].
  - intros k v Hk. now rewrite assign_lookup, Hk.
  - intros k Hp Htag Hk. rewrite assign_lookup, Hk.
    rewrite (transform_tag_numbers_other _ _ _ k Ht Htag). now apply Hform.
  - intros Hk. rewrite assign_lookup, Hk.
    pose proof (transform_tag_numbers_tags _ _ _ Ht) as Htags.
    unfold Js.get in Htags |- *. rewrite Hform in Htags by discriminate.
    destruct (form !! "tag_numbers") as [[]|]; try exact Htags;
      now rewrite Htags, Hform.
Qed.

Lemma edit_patch_precedence_witness :
  exists events patch,
    edit_submit toy_fromISO installs_note three_stacks installs_form = Ok events
    /\ In patch (persisted_patches events)
    /\ patch !! "stack_installs" = Some (JStr "('a','SN-5');")
    /\ patch !! "stack_group_installs_a"
       = Some (JObj {[ "stack_serial_number_a" := JStr "SN-5" ]}).
Proof.
  destruct (edit_submit toy_fromISO installs_note three_stacks installs_form)
    as [events|] eqn:H.
  - assert (Hl : length (persisted_patches events) = 1).
    { apply (f_equal (fun o => match o with
                               | Ok l => length (persisted_patches l)
                               | Throw => 0
                               end)) in H.
      vm_compute in H. symmetry. exact H. }
    destruct (persisted_patches events) as [|patch rest] eqn:Hp;
      [discriminate Hl|].
    exists events, patch.
    assert (Hin : In patch (persisted_patches events))
      by (rewrite Hp; now left).
    split; [reflexivity|]. split; [exact Hin|].
    destruct (edit_patch_precedence _ _ _ _ _ _ H Hin)
      as (fields & Hs & Hwins & Hform & _).
    assert (Hfields : fields = {[ "stack_installs" := JStr "('a','SN-5');" ]}).
    { apply (f_equal (fun o => match o with Ok f => f | Throw => ∅ end)) in Hs.
      symmetry. exact Hs. }
    split.
    + apply Hwins. now rewrite Hfields.
    + rewrite Hform; [reflexivity | discriminate | discriminate |].
      now rewrite Hfields.
  - apply (f_equal (fun o => match o with Ok _ => true | Throw => false end)) in H.
    vm_compute in H. discriminate H.
Defined.

(** X18.  The patch of a recategorization has a fixed shape: each of the
    eight category-owned fields is present with a value that is not
    undefined, note_category is the new category, and the patch has no
    key beyond note_category, external_note, performed_on, text and the
    eight category-owned fields, so that no input group of the submitted
    form reaches persistence. *)
Theorem recategorize_patch_shape (fromISO : JsVal -> option Z)
    (newCategory : JsVal) (form patch : JsObject) (helpers : CategoryFormHelpers)
    (isPlugPowerUser : bool) :
  recategorize_patch fromISO newCategory form helpers isPlugPowerUser = Ok patch ->
  (forall k, In k CLEARED_FIELDS ->
             exists v, patch !! k = Some v /\ v <> JUndefined)
  /\ patch !! "note_category" = Some newCategory
  /\ (forall k v, patch !! k = Some v ->
                  In k ("note_category" :: "external_note" :: "performed_on"
                        :: "text" :: CLEARED_FIELDS)).
Proof.
  intros H. split; [|split].
  - intros k Hk.
    destruct (recategorize_patch_owned _ _ _ _ _ _ k H Hk)
      as (fields & tagged & _ & _ & Hp).
    eexists. split; [exact Hp|].
    destruct (fields !! k) as [[]|]; simpl; try discriminate;
      destruct (Js.get tagged k); simpl; discriminate.
  - rewrite (recategorize_patch_unowned _ _ _ _ _ _ "note_category" H);
      [|simpl; intuition discriminate|discriminate|discriminate].
    now rewrite lookup_initial_patch.
  - intros k v Hk.
    destruct (in_dec string_dec k
                ("note_category" :: "external_note" :: "performed_on"
                 :: "text" :: CLEARED_FIELDS)) as [Hin|Hout]; [exact Hin|].
    exfalso.
    rewrite (recategorize_patch_unowned _ _ _ _ _ _ k H) in Hk.
    + rewrite lookup_initial_patch in Hk.
      * destruct (String.eqb_spec k "note_category") as [->|Hne];
          [|discriminate]. apply Hout. now left.
      * intros ->. apply Hout. right. now left.
    + intros Hc. apply Hout. now do 4 right.
    + intros ->. apply Hout. do 3 right. now left.
    + intros ->. apply Hout. do 2 right. now left.
Qed.

Lemma recategorize_patch_shape_witness :
  exists patch,
    recategorize_patch toy_fromISO (JStr "Stack installs") installs_form
      three_stacks true = Ok patch
    /\ patch !! "stack_group_installs_a" = None
    /\ exists v, patch !! "software_type" = Some v /\ v <> JUndefined.
Proof.
  destruct (recategorize_patch toy_fromISO (JStr "Stack installs") installs_form
              three_stacks true) as [patch|] eqn:H.
  - exists patch. split; [reflexivity|].
    destruct (recategorize_patch_shape _ _ _ _ _ _ H) as (Hall & _ & Hkeys).
    split.
    + destruct (patch !! "stack_group_installs_a") as [v|] eqn:Hv; [|reflexivity].
      exfalso. specialize (Hkeys _ _ Hv). simpl in Hkeys.
      repeat (destruct Hkeys as [Hkeys|Hkeys]; [discriminate Hkeys|]).
      exact Hkeys.
    + apply Hall. simpl. tauto.
  - apply (f_equal (fun o => match o with Ok _ => true | Throw => false end)) in H.
    vm_compute in H. discriminate H.
Defined.

(** ** Unchanged edits of the simple categories *)

(** X19.  Serializing the edit initial value of a note gives back its
    simple category fields: a software type, version or work order number
    that is a non-empty string comes back as it is, and an empty or absent
    one as null; a tag list comes back as it is, and an absent one as the
    empty list (not as null). *)
Theorem unchanged_edit_keeps_simple_fields (note : Note)
    (helpers : CategoryFormHelpers) :
  serializeFormValue softwareUpdate (softwareUpdate_getEditInitialValue note) helpers
  = Ok (<["software_type" :=
            if Component.text_truthy (software_type note)
            then JStr (text_or_empty (software_type note)) else JNull]>
        {[ "version" :=
             if Component.text_truthy (version note)
             then JStr (text_or_empty (version note)) else JNull ]})
  /\ serializeFormValue calibration (calibration_getEditInitialValue note) helpers
     = Ok {[ "tag_numbers" := tags_or_empty (tag_numbers note) ]}
  /\ serializeFormValue settingsChange (settingsChange_getEditInitialValue note)
       helpers
     = Ok {[ "tag_numbers" := tags_or_empty (tag_numbers note) ]}
  /\ (exists fields,
         serializeFormValue stackReplacements
           (stackReplacements_getEditInitialValue note) helpers = Ok fields
         /\ fields !! "workorder_id"
            = Some (if Component.text_truthy (workorder_id note)
                    then JStr (text_or_empty (workorder_id note)) else JNull)).
Proof.
  assert (Htags : serialize_tag_numbers
                    {[ "tag_numbers" := tags_or_empty (tag_numbers note) ]}
                  = Ok {[ "tag_numbers" := tags_or_empty (tag_numbers note) ]}).
  { unfold serialize_tag_numbers, Js.get. rewrite lookup_singleton_eq.
    destruct (tag_numbers note) as [| |tags]; try reflexivity.
    simpl. now rewrite mapM_tag_strings. }
  split; [|split; [exact Htags|split; [exact Htags|]]].
  - cbn [serializeFormValue softwareUpdate].
    unfold softwareUpdate_getEditInitialValue, Js.get.
    rewrite lookup_insert_ne by discriminate.
    rewrite lookup_singleton_eq, lookup_insert_eq.
    now destruct (software_type note) as [| |[|a s]],
                 (version note) as [| |[|b v]].
  - eexists. split; [reflexivity|]. rewrite lookup_insert_eq. f_equal.
    unfold stackReplacements_getEditInitialValue, Js.get.
    rewrite fill_groups_other by (intros r _; simpl; discriminate).
    rewrite lookup_singleton_eq.
    now destruct (workorder_id note) as [| |[|a s]].
Qed.

(** ** The notes the list shows *)

Lemma list_filter_sublist {A : Type} (f : A -> bool) (l : list A) :
  sublist (List.filter f l) l.
Proof.
  induction l as [|x l IH]; simpl; [constructor|].
  destruct (f x); [now apply sublist_skip | now apply sublist_cons].
Qed.

(** X20.  The list never shows a note it was not given and keeps their
    order; without elevated access it shows only notes whose
    external_note is true, whatever the search query and the selected
    category; with a selected category it shows only notes of that
    category; and with elevated access, no selected category and no
    search query it shows every note. *)
Theorem filtered_notes_visibility (matches_query : string -> Note -> bool)
    (isPlugPowerUser : bool) (searchQuery : Nullable string)
    (selectedCategoryId : option Z) (notes : list Note) :
  sublist (Component.filteredNotes matches_query isPlugPowerUser searchQuery
             selectedCategoryId notes) notes
  /\ (isPlugPowerUser = false ->
      Forall (fun note => external_note note = Val true)
             (Component.filteredNotes matches_query isPlugPowerUser searchQuery
                selectedCategoryId notes))
  /\ (forall id, selectedCategoryId = Some id ->
        Forall (fun note => category note = Val id)
               (Component.filteredNotes matches_query isPlugPowerUser searchQuery
                  selectedCategoryId notes))
  /\ (isPlugPowerUser = true -> selectedCategoryId = None ->
      Component.text_truthy searchQuery = false ->
      Component.filteredNotes matches_query isPlugPowerUser searchQuery
        selectedCategoryId notes = notes).
Proof.
  set (external := fun note : Note => match external_note note with
                                      | Val true => true
                                      | _ => false
                                      end).
  set (in_category := fun (id : Z) (note : Note) =>
                        match category note with
                        | Val c => (c =? id)%Z
                        | _ => false
                        end).
  set (by_access := if negb isPlugPowerUser then List.filter external notes
                    else notes).
  set (by_category := match selectedCategoryId with
                      | Some id => List.filter (in_category id) by_access
                      | None => by_access
                      end).
  assert (Hshape : exists keep : Note -> bool,
             Component.filteredNotes matches_query isPlugPowerUser searchQuery
               selectedCategoryId notes = List.filter keep by_category).
  { unfold Component.filteredNotes. fold external. fold by_access.
    change (match selectedCategoryId with
            | Some id =>
                List.filter (fun note => match category note with
                                         | Val c => (c =? id)%Z
                                         | _ => false
                                         end) by_access
            | None => by_access
            end) with by_category.
    assert (Hall : by_category = List.filter (fun _ => true) by_category).
    { clear. induction by_category as [|x l IH]; simpl; [reflexivity|].
      now rewrite <- IH. }
    destruct searchQuery as [| |q]; try (now exists (fun _ => true)).
    destruct (JsString.truthy q); [now exists (matches_query q)|].
    now exists (fun _ => true). }
  destruct Hshape as (keep & Hshape).
  assert (Haccess : sublist by_access notes).
  { unfold by_access. destruct (negb isPlugPowerUser);
      [apply list_filter_sublist | reflexivity]. }
  assert (Hcategory : sublist by_category by_access).
  { unfold by_category. destruct selectedCategoryId;
      [apply list_filter_sublist | reflexivity]. }
  split; [|split; [|split]].
  - rewrite Hshape. etransitivity; [apply list_filter_sublist|].
    etransitivity; [exact Hcategory | exact Haccess].
  - intros ->. rewrite Hshape. apply List.Forall_forall. intros note Hn.
    apply List.filter_In in Hn as [Hn _].
    assert (Hin : In note by_access).
    { apply list_elem_of_In. eapply elem_of_sublist; [|exact Hcategory].
      now apply list_elem_of_In. }
    unfold by_access in Hin. simpl in Hin.
    apply List.filter_In in Hin as [_ Hext]. unfold external in Hext.
    now destruct (external_note note) as [| |[|]].
  - intros id ->. rewrite Hshape. apply List.Forall_forall. intros note Hn.
    apply List.filter_In in Hn as [Hn _]. unfold by_category in Hn.
    apply List.filter_In in Hn as [_ Hcat]. unfold in_category in Hcat.
    destruct (category note) as [| |c]; try discriminate.
    apply Z.eqb_eq in Hcat. now subst.
  - intros -> -> Hq. unfold Component.filteredNotes. simpl.
    destruct searchQuery as [| |q]; try reflexivity.
    simpl in Hq. now rewrite Hq.
Qed.

(** ** Form inputs and extraction *)


Lemma omap_ext_in {A B : Type} (f g : A -> option B) (l : list A) :
  (forall x, In x l -> f x = g x) -> omap f l = omap g l.
Proof.
  induction l as [|x l IH]; intros H; [reflexivity|].
  change (omap f (x :: l))
    with (match f x with Some y => y :: omap f l | None => omap f l end).
  change (omap g (x :: l))
    with (match g x with Some y => y :: omap g l | None => omap g l end).
  rewrite (H x (or_introl eq_refl)), IH; [reflexivity|].
  intros y Hy. apply H. now right.
Qed.

Lemma group_input_In (prefix : string) (ids : list string)
    (children : string -> list ComponentInput) (id : string) :
  In id ids ->
  In (Input (prefix +:+ "_" +:+ id) GroupInput None (children id))
     (buildStackGroupInputs prefix ids children).
Proof.
  intros Hid. unfold buildStackGroupInputs.
  exact (List.in_map (fun id => Input (prefix +:+ "_" +:+ id) GroupInput None
                                      (children id)) ids id Hid).
Qed.

Ltac use_input H c :=
  let E := fresh "E" in
  pose proof (H c ltac:(simpl; tauto)) as E;
  cbn [input_key] in E; rewrite E; clear E.

(** X21.  The schema of a stack category offers what the extractor
    reads: it has one group input per active stack identifier, in the
    order a..e, under the key the extractor looks up, and two submitted
    forms that agree on the inputs offered inside these groups give the
    same extracted sub-records. *)
Theorem schema_covers_extraction (helpers : CategoryFormHelpers)
    (latestSerials : gmap string string) (form1 form2 : JsObject) :
  (map input_key (stackReplacements_getFormInputs helpers)
   = "workorder_id"
     :: map (fun id => "stack_group_" +:+ id)
            (getStackIdentifiers (getStackCount helpers))
   /\ (agree_on_inputs (stackReplacements_getFormInputs helpers) form1 form2 ->
       extractStackReplacementsFromForm form1 (getStackCount helpers)
       = extractStackReplacementsFromForm form2 (getStackCount helpers)))
  /\ (map input_key (stackInspection_getFormInputs helpers latestSerials)
      = map (fun id => "stack_group_inspection_" +:+ id)
            (getStackIdentifiers (getStackCount helpers))
      /\ (agree_on_inputs (stackInspection_getFormInputs helpers latestSerials)
            form1 form2 ->
          extractStackInspectionsFromForm form1 (getStackCount helpers)
          = extractStackInspectionsFromForm form2 (getStackCount helpers)))
  /\ (map input_key (stackTensioning_getFormInputs helpers latestSerials)
      = map (fun id => "stack_group_tensioning_" +:+ id)
            (getStackIdentifiers (getStackCount helpers))
      /\ (agree_on_inputs (stackTensioning_getFormInputs helpers latestSerials)
            form1 form2 ->
          extractStackTensioningFromForm form1 (getStackCount helpers)
          = extractStackTensioningFromForm form2 (getStackCount helpers)))
  /\ (map input_key (stackInstalls_getFormInputs helpers)
      = map (fun id => "stack_group_installs_" +:+ id)
            (getStackIdentifiers (getStackCount helpers))
      /\ (agree_on_inputs (stackInstalls_getFormInputs helpers) form1 form2 ->
          extractStackInstallsFromForm form1 (getStackCount helpers)
          = extractStackInstallsFromForm form2 (getStackCount helpers))).
Proof.
  split; [|split; [|split]]; (split; [|intros Hagree; apply omap_ext_in; intros id Hid]).
  - unfold stackReplacements_getFormInputs, buildStackGroupInputs. simpl.
    f_equal. now rewrite List.map_map.
  - pose proof (fun c => Hagree _ c
                  (or_intror (group_input_In "stack_group" _ _ id Hid))) as H.
    cbn [input_key input_children] in H.
    unfold replacement_of_form, text_of, flag_of. cbv zeta.
    change ("stack_group" +:+ "_" +:+ id) with ("stack_group_" +:+ id) in H.
    use_input H (Input ("removed_serial_number_" +:+ id) StringInput None []).
    use_input H (Input ("added_serial_number_" +:+ id) StringInput None []).
    use_input H (Input ("stack_symptom_" +:+ id) SelectionInput None []).
    use_input H (Input ("stack_symptom_confirmed_" +:+ id) CheckboxInput
                      (Some (JBool false)) []).
    reflexivity.
  - unfold stackInspection_getFormInputs, buildStackGroupInputs.
    now rewrite List.map_map.
  - pose proof (fun c => Hagree _ c
                  (group_input_In "stack_group_inspection" _ _ id Hid)) as H.
    cbn [input_key input_children] in H.
    unfold inspection_of_form, text_of, flag_of. cbv zeta.
    change ("stack_group_inspection" +:+ "_" +:+ id)
      with ("stack_group_inspection_" +:+ id) in H.
    use_input H (Input ("stack_serial_number_" +:+ id) StringInput
                      (Some (prefill_default
                               (prefillSerials helpers latestSerials) id)) []).
    use_input H (Input ("insight_" +:+ id) StringInput None []).
    use_input H (Input ("stack_completed_" +:+ id) CheckboxInput
                      (Some (JBool false)) []).
    reflexivity.
  - unfold stackTensioning_getFormInputs, buildStackGroupInputs.
    now rewrite List.map_map.
  - pose proof (fun c => Hagree _ c
                  (group_input_In "stack_group_tensioning" _ _ id Hid)) as H.
    cbn [input_key input_children] in H.
    unfold tensioning_of_form, text_of, flag_of. cbv zeta.
    change ("stack_group_tensioning" +:+ "_" +:+ id)
      with ("stack_group_tensioning_" +:+ id) in H.
    use_input H (Input ("stack_serial_number_" +:+ id) StringInput
                      (Some (prefill_default
                               (prefillSerials helpers latestSerials) id)) []).
    use_input H (Input ("insight_" +:+ id) StringInput None []).
    use_input H (Input ("stack_completed_" +:+ id) CheckboxInput
                      (Some (JBool false)) []).
    reflexivity.
  - unfold stackInstalls_getFormInputs, buildStackGroupInputs.
    now rewrite List.map_map.
  - pose proof (fun c => Hagree _ c
                  (group_input_In "stack_group_installs" _ _ id Hid)) as H.
    cbn [input_key input_children] in H.
    unfold install_of_form, text_of. cbv zeta.
    change ("stack_group_installs" +:+ "_" +:+ id)
      with ("stack_group_installs_" +:+ id) in H.
    use_input H (Input ("stack_serial_number_" +:+ id) StringInput None []).
    reflexivity.
Qed.

Lemma prefill_default_latest (agentOrAssetName : Nullable string)
    (allNotes : list Note) (isEdit : bool) (id : string) :
  In id (getStackIdentifiers (Component.getStackCount agentOrAssetName)) ->
  prefill_default
    (prefillSerials (Component.getFormHelpers agentOrAssetName isEdit)
       (Component.getLatestStackSerialNumbers agentOrAssetName allNotes)) id
  = JStr (if isEdit then EmptyString
          else match first_serial id
                       (flat_map serial_candidates
                          (Component.sort_by_date_desc
                             (List.filter Component.is_relevant allNotes))) with
               | Some serial => serial
               | None => EmptyString
               end).
Proof.
  intros Hid. unfold prefill_default, prefillSerials. simpl.
  destruct isEdit; [now rewrite lookup_empty|].
  rewrite latest_serials_lookup.
  rewrite decide_True by (now apply list_elem_of_In).
  destruct (first_serial id _) as [serial|] eqn:Hs; [|reflexivity].
  apply first_serial_Some in Hs as [_ Ht]. now rewrite Ht.
Qed.

(** X22.  What the dialogs of the inspection and tensioning categories
    pre-fill: for every active stack identifier the schema built with the
    helpers of the component has, in the group of that stack, a serial
    number input whose default value is, in an Add dialog, the first
    non-empty serial number that the install and replacement notes hold
    for the stack, from the most recent note to the oldest (the empty
    string when there is none), and in an Edit dialog the empty string. *)
Theorem dialogs_prefill_latest_serial (agentOrAssetName : Nullable string)
    (allNotes : list Note) (isEdit : bool) (id : string) :
  In id (getStackIdentifiers (Component.getStackCount agentOrAssetName)) ->
  (exists g c,
      In g (stackInspection_getFormInputs
              (Component.getFormHelpers agentOrAssetName isEdit)
              (Component.getLatestStackSerialNumbers agentOrAssetName allNotes))
      /\ input_key g = "stack_group_inspection_" +:+ id
      /\ In c (input_children g)
      /\ input_key c = "stack_serial_number_" +:+ id
      /\ input_default c
         = Some (JStr (if isEdit then EmptyString
                       else match first_serial id
                                    (flat_map serial_candidates
                                       (Component.sort_by_date_desc
                                          (List.filter Component.is_relevant
                                             allNotes))) with
                            | Some serial => serial
                            | None => EmptyString
                            end)))
  /\ (exists g c,
         In g (stackTensioning_getFormInputs
                 (Component.getFormHelpers agentOrAssetName isEdit)
                 (Component.getLatestStackSerialNumbers agentOrAssetName allNotes))
         /\ input_key g = "stack_group_tensioning_" +:+ id
         /\ In c (input_children g)
         /\ input_key c = "stack_serial_number_" +:+ id
         /\ input_default c
            = Some (JStr (if isEdit then EmptyString
                          else match first_serial id
                                       (flat_map serial_candidates
                                          (Component.sort_by_date_desc
                                             (List.filter Component.is_relevant
                                                allNotes))) with
                               | Some serial => serial
                               | None => EmptyString
                               end))).
Proof.
  intros Hid.
  pose proof (prefill_default_latest agentOrAssetName allNotes isEdit id Hid)
    as Hdefault.
  split.
  - eexists _, _. split.
    + unfold stackInspection_getFormInputs. apply group_input_In.
      exact Hid.
    + split; [reflexivity|]. split; [left; reflexivity|].
      split; [reflexivity|]. cbn [input_default]. f_equal. exact Hdefault.
  - eexists _, _. split.
    + unfold stackTensioning_getFormInputs. apply group_input_In.
      exact Hid.
    + split; [reflexivity|]. split; [left; reflexivity|].
      split; [reflexivity|]. cbn [input_default]. f_equal. exact Hdefault.
Qed.

Lemma dialogs_prefill_latest_serial_witness :
  exists g c,
    In g (stackInspection_getFormInputs
            (Component.getFormHelpers (Val "EX2125D unit 7") false)
            (Component.getLatestStackSerialNumbers (Val "EX2125D unit 7")
               [installs_note; replaced_note; later_installs_note; other_note]))
    /\ input_key g = "stack_group_inspection_a"
    /\ In c (input_children g)
    /\ input_key c = "stack_serial_number_a"
    /\ input_default c = Some (JStr "SN-9").
Proof.
  apply (proj1 (dialogs_prefill_latest_serial (Val "EX2125D unit 7")
                  [installs_note; replaced_note; later_installs_note; other_note]
                  false "a" ltac:(vm_compute; tauto))).
Defined.
